(** * Maschine Mikro MK1 input-report decoder

    A shallow embedding of [src/devices/ni/MaschineMikroMK1.{h,cpp}]: the
    report classifier ([processReport]), the button/encoder decoder
    ([processButtonsReport]) and the pad decoder ([processPadsLikeMk1Mk2]),
    together with the properties of the decoder that the specification
    states.

    Conventions of the embedding.
    - Machine integers are [Z]; every narrowing cast of the source is written
      out ([uint8], [uint32], [size_t], [static_cast_int]).
    - A [Transfer] is the list of its bytes.
    - A [std::bitset<N>] is the non-negative integer whose binary digits are
      its bits; [test] and [set] are range-checked as in the C++ library.
    - Every read or write that the C++ program performs through an index is
      fallible here: an index outside the container yields [None], which
      stands for the undefined behaviour (or the exception) of the source.
    - The member functions thread the device object and the list of events
      handed to the [Device] callbacks ([buttonChanged], [encoderChanged],
      [keyChanged]), oldest event first. *)

From Stdlib Require Import ZArith List Bool String Lia PrimFloat Uint63.
From Stdlib.Strings Require Import Byte Ascii.
From stdpp Require Import base option list.
Import ListNotations.
Open Scope Z_scope.

(** ** Machine arithmetic *)

Definition uint8 (z : Z) : Z := z mod 2 ^ 8.
Definition uint32 (z : Z) : Z := z mod 2 ^ 32.
Definition size_t (z : Z) : Z := z mod 2 ^ 64.

(** [static_cast<int>] of a [size_t]: reduction into the signed 32-bit range. *)
Definition static_cast_int (z : Z) : Z := (z + 2 ^ 31) mod 2 ^ 32 - 2 ^ 31.

(** The value of a byte as an [unsigned]. *)
Definition u8 (b : byte) : Z := Z.of_N (Byte.to_N b).

Fixpoint popcount_pos (p : positive) : Z :=
  match p with
  | xH => 1
  | xO q => popcount_pos q
  | xI q => 1 + popcount_pos q
  end.

(** [__builtin_popcount] on an [unsigned] argument. *)
Definition builtin_popcount (z : Z) : Z :=
  match uint32 z with
  | Zpos p => popcount_pos p
  | _ => 0
  end.

(** ** Containers *)

(** [cabl/comm/Transfer.h] is not part of the sources at hand; a transfer is
    modelled by the bytes it holds, [operator bool] by non-emptiness,
    [size()] by the length and [operator[](int)] by the indexed read. *)
Abbreviation Transfer := (list byte).

Definition Transfer_size (t : Transfer) : Z := size_t (Z.of_nat (length t)).

Definition Transfer_bool (t : Transfer) : bool :=
  match t with [] => false | _ :: _ => true end.

Definition Transfer_at (t : Transfer) (i : Z) : option byte :=
  if i <? 0 then None else t !! Z.to_nat i.

(** [std::array<T, N>::operator[]]. *)
Definition array_get {A} (a : list A) (i : Z) : option A :=
  if i <? 0 then None else a !! Z.to_nat i.

Definition array_set {A} (a : list A) (i : Z) (v : A) : option (list A) :=
  if (0 <=? i) && (i <? Z.of_nat (length a))
  then Some (<[Z.to_nat i := v]> a)
  else None.

(** [std::bitset<N>::test] and [std::bitset<N>::set(pos, val)]. *)
Definition bitset_test (N : Z) (b : Z) (pos : Z) : option bool :=
  if (0 <=? pos) && (pos <? N) then Some (Z.testbit b pos) else None.

Definition bitset_write (b : Z) (pos : Z) (val : bool) : Z :=
  if val then Z.setbit b pos else Z.clearbit b pos.

Definition bitset_set (N : Z) (b : Z) (pos : Z) (val : bool) : option Z :=
  if (0 <=? pos) && (pos <? N) then Some (bitset_write b pos val) else None.

(** Counted loops: the body is run on each index in turn and a failure of
    the body aborts the loop. *)
Fixpoint for_each {A X} (body : A -> X -> option X) (l : list A) (x : X)
  : option X :=
  match l with
  | [] => Some x
  | a :: l' =>
      match body a x with
      | Some x' => for_each body l' x'
      | None => None
      end
  end.

(** ** Constants and tables of the translation unit *)

Definition kPadThreshold : Z := 200.
Definition kNumPads : Z := 16.
Definition kNumButtonBits : Z := 32.

Definition kRawPadToLogical : list Z :=
  [12; 13; 14; 15; 8; 9; 10; 11; 4; 5; 6; 7; 0; 1; 2; 3].

(** The identities of [Device::Button] that this translation unit names. *)
Module Button.
Inductive t : Set :=
| Unknown
| Mute | Solo | Select | Duplicate | View | PadMode | Pattern | Scene
| Enter | NavigateRight | NavigateLeft | Nav | Main | F3 | F2 | F1
| MainEncoder | NoteRepeat | Group | Sampling | Browse
| Shift | Erase | Rec | Play | Grid | TransportRight | TransportLeft
| Restart.

Definition is_unknown (b : t) : bool :=
  match b with Unknown => true | _ => false end.
End Button.

Record ButtonMapping := mkButtonMapping {
  id : Button.t;
  name : string
}.

Definition kButtonByBankBit : list (list ButtonMapping) :=
  let m := mkButtonMapping in
  let unknown := m Button.Unknown "Unknown"%string in
  [ (* bank 0 (unused) *)
    [ unknown; unknown; unknown; unknown; unknown; unknown; unknown; unknown ];
    (* bank 1 *)
    [ m Button.Mute "Mute"; m Button.Solo "Solo"; m Button.Select "Select";
      m Button.Duplicate "Duplicate"; m Button.View "View";
      m Button.PadMode "Pad Mode"; m Button.Pattern "Pattern";
      m Button.Scene "Scene" ];
    (* bank 2 *)
    [ m Button.Enter "Enter"; m Button.NavigateRight "Right Nav";
      m Button.NavigateLeft "Left Nav"; m Button.Nav "Nav";
      m Button.Main "Main"; m Button.F3 "F3"; m Button.F2 "F2";
      m Button.F1 "F1" ];
    (* bank 3 *)
    [ unknown; unknown; unknown; m Button.MainEncoder "Encoder Press";
      m Button.NoteRepeat "Note Repeat"; m Button.Group "Group";
      m Button.Sampling "Sampling"; m Button.Browse "Browse" ];
    (* bank 4 *)
    [ m Button.Shift "Shift"; m Button.Erase "Erase"; m Button.Rec "Record";
      m Button.Play "Play"; m Button.Grid "Grid";
      m Button.TransportRight "Right Transport";
      m Button.TransportLeft "Left Transport"; m Button.Restart "Restart" ]
  ]%string.

(** ** The device object and its callbacks *)

Record MaschineMikroMK1 := mkDevice {
  m_padValues : list Z;
  m_padDown : Z;
  m_buttonDown : Z;
  m_buttonsActiveLow : Z;      (* -1 unknown, 0 active-high, 1 active-low *)
  m_encoderInitialized : bool;
  m_encoderValue : Z
}.

Inductive Event :=
| buttonChanged (button : Button.t) (pressed shiftPressed : bool)
| encoderChanged (encoder : Z) (increased shiftPressed : bool)
| keyChanged (key : Z) (value : float) (shiftPressed : bool).

(** The state threaded through a member function: the object and the
    events emitted so far. *)
Definition Run : Type := MaschineMikroMK1 * list Event.

Definition emit (e : Event) (r : Run) : Run := (r.1, r.2 ++ [e]).

Definition set_padValues (v : list Z) (d : MaschineMikroMK1) :=
  mkDevice v (m_padDown d) (m_buttonDown d) (m_buttonsActiveLow d)
    (m_encoderInitialized d) (m_encoderValue d).

Definition set_padDown (v : Z) (d : MaschineMikroMK1) :=
  mkDevice (m_padValues d) v (m_buttonDown d) (m_buttonsActiveLow d)
    (m_encoderInitialized d) (m_encoderValue d).

Definition set_buttonDown (v : Z) (d : MaschineMikroMK1) :=
  mkDevice (m_padValues d) (m_padDown d) v (m_buttonsActiveLow d)
    (m_encoderInitialized d) (m_encoderValue d).

Definition set_buttonsActiveLow (v : Z) (d : MaschineMikroMK1) :=
  mkDevice (m_padValues d) (m_padDown d) (m_buttonDown d) v
    (m_encoderInitialized d) (m_encoderValue d).

Definition set_encoderInitialized (v : bool) (d : MaschineMikroMK1) :=
  mkDevice (m_padValues d) (m_padDown d) (m_buttonDown d)
    (m_buttonsActiveLow d) v (m_encoderValue d).

Definition set_encoderValue (v : Z) (d : MaschineMikroMK1) :=
  mkDevice (m_padValues d) (m_padDown d) (m_buttonDown d)
    (m_buttonsActiveLow d) (m_encoderInitialized d) v.

(** [MaschineMikroMK1::init]. *)
Definition init (_ : MaschineMikroMK1) : MaschineMikroMK1 :=
  mkDevice (replicate 16 0) 0 0 (-1) false 0.

(** ** The pad decoder *)

(** [value / 1024.0]: the [unsigned] is converted to [double] and divided. *)
Definition to_double (value : Z) : float := PrimFloat.of_uint63 (Uint63.of_Z value).

Definition pad_ratio (value : Z) : float := PrimFloat.div (to_double value) 1024%float.

Definition rawPad_of (h : Z) : Z := uint8 (Z.shiftr (Z.land h 0xF0) 4).

Definition value_of (l h : Z) : Z := uint32 (Z.lor (Z.shiftl (Z.land h 0x0F) 8) l).

(** The body of the loop of [processPadsLikeMk1Mk2] once the pair [(l, h)]
    has been read. *)
Definition padBody (bl bh : byte) (r : Run) : option Run :=
  let l := u8 bl in
  let h := u8 bh in
  let rawPad := rawPad_of h in
  if kNumPads <=? rawPad then Some r
  else
    pad ← array_get kRawPadToLogical rawPad;
    let value := value_of l h in
    vals ← array_set (m_padValues r.1) pad value;
    let r := (set_padValues vals r.1, r.2) in
    if kPadThreshold <? value then
      down ← bitset_set kNumPads (m_padDown r.1) pad true;
      Some (emit (keyChanged pad (pad_ratio value) false)
              (set_padDown down r.1, r.2))
    else
      isDown ← bitset_test kNumPads (m_padDown r.1) pad;
      if isDown : bool then
        down ← bitset_set kNumPads (m_padDown r.1) pad false;
        Some (emit (keyChanged pad 0%float false)
                (set_padDown down r.1, r.2))
      else Some r.

(** One round of the loop: the two reads, then the body. *)
Definition processPair (input_ : Transfer) (i : Z) (r : Run) : option Run :=
  bl ← Transfer_at input_ (static_cast_int i);
  bh ← Transfer_at input_ (static_cast_int (size_t (i + 1)));
  padBody bl bh r.

(** [for (size_t i = 1; (i + 1) < input_.size(); i += 2)].  Each round of
    the loop moves [i] two bytes forward, so the loop makes fewer than
    [length input_] rounds; [fuel] is that bound. *)
Fixpoint padsLoop (fuel : nat) (input_ : Transfer) (i : Z) (r : Run)
  : option Run :=
  if size_t (i + 1) <? Transfer_size input_ then
    match fuel with
    | O => None
    | S fuel' =>
        match processPair input_ i r with
        | Some r' => padsLoop fuel' input_ (size_t (i + 2)) r'
        | None => None
        end
    end
  else Some r.

Definition processPadsLikeMk1Mk2 (input_ : Transfer) (r : Run) : option Run :=
  padsLoop (length input_) input_ 1 r.

(** ** The button and encoder decoder *)

(** One round of the calibration loop on the accumulators
    [(allZero, allFF, ones)]. *)
Definition calibrationStep (input_ : Transfer) (i : Z) (acc : bool * bool * Z)
  : option (bool * bool * Z) :=
  b8 ← Transfer_at input_ (static_cast_int (size_t (1 + i)));
  let b := u8 b8 in
  let '(allZero, allFF, ones) := acc in
  Some (allZero && (b =? 0x00), allFF && (b =? 0xFF),
        uint32 (ones + uint32 (builtin_popcount b))).

(** [for (size_t i = 0; i < nPayloadBytes - 1; ++i)] with its three
    accumulators. *)
Definition calibrationLoop (input_ : Transfer) (nPayloadBytes : Z)
  : option (bool * bool * Z) :=
  for_each (calibrationStep input_) (seqZ 0 (size_t (nPayloadBytes - 1)))
    (true, true, 0).

(** The value given to [m_buttonsActiveLow] when it is still negative. *)
Definition detectPolarity (input_ : Transfer) (nPayloadBytes : Z) : option Z :=
  acc ← calibrationLoop input_ nPayloadBytes;
  let '(allZero, allFF, ones) := acc in
  if allFF : bool then Some 1
  else if allZero : bool then Some 0
  else
    let totalBits := uint32 (size_t (size_t (nPayloadBytes - 1) * 8)) in
    Some (if totalBits / 2 <? ones then 1 else 0).

(** The inner loop over the bits of one bitfield byte. *)
Definition newDownBit (activeLow payloadByteIndex b bit newDown : Z)
  : option Z :=
  let buttonIndex := uint32 (size_t (payloadByteIndex * 8 + bit)) in
  let bitIsOne := negb (Z.land (Z.shiftr b bit) 0x01 =? 0) in
  let pressed := if 0 <? activeLow then negb bitIsOne else bitIsOne in
  bitset_set kNumButtonBits newDown buttonIndex pressed.

Definition newDownByte (input_ : Transfer) (activeLow payloadByteIndex newDown : Z)
  : option Z :=
  b8 ← Transfer_at input_ (static_cast_int (size_t (1 + payloadByteIndex)));
  for_each (newDownBit activeLow payloadByteIndex (u8 b8)) (seqZ 0 8) newDown.

(** The new "down" set built from the four bitfield bytes. *)
Definition buildNewDown (input_ : Transfer) (activeLow : Z) : option Z :=
  for_each (newDownByte input_ activeLow) (seqZ 0 4) 0.

Definition encoderIncreased (encoderValue current : Z) : bool :=
  ((encoderValue <? current)
   || ((encoderValue =? 0x0F) && (current =? 0x00)))
  && negb ((encoderValue =? 0x0) && (current =? 0x0F)).

(** The encoder block. *)
Definition encoderBlock (input_ : Transfer) (nPayloadBytes : Z)
    (shiftPressed : bool) (r : Run) : option Run :=
  raw8 ← Transfer_at input_ (static_cast_int (size_t (1 + (nPayloadBytes - 1))));
  let raw := u8 raw8 in
  let current := uint8 (Z.land raw 0x0F) in
  if negb (m_encoderInitialized r.1) then
    Some (set_encoderValue current (set_encoderInitialized true r.1), r.2)
  else if negb (current =? m_encoderValue r.1) then
    let increased := encoderIncreased (m_encoderValue r.1) current in
    let r := emit (encoderChanged 0 increased shiftPressed) r in
    Some (set_encoderValue current r.1, r.2)
  else Some r.

(** One round of the loop over the 32 button bits. *)
Definition buttonEdge (newDown : Z) (shiftPressed : bool) (buttonIndex : Z)
    (r : Run) : option Run :=
  new ← bitset_test kNumButtonBits newDown buttonIndex;
  old ← bitset_test kNumButtonBits (m_buttonDown r.1) buttonIndex;
  if Bool.eqb new old then Some r
  else
    let payloadByteIndex := buttonIndex / 8 in
    let bitIndex := buttonIndex mod 8 in
    let bank := static_cast_int (uint32 (4 - payloadByteIndex)) in
    row ← array_get kButtonByBankBit bank;
    mapping ← array_get row bitIndex;
    pressed ← bitset_test kNumButtonBits newDown buttonIndex;
    if negb (Button.is_unknown (id mapping))
    then Some (emit (buttonChanged (id mapping) pressed shiftPressed) r)
    else Some r.

Definition buttonEdges (newDown : Z) (shiftPressed : bool) (r : Run)
  : option Run :=
  for_each (buttonEdge newDown shiftPressed) (seqZ 0 kNumButtonBits) r.

Definition processButtonsReport (input_ : Transfer) (r : Run) : option Run :=
  let nPayloadBytes := size_t (Transfer_size input_ - 1) in
  if nPayloadBytes <? 5 then Some r
  else
    r ← (if m_buttonsActiveLow r.1 <? 0
         then p ← detectPolarity input_ nPayloadBytes;
              Some (set_buttonsActiveLow p r.1, r.2)
         else Some r);
    newDown ← buildNewDown input_ (m_buttonsActiveLow r.1);
    shiftPressed ← bitset_test kNumButtonBits newDown 0;
    r ← encoderBlock input_ nPayloadBytes shiftPressed r;
    r ← buttonEdges newDown shiftPressed r;
    Some (set_buttonDown newDown r.1, r.2).

(** ** The report classifier *)

(** [input_[i] == v], a read followed by a comparison. *)
Definition byte_is (input_ : Transfer) (i v : Z) : option bool :=
  b ← Transfer_at input_ i;
  Some (u8 b =? v).

Definition processReport (input_ : Transfer) (r : Run) : option Run :=
  if negb (Transfer_bool input_) then Some r
  else
    isButtons ← (if Transfer_size input_ =? 6
                 then byte_is input_ 0 0x01 else Some false);
    if isButtons : bool then processButtonsReport input_ r
    else
      isPads ← (if 2 <=? Transfer_size input_
                then byte_is input_ 0 0x20 else Some false);
      if isPads : bool then processPadsLikeMk1Mk2 input_ r
      else if (33 <=? Transfer_size input_)
              && (Transfer_size input_ mod 2 =? 1)
      then processPadsLikeMk1Mk2 input_ r
      else Some r.

(** [MaschineMikroMK1::read]; [readFromDeviceHandle] is the outcome of the
    transport read: [None] when it fails, the transfer it filled in
    otherwise. *)
Definition read (readFromDeviceHandle : option Transfer) (r : Run)
  : option (bool * Run) :=
  match readFromDeviceHandle with
  | None => Some (false, r)
  | Some input =>
      if negb (Transfer_bool input) then Some (true, r)
      else r' ← processReport input r; Some (true, r')
  end.

Definition tick := read.

(** ** Vocabulary of the specification *)

Inductive Polarity := PolarityUnknown | ActiveHigh | ActiveLow.

(** How the decoder reads [m_buttonsActiveLow]: negative is "not yet
    calibrated", positive is active-low. *)
Definition polarity (d : MaschineMikroMK1) : Polarity :=
  if m_buttonsActiveLow d <? 0 then PolarityUnknown
  else if 0 <? m_buttonsActiveLow d then ActiveLow
  else ActiveHigh.

(** The size invariant of the pad array. *)
Definition wf (d : MaschineMikroMK1) : Prop :=
  length (m_padValues d) = 16%nat.

Definition is_encoder_event (e : Event) : bool :=
  match e with encoderChanged _ _ _ => true | _ => false end.

Definition is_button_event (e : Event) : bool :=
  match e with buttonChanged _ _ _ => true | _ => false end.

(** A freshly initialised device. *)
Definition fresh : MaschineMikroMK1 := init (mkDevice [] 0 0 0 false 0).

(** The little-endian pairs of a byte sequence; a dangling last byte is
    dropped. *)
Fixpoint pairs (l : list byte) : list (byte * byte) :=
  match l with
  | lo :: hi :: rest => (lo, hi) :: pairs rest
  | _ => []
  end.

(** The pad magnitude and raw pad index as the specification words them. *)
Definition magnitude (lo hi : byte) : Z := (u8 hi mod 16) * 256 + u8 lo.
Definition rawPadIndex (hi : byte) : Z := u8 hi / 16.

(** The loop body on a pair. *)
Definition padBody' (p : byte * byte) (r : Run) : option Run :=
  padBody p.1 p.2 r.

(** The part of the device that the pad decoder has no business with. *)
Definition buttons_part (d : MaschineMikroMK1) : Z * Z * bool * Z :=
  (m_buttonDown d, m_buttonsActiveLow d, m_encoderInitialized d,
   m_encoderValue d).

(** The part of the device that the button decoder has no business with. *)
Definition pads_part (d : MaschineMikroMK1) : list Z * Z :=
  (m_padValues d, m_padDown d).

(** Reports decoded one after the other, as successive ticks do. *)
Definition processReports (reports : list Transfer) (r : Run) : option Run :=
  for_each processReport reports r.

(** The events that a sequence of reports emits. *)
Definition emitted (reports : list Transfer) (r : Run) : option (list Event) :=
  match processReports reports r with
  | Some r' => Some r'.2
  | None => None
  end.

(** The checks behind [pad_ratio_exact], as a decidable test. *)
Definition pad_ratio_check (m : Z) : bool :=
  Bool.eqb (PrimFloat.ltb 1%float (pad_ratio m)) (1024 <? m)
  && PrimFloat.eqb (PrimFloat.mul (pad_ratio m) 1024%float) (to_double m).

(** The number of set bits of a byte. *)
Definition setBits (b : byte) : Z :=
  Z.of_nat (length (List.filter (Z.testbit (u8 b)) (seqZ 0 8))).

(** The calibration rule of the specification on the examined bytes:
    1 stands for active-low and 0 for active-high. *)
Definition resolvedPolarity (examined : list byte) : Z :=
  if forallb (fun b => u8 b =? 0xFF) examined then 1
  else if forallb (fun b => u8 b =? 0x00) examined then 0
  else if (8 * Z.of_nat (length examined)) / 2
          <? foldr Z.add 0 (map setBits examined)
       then 1 else 0.

(** The pressed state of one bit of a bitfield byte under a polarity. *)
Definition pressedBit (activeLow : Z) (b : byte) (bit : Z) : bool :=
  if 0 <? activeLow then negb (Z.testbit (u8 b) bit)
  else Z.testbit (u8 b) bit.

(** The pressed state of a bit position of a frame of bitfield bytes,
    byte-major and least significant bit first. *)
Definition framePressed (activeLow : Z) (bitfields : list byte)
    (bitPosition : Z) : bool :=
  match bitfields !! Z.to_nat (bitPosition / 8) with
  | Some b => pressedBit activeLow b (bitPosition mod 8)
  | None => false
  end.

(** The identity that the bank/bit table gives. *)
Definition buttonAt (bank bit : Z) : Button.t :=
  match array_get kButtonByBankBit bank with
  | Some row =>
      match array_get row bit with
      | Some mapping => id mapping
      | None => Button.Unknown
      end
  | None => Button.Unknown
  end.

(** The events owed to one bit position: one button-changed event when the
    state changed and the identity is known, none otherwise. *)
Definition edgeEvents (new old : Z -> bool) (shift : bool) (bitPosition : Z)
  : list Event :=
  if Bool.eqb (new bitPosition) (old bitPosition) then []
  else
    let button := buttonAt (4 - bitPosition / 8) (bitPosition mod 8) in
    if Button.is_unknown button then []
    else [buttonChanged button (new bitPosition) shift].

(** The button events of a frame, in ascending bit position. *)
Definition buttonEvents (new old : Z -> bool) (shift : bool) : list Event :=
  flat_map (edgeEvents new old shift) (seqZ 0 32).

(** The encoder events of a report. *)
Definition encoderEvents (initialized : bool) (stored current : Z)
    (shift : bool) : list Event :=
  if initialized && negb (current =? stored)
  then [encoderChanged 0 (encoderIncreased stored current) shift]
  else [].

(** The writes that the inner loop makes for the bitfield byte [b] at
    payload index [k]. *)
Definition writeByte (activeLow k : Z) (b : byte) (newDown : Z) : Z :=
  foldl (fun acc bit => bitset_write acc (k * 8 + bit) (pressedBit activeLow b bit))
    newDown [0; 1; 2; 3; 4; 5; 6; 7].

(** ** Invariants of the device *)

(** The ranges of the fields: 16 pad magnitudes of 12 bits, bitsets of 16
    and 32 bits, a polarity among -1, 0, 1 and a 4-bit encoder position. *)
Definition valid (d : MaschineMikroMK1) : Prop :=
  length (m_padValues d) = 16%nat /\
  Forall (fun v => 0 <= v <= 4095) (m_padValues d) /\
  0 <= m_padDown d < 2 ^ 16 /\
  0 <= m_buttonDown d < 2 ^ 32 /\
  -1 <= m_buttonsActiveLow d <= 1 /\
  0 <= m_encoderValue d <= 15.

(** A pad is marked down exactly when the magnitude stored for it is above
    the threshold. *)
Definition padsConsistent (d : MaschineMikroMK1) : Prop :=
  forall pad v,
    0 <= pad < 16 ->
    m_padValues d !! Z.to_nat pad = Some v ->
    Z.testbit (m_padDown d) pad = (kPadThreshold <? v).

(** The logical pad that a pair addresses. *)
Definition logicalPad (hi : byte) : Z :=
  default 0 (array_get kRawPadToLogical (rawPadIndex hi)).

(** The magnitude of the last pair of a report that addresses a pad, if
    any. *)
Fixpoint lastMagnitude (pad : Z) (ps : list (byte * byte)) : option Z :=
  match ps with
  | [] => None
  | (lo, hi) :: rest =>
      match lastMagnitude pad rest with
      | Some m => Some m
      | None => if logicalPad hi =? pad then Some (magnitude lo hi) else None
      end
  end.

(** A pad event as the pad decoder emits them: a key among the 16 pads and
    the shift flag off. *)
Definition is_key_event (e : Event) : bool :=
  match e with
  | keyChanged key _ shift => (0 <=? key) && (key <=? 15) && negb shift
  | _ => false
  end.

(** A button event for a named button, carrying the given shift flag. *)
Definition is_known_button_event (shift : bool) (e : Event) : bool :=
  match e with
  | buttonChanged button _ s => negb (Button.is_unknown button) && Bool.eqb s shift
  | _ => false
  end.

(** An encoder event for encoder 0, carrying the given shift flag. *)
Definition is_encoder0_event (shift : bool) (e : Event) : bool :=
  match e with
  | encoderChanged encoder _ s => (encoder =? 0) && Bool.eqb s shift
  | _ => false
  end.

(** How many events a bit position can give rise to. *)
Definition edgeBound (bitPosition : Z) : nat :=
  if Button.is_unknown (buttonAt (4 - bitPosition / 8) (bitPosition mod 8))
  then 0%nat else 1%nat.

(** The number of bit positions that a frame holds pressed. *)
Definition pressedCount (frame : Z -> bool) : Z :=
  foldr (fun i acc => Z.b2z (frame i) + acc) 0 (seqZ 0 32).

(** The number of bits of a bitfield byte that read as pressed. *)
Definition pressedInByte (activeLow : Z) (b : byte) : Z :=
  foldr (fun j acc => Z.b2z (pressedBit activeLow b j) + acc) 0 (seqZ 0 8).

(** ** Streams of events *)

#[global] Instance Button_eq_dec : EqDecision Button.t.
Proof. solve_decision. Defined.

(** The pressed flags of the events of one button, oldest first. *)
Fixpoint buttonFlags (button : Button.t) (evs : list Event) : list bool :=
  match evs with
  | [] => []
  | buttonChanged b pressed _ :: rest =>
      if decide (b = button) then pressed :: buttonFlags button rest
      else buttonFlags button rest
  | _ :: rest => buttonFlags button rest
  end.

(** The events of one pad, oldest first: [true] for an event with a value
    other than 0.0 (a press), [false] for an event with the value 0.0 (a
    release). *)
Fixpoint padFlags (pad : Z) (evs : list Event) : list bool :=
  match evs with
  | [] => []
  | keyChanged key value _ :: rest =>
      if key =? pad
      then negb (PrimFloat.eqb value 0%float) :: padFlags pad rest
      else padFlags pad rest
  | _ :: rest => padFlags pad rest
  end.

(** A stream of flags in which every flag is allowed after the one before
    it, [state] standing for the flag before the first. *)
Fixpoint follows (ok : bool -> bool -> bool) (state : bool)
    (flags : list bool) : bool :=
  match flags with
  | [] => true
  | f :: rest => ok state f && follows ok f rest
  end.

(** The last flag of a stream, [state] when there is none. *)
Definition lastFlag (state : bool) (flags : list bool) : bool :=
  foldl (fun _ f => f) state flags.

(** Button events alternate: a flag differs from the one before it. *)
Definition alternating (state flag : bool) : bool := negb (Bool.eqb flag state).

(** Pad events: a release needs the pad to be down. *)
Definition releaseAfterPress (state flag : bool) : bool := flag || state.

(** The events that a run appends obey [ok] on the flags drawn by [flags],
    and the bit [bit] of the device ends as the last flag. *)
Definition tracks (bit : MaschineMikroMK1 -> bool)
    (flags : list Event -> list bool) (ok : bool -> bool -> bool)
    (r r' : Run) : Prop :=
  exists evs,
    r'.2 = r.2 ++ evs /\
    follows ok (bit r.1) (flags evs) = true /\
    lastFlag (bit r.1) (flags evs) = bit r'.1.

(** The check behind [pad_ratio_nonzero], as a decidable test. *)
Definition pad_ratio_nonzero_check (m : Z) : bool :=
  negb (PrimFloat.eqb (pad_ratio m) 0%float).

(** ** The hexadecimal dump of a transfer *)

(** The digits that [std::hex] writes. *)
Definition hexDigit (n : Z) : ascii :=
  match String.get (Z.to_nat n) "0123456789abcdef" with
  | Some c => c
  | None => "?"%char
  end.

(** The digits of [v], most significant first and without leading zeros;
    eight rounds are enough for a 32-bit value. *)
Fixpoint hexDigits (fuel : nat) (v : Z) : string :=
  match fuel with
  | O => ""
  | S fuel' =>
      if v <? 16 then String (hexDigit v) ""
      else (hexDigits fuel' (v / 16) ++ String (hexDigit (v mod 16)) "")%string
  end.

(** [os << v] for an [int] [v] on a stream in [std::hex] mode, which writes
    the value as an [unsigned]. *)
Definition formatHex (v : Z) : string := hexDigits 8 (uint32 v).

(** One round of the loop of [toHexBytes] on the stream contents [os]. *)
Definition toHexBytes_step (input : Transfer) (i : Z) (os : string)
  : option string :=
  b ← Transfer_at input (static_cast_int i);
  Some (os ++ (if (i =? 0)%Z then "" else " ") ++ formatHex (u8 b))%string.

Definition toHexBytes (input : Transfer) : option string :=
  for_each (toHexBytes_step input) (seqZ 0 (Transfer_size input)) ""%string.

(** Reading a dump back: hexadecimal numbers separated by single spaces.
    [cur] is the number being read, [out] the bytes read so far, last
    first. *)
Definition hexValue (c : ascii) : option Z :=
  match String.index 0 (String c "") "0123456789abcdef" with
  | Some k => Some (Z.of_nat k)
  | None => None
  end.

Definition pushByte (v : Z) (out : list byte) : option (list byte) :=
  match Byte.of_N (Z.to_N v) with
  | Some b => Some (b :: out)
  | None => None
  end.

Fixpoint readHexBytes (s : string) (cur : option Z) (out : list byte)
  : option (list byte) :=
  match s with
  | EmptyString =>
      match cur with
      | Some v =>
          match pushByte v out with
          | Some out' => Some (rev out')
          | None => None
          end
      | None => match out with [] => Some [] | _ => None end
      end
  | String c rest =>
      if Ascii.eqb c " " then
        match cur with
        | Some v =>
            match pushByte v out with
            | Some out' => readHexBytes rest None out'
            | None => None
            end
        | None => None
        end
      else
        match hexValue c with
        | Some d => readHexBytes rest (Some (16 * default 0 cur + d)) out
        | None => None
        end
  end.

(** The four bitfield bytes as a 32-bit little-endian word. *)
Definition frameWord (b1 b2 b3 b4 : byte) : Z :=
  u8 b1 + 2 ^ 8 * u8 b2 + 2 ^ 16 * u8 b3 + 2 ^ 24 * u8 b4.

(** The bitfield bytes and the encoder byte of a transfer that the
    classifier takes for a buttons report. *)
Definition buttonsFields (t : Transfer)
  : option (byte * byte * byte * byte * byte) :=
  match t with
  | [b0; b1; b2; b3; b4; enc] =>
      if u8 b0 =? 0x01 then Some (b1, b2, b3, b4, enc) else None
  | _ => None
  end.

(** The pairs of a transfer that the classifier hands to the pad decoder;
    none for any other transfer. *)
Definition padPairsOf (t : Transfer) : list (byte * byte) :=
  match t with
  | [] => []
  | b0 :: rest =>
      let n := Z.of_nat (length t) in
      if (n =? 6) && (u8 b0 =? 0x01) then []
      else if ((2 <=? n) && (u8 b0 =? 0x20))
              || ((33 <=? n) && (n mod 2 =? 1))
      then pairs rest
      else []
  end.

(** * Properties *)

(** ** Machine arithmetic and containers *)

Lemma u8_range b : 0 <= u8 b < 256.
Proof. destruct b; unfold u8; simpl; lia. Qed.

Lemma size_t_small z : 0 <= z < 2 ^ 64 -> size_t z = z.
Proof. intros H. unfold size_t. apply Z.mod_small. lia. Qed.

Lemma uint32_small z : 0 <= z < 2 ^ 32 -> uint32 z = z.
Proof. intros H. unfold uint32. apply Z.mod_small. lia. Qed.

Lemma uint8_small z : 0 <= z < 2 ^ 8 -> uint8 z = z.
Proof. intros H. unfold uint8. apply Z.mod_small. lia. Qed.

Lemma static_cast_int_small z : 0 <= z < 2 ^ 31 -> static_cast_int z = z.
Proof.
  intros H. unfold static_cast_int.
  rewrite Z.mod_small by lia. lia.
Qed.

Lemma Transfer_at_nat (t : Transfer) (k : nat) :
  Transfer_at t (Z.of_nat k) = t !! k.
Proof.
  unfold Transfer_at.
  destruct (Z.ltb_spec (Z.of_nat k) 0); [lia|].
  by rewrite Nat2Z.id.
Qed.

Lemma Transfer_size_small (t : Transfer) :
  Z.of_nat (length t) < 2 ^ 64 -> Transfer_size t = Z.of_nat (length t).
Proof. intros H. unfold Transfer_size. apply size_t_small. lia. Qed.

Lemma rawPad_of_u8 b : rawPad_of (u8 b) = rawPadIndex b.
Proof. destruct b; reflexivity. Qed.

Lemma rawPadIndex_range b : 0 <= rawPadIndex b <= 15.
Proof.
  pose proof (u8_range b). unfold rawPadIndex.
  split; [apply Z.div_pos; lia|].
  apply Z.lt_succ_r, Z.div_lt_upper_bound; lia.
Qed.

Lemma lor_shiftl_8 k l :
  0 <= k -> 0 <= l < 256 -> Z.lor (Z.shiftl k 8) l = k * 256 + l.
Proof.
  intros Hk Hl.
  rewrite Z.shiftl_mul_pow2 by lia.
  change (2 ^ 8) with 256.
  assert (Hdisj : Z.land (k * 2 ^ 8) l = 0).
  { apply Z.bits_inj'. intros n Hn.
    rewrite Z.land_spec, Z.bits_0.
    destruct (Z.lt_ge_cases n 8) as [Hlt|Hge].
    - rewrite Z.mul_pow2_bits_low by lia. reflexivity.
    - rewrite andb_comm.
      destruct (Z.eq_dec l 0) as [->|Hnz]; [by rewrite Z.bits_0|].
      rewrite (Z.bits_above_log2 l n); [reflexivity|lia|].
      apply Z.log2_lt_pow2; [lia|].
      apply Z.lt_le_trans with (2 ^ 8); [simpl; lia|].
      apply Z.pow_le_mono_r; lia. }
  change (2 ^ 8) with 256 in Hdisj.
  rewrite <- Z.lxor_lor by exact Hdisj.
  symmetry. apply Z.add_nocarry_lxor. exact Hdisj.
Qed.

Lemma value_of_u8 lo hi : value_of (u8 lo) (u8 hi) = magnitude lo hi.
Proof.
  unfold value_of, magnitude.
  pose proof (u8_range lo). pose proof (u8_range hi).
  change 0x0F with (Z.ones 4). rewrite Z.land_ones by lia.
  change (2 ^ 4) with 16.
  assert (0 <= u8 hi mod 16 < 16) by (apply Z.mod_pos_bound; lia).
  rewrite lor_shiftl_8 by lia.
  apply uint32_small. lia.
Qed.

Lemma magnitude_range lo hi : 0 <= magnitude lo hi <= 4095.
Proof.
  unfold magnitude.
  pose proof (u8_range lo).
  assert (0 <= u8 hi mod 16 < 16) by (apply Z.mod_pos_bound; lia).
  lia.
Qed.

(** ** Counted loops *)

Section ForEach.
Context {A X : Type} (body : A -> X -> option X).

(** A loop whose rounds all succeed under an invariant succeeds. *)
Lemma for_each_total (I : X -> Prop) l :
  (forall a x, a ∈ l -> I x -> exists x', body a x = Some x' /\ I x') ->
  forall x, I x -> exists x', for_each body l x = Some x' /\ I x'.
Proof.
  induction l as [|a l IH]; intros Hstep x Hx; simpl.
  - eauto.
  - destruct (Hstep a x) as (y & -> & Hy); [left|assumption|].
    apply IH; [|assumption].
    intros b z Hb. apply Hstep. by right.
Qed.
(** A loop whose rounds cannot fail is a left fold. *)
Lemma for_each_pure (f : X -> A -> X) l :
  (forall a x, a ∈ l -> body a x = Some (f x a)) ->
  forall x, for_each body l x = Some (foldl f x l).
Proof.
  induction l as [|a l IH]; intros Hstep x; simpl; [reflexivity|].
  rewrite Hstep by left. apply IH.
  intros b z Hb. apply Hstep. by right.
Qed.
End ForEach.

(** ** The pad decoder *)

Lemma kRawPadToLogical_lookup (raw : Z) :
  0 <= raw <= 15 ->
  exists pad, array_get kRawPadToLogical raw = Some pad /\ 0 <= pad <= 15.
Proof.
  intros H.
  assert (Hc : raw = 0 \/ raw = 1 \/ raw = 2 \/ raw = 3 \/ raw = 4 \/ raw = 5
               \/ raw = 6 \/ raw = 7 \/ raw = 8 \/ raw = 9 \/ raw = 10
               \/ raw = 11 \/ raw = 12 \/ raw = 13 \/ raw = 14 \/ raw = 15)
    by lia.
  repeat destruct Hc as [->|Hc]; try subst raw;
    (eexists; split; [reflexivity|lia]).
Qed.

(** What one round of the pad loop does to a device whose pad array has its
    16 entries, in the words of the specification. *)
Lemma padBody_spec lo hi (r : Run) :
  wf r.1 ->
  exists pad,
    array_get kRawPadToLogical (rawPadIndex hi) = Some pad /\
    0 <= pad <= 15 /\
    let value := magnitude lo hi in
    let d := set_padValues (<[Z.to_nat pad := value]> (m_padValues r.1)) r.1 in
    padBody lo hi r = Some
      (if kPadThreshold <? value then
         (set_padDown (Z.setbit (m_padDown r.1) pad) d,
          r.2 ++ [keyChanged pad (pad_ratio value) false])
       else if Z.testbit (m_padDown r.1) pad then
         (set_padDown (Z.clearbit (m_padDown r.1) pad) d,
          r.2 ++ [keyChanged pad 0%float false])
       else (d, r.2)).
Proof.
  intros Hwf.
  destruct (kRawPadToLogical_lookup (rawPadIndex hi) (rawPadIndex_range hi))
    as (pad & Hpad & Hrange).
  exists pad. split; [exact Hpad|]. split; [exact Hrange|].
  unfold padBody.
  rewrite rawPad_of_u8, value_of_u8.
  pose proof (rawPadIndex_range hi) as Hraw.
  destruct (Z.leb_spec kNumPads (rawPadIndex hi)) as [Hge|_];
    [unfold kNumPads in Hge; lia|].
  rewrite Hpad. simpl.
  unfold array_set. red in Hwf. rewrite Hwf.
  destruct (Z.leb_spec 0 pad); [|lia].
  destruct (Z.ltb_spec pad (Z.of_nat 16)); [|lia].
  simpl.
  unfold bitset_set, bitset_test, kNumPads.
  destruct (Z.leb_spec 0 pad); [|lia].
  destruct (Z.ltb_spec pad 16); [|lia].
  simpl.
  destruct (kPadThreshold <? magnitude lo hi); [reflexivity|].
  simpl. destruct (Z.testbit (m_padDown r.1) pad); reflexivity.
Qed.

(** The loop of the pad decoder runs its body on the successive pairs
    found from offset 1 on, and on nothing else. *)
Lemma padsLoop_pairs (input_ : Transfer) :
  Z.of_nat (length input_) < 2 ^ 31 ->
  forall (fuel k : nat) (r : Run),
    (length input_ - k <= fuel)%nat ->
    (k <= S (length input_))%nat ->
    padsLoop fuel input_ (Z.of_nat k) r =
    for_each padBody' (pairs (drop k input_)) r.
Proof.
  intros Hlen. induction fuel as [|fuel IH]; intros k r Hfuel Hk.
  - assert (Hdrop : drop k input_ = [] \/ exists b, drop k input_ = [b]).
    { destruct (drop k input_) as [|b [|c l]] eqn:E; eauto.
      apply (f_equal length) in E. rewrite length_drop in E. simpl in E. lia. }
    simpl. rewrite size_t_small, Transfer_size_small by lia.
    destruct (Z.ltb_spec (Z.of_nat k + 1) (Z.of_nat (length input_))); [lia|].
    destruct Hdrop as [->|[b ->]]; reflexivity.
  - cbn [padsLoop].
    rewrite size_t_small, Transfer_size_small by lia.
    destruct (Z.ltb_spec (Z.of_nat k + 1) (Z.of_nat (length input_)))
      as [Hlt|Hge].
    + destruct (lookup_lt_is_Some_2 input_ k) as [lo Hlo]; [lia|].
      destruct (lookup_lt_is_Some_2 input_ (S k)) as [hi Hhi]; [lia|].
      rewrite (drop_S _ _ _ Hlo), (drop_S _ _ _ Hhi). cbn [pairs for_each].
      unfold processPair.
      rewrite size_t_small by lia.
      rewrite !static_cast_int_small by lia.
      replace (Z.of_nat k + 1) with (Z.of_nat (S k)) by lia.
      rewrite !Transfer_at_nat, Hlo, Hhi. cbn [mbind option_bind].
      unfold padBody' at 1. cbn [fst snd].
      destruct (padBody lo hi r) as [r'|]; [|reflexivity].
      rewrite size_t_small by lia.
      replace (Z.of_nat k + 2) with (Z.of_nat (S (S k))) by lia.
      apply IH; lia.
    + assert (Hdrop : drop k input_ = [] \/ exists b, drop k input_ = [b]).
      { destruct (drop k input_) as [|b [|c l]] eqn:E; eauto.
        apply (f_equal length) in E. rewrite length_drop in E. simpl in E.
        lia. }
      destruct Hdrop as [->|[b ->]]; reflexivity.
Qed.

Lemma processPadsLikeMk1Mk2_pairs (input_ : Transfer) (r : Run) :
  Z.of_nat (length input_) < 2 ^ 31 ->
  processPadsLikeMk1Mk2 input_ r = for_each padBody' (pairs (drop 1 input_)) r.
Proof.
  intros Hlen. unfold processPadsLikeMk1Mk2.
  apply (padsLoop_pairs input_ Hlen (length input_) 1%nat); lia.
Qed.

(** One round keeps the pad array at 16 entries and always succeeds. *)
Lemma padBody_total lo hi (r : Run) :
  wf r.1 -> exists r', padBody lo hi r = Some r' /\ wf r'.1.
Proof.
  intros Hwf.
  destruct (padBody_spec lo hi r Hwf) as (pad & _ & _ & ->).
  eexists; split; [reflexivity|].
  red in Hwf. unfold wf.
  destruct (kPadThreshold <? _); [|destruct (Z.testbit _ _)]; simpl;
    by rewrite length_insert.
Qed.

Lemma padBody_frame lo hi (r r' : Run) :
  padBody lo hi r = Some r' -> buttons_part r'.1 = buttons_part r.1.
Proof.
  unfold padBody. intros H.
  repeat (case_match; simplify_option_eq); try reflexivity.
Qed.

Lemma padsLoop_frame (input_ : Transfer) fuel :
  forall i (r r' : Run),
    padsLoop fuel input_ i r = Some r' ->
    buttons_part r'.1 = buttons_part r.1.
Proof.
  induction fuel as [|fuel IH]; intros i r r'; cbn [padsLoop];
    destruct (_ <? _); try discriminate; try (by intros [= <-]).
  unfold processPair.
  destruct (Transfer_at input_ (static_cast_int i)) as [lo|];
    cbn [mbind option_bind]; [|discriminate].
  destruct (Transfer_at _ _) as [hi|]; cbn [mbind option_bind];
    [|discriminate].
  destruct (padBody lo hi r) as [r1|] eqn:E; [|discriminate].
  intros H. apply IH in H. rewrite H. eapply padBody_frame, E.
Qed.

Lemma processPadsLikeMk1Mk2_frame (input_ : Transfer) (r r' : Run) :
  processPadsLikeMk1Mk2 input_ r = Some r' ->
  buttons_part r'.1 = buttons_part r.1.
Proof. apply padsLoop_frame. Qed.

Lemma processPadsLikeMk1Mk2_total (input_ : Transfer) (r : Run) :
  Z.of_nat (length input_) < 2 ^ 31 ->
  wf r.1 ->
  exists r', processPadsLikeMk1Mk2 input_ r = Some r' /\ wf r'.1.
Proof.
  intros Hlen Hwf. rewrite processPadsLikeMk1Mk2_pairs by assumption.
  apply (for_each_total padBody' (fun r => wf r.1)); [|assumption].
  intros [lo hi] x _ Hx. by apply padBody_total.
Qed.

(** Dividing a 12-bit magnitude by 1024 is exact in binary64, and the
    quotient is above 1 exactly when the magnitude is above 1024. *)
Lemma pad_ratio_exact (m : Z) :
  0 <= m <= 4095 ->
  PrimFloat.ltb 1%float (pad_ratio m) = (1024 <? m) /\
  PrimFloat.eqb (PrimFloat.mul (pad_ratio m) 1024%float) (to_double m) = true.
Proof.
  intros Hm.
  assert (Hall : forallb pad_ratio_check (seqZ 0 4096) = true)
    by (vm_compute; reflexivity).
  rewrite forallb_forall in Hall.
  specialize (Hall m). unfold pad_ratio_check in Hall.
  rewrite andb_true_iff in Hall.
  destruct Hall as [H1 H2].
  - apply list_elem_of_In, elem_of_seqZ. lia.
  - split; [by apply eqb_prop|exact H2].
Qed.

(** C10. The pad decoder stays within its arrays.  For every byte [hi] the
    raw pad index is at most 15, so the test [rawPad >= kNumPads] never
    succeeds; the permutation table has 16 entries, all within 0..15; hence
    on a device whose pad array has its 16 entries every round of the loop
    reads the table and reads and writes [m_padValues] and [m_padDown] in
    range, and the decoder as a whole runs to its end on every report
    (of fewer than 2^31 bytes, the range in which the [int] index of the
    transfer is the offset itself). *)
Theorem pad_decoder_in_bounds (input_ : Transfer) (lo hi : byte) (r : Run) :
  wf r.1 ->
  (0 <= rawPad_of (u8 hi) <= 15 /\ (kNumPads <=? rawPad_of (u8 hi)) = false) /\
  (length kRawPadToLogical = 16%nat /\
   Forall (fun p => 0 <= p <= 15) kRawPadToLogical) /\
  (exists pad,
      array_get kRawPadToLogical (rawPad_of (u8 hi)) = Some pad /\
      0 <= pad < Z.of_nat (length (m_padValues r.1)) /\
      0 <= pad < kNumPads /\
      is_Some (array_set (m_padValues r.1) pad (value_of (u8 lo) (u8 hi))) /\
      is_Some (bitset_test kNumPads (m_padDown r.1) pad) /\
      (forall v, is_Some (bitset_set kNumPads (m_padDown r.1) pad v)) /\
      exists r', padBody lo hi r = Some r' /\ wf r'.1) /\
  (Z.of_nat (length input_) < 2 ^ 31 ->
   exists r', processPadsLikeMk1Mk2 input_ r = Some r' /\ wf r'.1).
Proof.
  intros Hwf.
  pose proof (rawPadIndex_range hi) as Hraw.
  rewrite rawPad_of_u8.
  split; [|split; [|split]].
  - split; [exact Hraw|]. apply Z.leb_gt. unfold kNumPads. lia.
  - split; [reflexivity|].
    unfold kRawPadToLogical. repeat (constructor; [lia|]). constructor.
  - destruct (kRawPadToLogical_lookup _ Hraw) as (pad & Hpad & Hrange).
    exists pad. red in Hwf. rewrite Hwf.
    split; [exact Hpad|]. split; [lia|]. split; [unfold kNumPads; lia|].
    unfold array_set, bitset_test, bitset_set, kNumPads. rewrite Hwf.
    destruct (Z.leb_spec 0 pad); [|lia].
    destruct (Z.ltb_spec pad (Z.of_nat 16)); [|lia].
    destruct (Z.ltb_spec pad 16); [|lia].
    cbn [andb]. repeat (split; [eauto|]).
    by apply padBody_total.
  - intros Hlen. by apply processPadsLikeMk1Mk2_total.
Qed.

Lemma pad_decoder_in_bounds_witness :
  exists r',
    processPadsLikeMk1Mk2 [x20; xfa; x00; x32; x10] (fresh, []) = Some r' /\
    wf r'.1.
Proof.
  apply (pad_decoder_in_bounds [x20; xfa; x00; x32; x10] xfa x00 (fresh, [])).
  - reflexivity.
  - simpl. lia.
Defined.

(** The effect of one round on the pad named by the table, case by case. *)
Lemma padBody_cases lo hi (r : Run) :
  wf r.1 ->
  exists pad r',
    array_get kRawPadToLogical (rawPadIndex hi) = Some pad /\
    0 <= pad <= 15 /\
    padBody lo hi r = Some r' /\
    m_padValues r'.1 !! Z.to_nat pad = Some (magnitude lo hi) /\
    (kPadThreshold < magnitude lo hi ->
     r'.2 = r.2 ++ [keyChanged pad (pad_ratio (magnitude lo hi)) false] /\
     Z.testbit (m_padDown r'.1) pad = true) /\
    (magnitude lo hi <= kPadThreshold ->
     Z.testbit (m_padDown r.1) pad = true ->
     r'.2 = r.2 ++ [keyChanged pad 0%float false] /\
     Z.testbit (m_padDown r'.1) pad = false) /\
    (magnitude lo hi <= kPadThreshold ->
     Z.testbit (m_padDown r.1) pad = false ->
     r'.2 = r.2 /\ Z.testbit (m_padDown r'.1) pad = false).
Proof.
  intros Hwf.
  destruct (padBody_spec lo hi r Hwf) as (pad & Hpad & Hrange & Hbody).
  cbv zeta in Hbody.
  exists pad. eexists. split; [exact Hpad|]. split; [exact Hrange|].
  split; [exact Hbody|].
  assert (Hstored :
    <[Z.to_nat pad := magnitude lo hi]> (m_padValues r.1) !! Z.to_nat pad
    = Some (magnitude lo hi)).
  { apply list_lookup_insert_eq. red in Hwf. rewrite Hwf. lia. }
  destruct (Z.ltb_spec kPadThreshold (magnitude lo hi)) as [Hgt|Hle].
  - cbn [fst snd set_padDown set_padValues m_padValues m_padDown].
    split; [exact Hstored|].
    split; [intros _; split; [reflexivity|apply Z.setbit_eq; lia]|].
    split; intros; lia.
  - destruct (Z.testbit (m_padDown r.1) pad) eqn:Hdown;
      cbn [fst snd set_padDown set_padValues m_padValues m_padDown];
      (split; [exact Hstored|]); (split; [intros; lia|]).
    + split; [|intros _ [=]].
      intros _ _. split; [reflexivity|apply Z.clearbit_eq].
    + split; [intros _ [=]|]. intros _ _. split; [reflexivity|exact Hdown].
Qed.

(** C6. Pad pairs.  The decoder runs its loop body on the successive
    (low, high) pairs found from offset 1 on, a dangling last byte being
    left out (for a report of fewer than 2^31 bytes).  For a pair (lo, hi) the raw pad index is the high nibble of
    hi and the magnitude is ((low nibble of hi) << 8) | lo, between 0 and
    4095; the magnitude is stored in [m_padValues] at the logical index the
    table gives, for every pair; an event emitted for a magnitude above the
    threshold carries magnitude / 1024.0, which is exact and not clamped
    (above 1 exactly when the magnitude is above 1024): 1024 gives 1.0 and
    4095 gives 3.9990234375. *)
Theorem pad_pair_decoding (input_ : Transfer) (lo hi : byte) (r : Run) :
  wf r.1 ->
  (Z.of_nat (length input_) < 2 ^ 31 ->
   processPadsLikeMk1Mk2 input_ r
   = for_each padBody' (pairs (drop 1 input_)) r) /\
  rawPad_of (u8 hi) = u8 hi / 16 /\
  value_of (u8 lo) (u8 hi) = (u8 hi mod 16) * 256 + u8 lo /\
  0 <= value_of (u8 lo) (u8 hi) <= 4095 /\
  (exists pad r',
      array_get kRawPadToLogical (u8 hi / 16) = Some pad /\
      padBody lo hi r = Some r' /\
      m_padValues r'.1 !! Z.to_nat pad = Some (value_of (u8 lo) (u8 hi)) /\
      (kPadThreshold < value_of (u8 lo) (u8 hi) ->
       r'.2 = r.2 ++
              [keyChanged pad (pad_ratio (value_of (u8 lo) (u8 hi))) false]))
  /\
  (PrimFloat.ltb 1%float (pad_ratio (value_of (u8 lo) (u8 hi)))
   = (1024 <? value_of (u8 lo) (u8 hi)) /\
   PrimFloat.eqb
     (PrimFloat.mul (pad_ratio (value_of (u8 lo) (u8 hi))) 1024%float)
     (to_double (value_of (u8 lo) (u8 hi))) = true) /\
  pad_ratio 1024 = 1%float /\
  pad_ratio 4095 = 3.9990234375%float.
Proof.
  intros Hwf. rewrite rawPad_of_u8, value_of_u8.
  split; [intros Hlen; by apply processPadsLikeMk1Mk2_pairs|].
  split; [reflexivity|]. split; [reflexivity|].
  split; [apply magnitude_range|].
  split.
  - destruct (padBody_cases lo hi r Hwf)
      as (pad & r' & Hpad & _ & Hbody & Hstored & Hdown & _).
    exists pad, r'. repeat split; try assumption. intros H. by apply Hdown.
  - split; [apply pad_ratio_exact, magnitude_range|]. split; reflexivity.
Qed.

Lemma pad_pair_decoding_witness :
  processPadsLikeMk1Mk2 [x20; xff; x0f; x00] (fresh, [])
  = Some (set_padValues (<[12%nat := 4095]> (m_padValues fresh))
            (set_padDown 4096 fresh),
          [keyChanged 12 3.9990234375%float false]).
Proof.
  destruct (pad_pair_decoding [x20; xff; x0f; x00] xff x0f (fresh, []))
    as [Hloop _]; [reflexivity|].
  rewrite Hloop; [reflexivity|simpl; lia].
Defined.

(** C1, as the code has it.  A pair whose magnitude is above the threshold
    200 always produces a pad-value-changed event carrying magnitude / 1024.0
    and leaves the pad marked down, whether or not the pad was marked down
    before; a pair at or below the threshold produces an event with value 0.0
    when the pad was marked down and no event otherwise; [m_padValues] is
    updated for every pair.  For one pad the magnitudes 0, 250, 250, 150, 50
    yield three events: one at each 250 and the release at 150. *)
Theorem pad_threshold_events (lo hi : byte) (r : Run) :
  wf r.1 ->
  (exists pad r',
    array_get kRawPadToLogical (rawPadIndex hi) = Some pad /\
    padBody lo hi r = Some r' /\
    m_padValues r'.1 !! Z.to_nat pad = Some (magnitude lo hi) /\
    (kPadThreshold < magnitude lo hi ->
     r'.2 = r.2 ++ [keyChanged pad (pad_ratio (magnitude lo hi)) false] /\
     Z.testbit (m_padDown r'.1) pad = true) /\
    (magnitude lo hi <= kPadThreshold ->
     Z.testbit (m_padDown r.1) pad = true ->
     r'.2 = r.2 ++ [keyChanged pad 0%float false] /\
     Z.testbit (m_padDown r'.1) pad = false) /\
    (magnitude lo hi <= kPadThreshold ->
     Z.testbit (m_padDown r.1) pad = false ->
     r'.2 = r.2 /\ Z.testbit (m_padDown r'.1) pad = false)) /\
  emitted
    [[x20; x00; x00]; [x20; xfa; x00]; [x20; xfa; x00]; [x20; x96; x00];
     [x20; x32; x00]] (fresh, [])
  = Some [keyChanged 12 (pad_ratio 250) false;
          keyChanged 12 (pad_ratio 250) false;
          keyChanged 12 0%float false].
Proof.
  intros Hwf. split.
  - destruct (padBody_cases lo hi r Hwf)
      as (pad & r' & Hpad & _ & Hbody & Hstored & Hcases).
    exists pad, r'. auto.
  - vm_compute. reflexivity.
Qed.

Lemma pad_threshold_events_witness :
  exists pad r',
    array_get kRawPadToLogical (rawPadIndex x00) = Some pad /\
    padBody xfa x00 (set_padDown 4096 fresh, []) = Some r' /\
    m_padValues r'.1 !! Z.to_nat pad = Some (magnitude xfa x00) /\
    (kPadThreshold < magnitude xfa x00 ->
     r'.2 = [] ++ [keyChanged pad (pad_ratio (magnitude xfa x00)) false] /\
     Z.testbit (m_padDown r'.1) pad = true) /\
    (magnitude xfa x00 <= kPadThreshold ->
     Z.testbit 4096 pad = true ->
     r'.2 = [] ++ [keyChanged pad 0%float false] /\
     Z.testbit (m_padDown r'.1) pad = false) /\
    (magnitude xfa x00 <= kPadThreshold ->
     Z.testbit 4096 pad = false ->
     r'.2 = [] /\ Z.testbit (m_padDown r'.1) pad = false).
Proof.
  apply (pad_threshold_events xfa x00 (set_padDown 4096 fresh, [])).
  reflexivity.
Defined.

(** C1, as the specification words it, fails: a pad that is already marked
    down (logical pad 12, after a first sample of 250) and receives 250 again
    gets a second event, so the magnitudes 0, 250, 250, 150, 50 produce three
    events and not two. *)
Lemma pad_repeated_press_counterexample :
  ~ (forall (lo hi : byte) (r r' : Run) (pad : Z),
        wf r.1 ->
        array_get kRawPadToLogical (rawPadIndex hi) = Some pad ->
        kPadThreshold < magnitude lo hi ->
        Z.testbit (m_padDown r.1) pad = true ->
        padBody lo hi r = Some r' ->
        r'.2 = r.2) /\
  (exists evs,
    emitted
      [[x20; x00; x00]; [x20; xfa; x00]; [x20; xfa; x00]; [x20; x96; x00];
       [x20; x32; x00]] (fresh, []) = Some evs /\
    length evs = 3%nat).
Proof.
  split.
  - intros H.
    specialize (H xfa x00 (set_padDown 4096 fresh, [])
                  (set_padValues (<[12%nat := 250]> (m_padValues fresh))
                     (set_padDown 4096 fresh),
                   [keyChanged 12 (pad_ratio 250) false]) 12).
    cbn [fst snd] in H.
    assert (Hfalse : [keyChanged 12 (pad_ratio 250) false] = []).
    { apply H; [reflexivity|reflexivity|reflexivity|reflexivity|].
      vm_compute. reflexivity. }
    discriminate Hfalse.
  - exists [keyChanged 12 (pad_ratio 250) false;
            keyChanged 12 (pad_ratio 250) false;
            keyChanged 12 0%float false].
    split; [vm_compute; reflexivity|reflexivity].
Qed.

(** ** The button and encoder decoder *)

Lemma builtin_popcount_u8 b : builtin_popcount (u8 b) = setBits b.
Proof. destruct b; reflexivity. Qed.

Lemma setBits_range b : 0 <= setBits b <= 8.
Proof. destruct b; vm_compute; split; discriminate. Qed.

Lemma calibrationStep_at (input_ : Transfer) i b allZero allFF ones :
  Transfer_at input_ (static_cast_int (size_t (1 + i))) = Some b ->
  calibrationStep input_ i (allZero, allFF, ones)
  = Some (allZero && (u8 b =? 0x00), allFF && (u8 b =? 0xFF),
          uint32 (ones + uint32 (setBits b))).
Proof.
  intros H. unfold calibrationStep. rewrite H. cbn [mbind option_bind].
  by rewrite builtin_popcount_u8.
Qed.

(** The accumulators of the calibration loop on a six-byte report: both
    flags and the tally range over the four bitfield bytes. *)
Lemma calibrationLoop_spec tag b1 b2 b3 b4 enc :
  calibrationLoop [tag; b1; b2; b3; b4; enc] 5
  = Some (forallb (fun b => u8 b =? 0x00) [b1; b2; b3; b4],
          forallb (fun b => u8 b =? 0xFF) [b1; b2; b3; b4],
          foldr Z.add 0 (map setBits [b1; b2; b3; b4])).
Proof.
  unfold calibrationLoop.
  change (seqZ 0 (size_t (5 - 1))) with [0; 1; 2; 3].
  cbn [for_each].
  rewrite (calibrationStep_at _ 0 b1) by reflexivity.
  rewrite (calibrationStep_at _ 1 b2) by reflexivity.
  rewrite (calibrationStep_at _ 2 b3) by reflexivity.
  rewrite (calibrationStep_at _ 3 b4) by reflexivity.
  pose proof (setBits_range b1). pose proof (setBits_range b2).
  pose proof (setBits_range b3). pose proof (setBits_range b4).
  cbn [forallb map foldr andb].
  rewrite !andb_true_r.
  rewrite (uint32_small (setBits b1)) by lia.
  rewrite (uint32_small (setBits b2)) by lia.
  rewrite (uint32_small (setBits b3)) by lia.
  rewrite (uint32_small (setBits b4)) by lia.
  rewrite (uint32_small (0 + setBits b1)) by lia.
  rewrite (uint32_small (0 + setBits b1 + setBits b2)) by lia.
  rewrite (uint32_small (0 + setBits b1 + setBits b2 + setBits b3)) by lia.
  rewrite (uint32_small (0 + setBits b1 + setBits b2 + setBits b3 + setBits b4))
    by lia.
  rewrite <- !andb_assoc.
  f_equal. f_equal. lia.
Qed.

Lemma detectPolarity_spec tag b1 b2 b3 b4 enc :
  detectPolarity [tag; b1; b2; b3; b4; enc] 5
  = Some (resolvedPolarity [b1; b2; b3; b4]).
Proof.
  unfold detectPolarity. rewrite calibrationLoop_spec.
  cbn [mbind option_bind]. unfold resolvedPolarity.
  destruct (forallb (fun b => u8 b =? 0xFF) [b1; b2; b3; b4]); [reflexivity|].
  destruct (forallb (fun b => u8 b =? 0x00) [b1; b2; b3; b4]); reflexivity.
Qed.

Lemma bitIsOne_testbit b bit :
  negb (Z.land (Z.shiftr b bit) 0x01 =? 0) = Z.testbit b bit.
Proof.
  rewrite Z.testbit_odd.
  change 0x01 with (Z.ones 1). rewrite Z.land_ones by lia.
  change (2 ^ 1) with 2. rewrite Zmod_odd.
  destruct (Z.odd _); reflexivity.
Qed.

Lemma testbit_bitset_write nd pos v m :
  0 <= pos ->
  Z.testbit (bitset_write nd pos v) m = if pos =? m then v else Z.testbit nd m.
Proof.
  intros Hpos. unfold bitset_write. destruct v.
  - rewrite Z.setbit_eqb by assumption. destruct (pos =? m); reflexivity.
  - rewrite Z.clearbit_eqb. destruct (pos =? m); simpl;
      [apply andb_false_r|apply andb_true_r].
Qed.

Lemma testbit_bitset_write_other nd pos v m :
  0 <= pos -> pos <> m ->
  Z.testbit (bitset_write nd pos v) m = Z.testbit nd m.
Proof.
  intros Hpos Hne. rewrite testbit_bitset_write by assumption.
  destruct (Z.eqb_spec pos m); [contradiction|reflexivity].
Qed.

Lemma newDownBit_at activeLow k b bit nd :
  0 <= k * 8 + bit < 32 ->
  newDownBit activeLow k (u8 b) bit nd
  = Some (bitset_write nd (k * 8 + bit) (pressedBit activeLow b bit)).
Proof.
  intros H. unfold newDownBit.
  rewrite size_t_small, uint32_small by lia.
  unfold bitset_set, kNumButtonBits.
  destruct (Z.leb_spec 0 (k * 8 + bit)); [|lia].
  destruct (Z.ltb_spec (k * 8 + bit) 32); [|lia].
  cbn [andb]. unfold pressedBit. by rewrite bitIsOne_testbit.
Qed.

Lemma newDownByte_at (input_ : Transfer) activeLow k b nd :
  0 <= k < 4 ->
  Transfer_at input_ (static_cast_int (size_t (1 + k))) = Some b ->
  newDownByte input_ activeLow k nd = Some (writeByte activeLow k b nd).
Proof.
  intros Hk Hb. unfold newDownByte. rewrite Hb. cbn [mbind option_bind].
  change (seqZ 0 8) with [0; 1; 2; 3; 4; 5; 6; 7].
  apply for_each_pure. intros bit x Hbit.
  apply newDownBit_at.
  assert (0 <= bit < 8); [|lia].
  change [0; 1; 2; 3; 4; 5; 6; 7] with (seqZ 0 8) in Hbit.
  apply elem_of_seqZ in Hbit. lia.
Qed.

(** The new "down" set of a six-byte report: bit position [i] of the set is
    the pressed state of bit [i mod 8] of bitfield byte [i / 8], and the set
    has no other bit. *)
Lemma buildNewDown_spec tag b1 b2 b3 b4 enc activeLow :
  exists newDown,
    buildNewDown [tag; b1; b2; b3; b4; enc] activeLow = Some newDown /\
    forall i,
      Z.testbit newDown i =
      if (0 <=? i) && (i <? 32)
      then framePressed activeLow [b1; b2; b3; b4] i else false.
Proof.
  eexists. split.
  - unfold buildNewDown. change (seqZ 0 4) with [0; 1; 2; 3].
    cbn [for_each].
    rewrite (newDownByte_at _ _ 0 b1) by (reflexivity || lia).
    rewrite (newDownByte_at _ _ 1 b2) by (reflexivity || lia).
    rewrite (newDownByte_at _ _ 2 b3) by (reflexivity || lia).
    rewrite (newDownByte_at _ _ 3 b4) by (reflexivity || lia).
    reflexivity.
  - intros i. unfold writeByte. cbn [foldl].
    destruct (Z.leb_spec 0 i) as [Hlo|Hlo];
      [destruct (Z.ltb_spec i 32) as [Hhi|Hhi]|]; cbn [andb].
    + assert (Hi : i = 0 \/ i = 1 \/ i = 2 \/ i = 3 \/ i = 4 \/ i = 5 \/ i = 6
                   \/ i = 7 \/ i = 8 \/ i = 9 \/ i = 10 \/ i = 11 \/ i = 12
                   \/ i = 13 \/ i = 14 \/ i = 15 \/ i = 16 \/ i = 17 \/ i = 18
                   \/ i = 19 \/ i = 20 \/ i = 21 \/ i = 22 \/ i = 23 \/ i = 24
                   \/ i = 25 \/ i = 26 \/ i = 27 \/ i = 28 \/ i = 29 \/ i = 30
                   \/ i = 31) by lia.
      clear Hlo Hhi.
      repeat destruct Hi as [->|Hi]; try subst i;
        rewrite !testbit_bitset_write by lia; reflexivity.
    + rewrite !testbit_bitset_write_other by lia.
      apply Z.bits_0.
    + apply Z.testbit_neg_r. lia.
Qed.

Lemma forall_bit_positions (P : Z -> Prop) :
  Forall P (seqZ 0 32) -> forall i, 0 <= i < 32 -> P i.
Proof.
  intros H i Hi. rewrite Forall_forall in H. apply H, elem_of_seqZ. lia.
Qed.

(** Case analysis over the 32 bit positions. *)
Ltac each_bit_position :=
  apply forall_bit_positions;
  let l := eval vm_compute in (seqZ 0 32) in
  change (seqZ 0 32) with l;
  repeat (apply List.Forall_cons); [..|apply List.Forall_nil].

(** Every bit position has its entry in the bank/bit table. *)
Lemma table_lookup i :
  0 <= i < 32 ->
  exists row mapping,
    array_get kButtonByBankBit (static_cast_int (uint32 (4 - i / 8)))
    = Some row /\
    array_get row (i mod 8) = Some mapping /\
    id mapping = buttonAt (4 - i / 8) (i mod 8).
Proof.
  revert i. each_bit_position; eexists _, _; repeat split; reflexivity.
Qed.

Lemma flat_map_ext_elem {A B} (f g : A -> list B) l :
  (forall a, a ∈ l -> f a = g a) -> flat_map f l = flat_map g l.
Proof.
  induction l as [|a l IH]; intros H; simpl; [reflexivity|].
  rewrite (H a) by left. f_equal. apply IH. intros b Hb. apply H. by right.
Qed.

(** The button events depend on the two frames through their 32 bit
    positions only. *)
Lemma buttonEvents_ext new new' old old' shift :
  (forall i, 0 <= i < 32 -> new i = new' i) ->
  (forall i, 0 <= i < 32 -> old i = old' i) ->
  buttonEvents new old shift = buttonEvents new' old' shift.
Proof.
  intros Hnew Hold. unfold buttonEvents.
  apply flat_map_ext_elem. intros i Hi. apply elem_of_seqZ in Hi.
  unfold edgeEvents. rewrite Hnew, Hold by lia. reflexivity.
Qed.

Lemma buttonEdge_at newDown shift i (r : Run) :
  0 <= i < 32 ->
  buttonEdge newDown shift i r
  = Some (r.1, r.2 ++ edgeEvents (Z.testbit newDown)
                        (Z.testbit (m_buttonDown r.1)) shift i).
Proof.
  intros Hi. unfold buttonEdge, bitset_test, kNumButtonBits.
  destruct (Z.leb_spec 0 i); [|lia].
  destruct (Z.ltb_spec i 32); [|lia].
  cbn [andb mbind option_bind]. unfold edgeEvents.
  destruct (Bool.eqb _ _).
  - rewrite app_nil_r. by destruct r.
  - destruct (table_lookup i Hi) as (row & mapping & -> & Hm & Hid).
    cbn [mbind option_bind]. rewrite Hm. cbn [mbind option_bind].
    rewrite Hid.
    destruct (Button.is_unknown _); cbn [negb].
    + rewrite app_nil_r. by destruct r.
    + reflexivity.
Qed.

(** A loop that only emits leaves the device alone and appends the events
    of its rounds in order. *)
Lemma for_each_emit {A} (body : A -> Run -> option Run)
    (f : MaschineMikroMK1 -> A -> list Event) l :
  (forall a r, a ∈ l -> body a r = Some (r.1, r.2 ++ f r.1 a)) ->
  forall r, for_each body l r = Some (r.1, r.2 ++ flat_map (f r.1) l).
Proof.
  induction l as [|a l IH]; intros Hstep r; simpl.
  - rewrite app_nil_r. by destruct r.
  - rewrite Hstep by left. rewrite IH.
    + cbn [fst snd]. by rewrite <- app_assoc.
    + intros b x Hb. apply Hstep. by right.
Qed.

Lemma buttonEdges_spec newDown shift (r : Run) :
  buttonEdges newDown shift r
  = Some (r.1, r.2 ++ buttonEvents (Z.testbit newDown)
                        (Z.testbit (m_buttonDown r.1)) shift).
Proof.
  unfold buttonEdges, buttonEvents, kNumButtonBits.
  apply (for_each_emit (buttonEdge newDown shift)
           (fun d => edgeEvents (Z.testbit newDown)
                       (Z.testbit (m_buttonDown d)) shift)).
  intros i x Hi. apply buttonEdge_at. apply elem_of_seqZ in Hi. lia.
Qed.

Lemma encoder_current enc : uint8 (Z.land (u8 enc) 0x0F) = u8 enc mod 16.
Proof.
  change 0x0F with (Z.ones 4). rewrite Z.land_ones by lia.
  change (2 ^ 4) with 16.
  assert (0 <= u8 enc mod 16 < 16) by (apply Z.mod_pos_bound; lia).
  apply uint8_small. lia.
Qed.

Lemma encoderBlock_at (input_ : Transfer) n enc shift (r : Run) :
  Transfer_at input_ (static_cast_int (size_t (1 + (n - 1)))) = Some enc ->
  encoderBlock input_ n shift r
  = Some (set_encoderValue (u8 enc mod 16)
            (set_encoderInitialized true r.1),
          r.2 ++ encoderEvents (m_encoderInitialized r.1)
                   (m_encoderValue r.1) (u8 enc mod 16) shift).
Proof.
  intros H. unfold encoderBlock. rewrite H. cbn [mbind option_bind].
  rewrite encoder_current. unfold encoderEvents.
  destruct r as [[vals down bdown pol ini val] evs].
  cbn [fst snd m_encoderInitialized m_encoderValue].
  destruct ini; cbn [negb andb].
  - destruct (Z.eqb_spec (u8 enc mod 16) val) as [->|Hne]; cbn [negb].
    + by rewrite app_nil_r.
    + reflexivity.
  - by rewrite app_nil_r.
Qed.

(** What the button decoder does with a six-byte report, in one equation:
    the polarity is resolved if it was not, the stored frame becomes the new
    frame, the encoder position becomes the low nibble of the last byte, and
    the encoder event (if any) precedes the button events. *)
Lemma processButtonsReport_spec tag b1 b2 b3 b4 enc (r : Run) :
  let activeLow :=
    if m_buttonsActiveLow r.1 <? 0 then resolvedPolarity [b1; b2; b3; b4]
    else m_buttonsActiveLow r.1 in
  let new := framePressed activeLow [b1; b2; b3; b4] in
  exists newDown,
    (forall i, Z.testbit newDown i
               = if (0 <=? i) && (i <? 32) then new i else false) /\
    processButtonsReport [tag; b1; b2; b3; b4; enc] r
    = Some (mkDevice (m_padValues r.1) (m_padDown r.1) newDown activeLow
              true (u8 enc mod 16),
            r.2 ++ encoderEvents (m_encoderInitialized r.1)
                     (m_encoderValue r.1) (u8 enc mod 16) (new 0)
                ++ buttonEvents new (Z.testbit (m_buttonDown r.1)) (new 0)).
Proof.
  intros activeLow new.
  destruct (buildNewDown_spec tag b1 b2 b3 b4 enc activeLow)
    as (newDown & Hbuild & Hbits).
  exists newDown. split; [exact Hbits|].
  unfold processButtonsReport.
  change (size_t (Transfer_size [tag; b1; b2; b3; b4; enc] - 1)) with 5.
  change (5 <? 5) with false. cbv iota.
  assert (Hpol :
    (if m_buttonsActiveLow r.1 <? 0
     then p ← detectPolarity [tag; b1; b2; b3; b4; enc] 5;
          Some (set_buttonsActiveLow p r.1, r.2)
     else Some r)
    = Some (set_buttonsActiveLow activeLow r.1, r.2)).
  { subst activeLow. destruct (m_buttonsActiveLow r.1 <? 0).
    - by rewrite detectPolarity_spec.
    - by destruct r as [[] ?]. }
  rewrite Hpol. cbn [mbind option_bind].
  cbn [fst snd set_buttonsActiveLow m_buttonsActiveLow].
  rewrite Hbuild. cbn [mbind option_bind].
  change (bitset_test kNumButtonBits newDown 0)
    with (Some (Z.testbit newDown 0)).
  cbn [mbind option_bind].
  rewrite (encoderBlock_at _ 5 enc) by reflexivity.
  cbn [mbind option_bind]. rewrite buttonEdges_spec.
  cbn [mbind option_bind fst snd set_buttonDown set_encoderValue
       set_encoderInitialized m_padValues m_padDown m_buttonDown
       m_buttonsActiveLow m_encoderInitialized m_encoderValue].
  assert (H0 : Z.testbit newDown 0 = new 0) by (rewrite Hbits; reflexivity).
  rewrite H0.
  rewrite (buttonEvents_ext (Z.testbit newDown) new
             (Z.testbit (m_buttonDown r.1)) (Z.testbit (m_buttonDown r.1))).
  - by rewrite <- app_assoc.
  - intros i Hi. rewrite Hbits.
    destruct (Z.leb_spec 0 i); [|lia]. destruct (Z.ltb_spec i 32); [|lia].
    reflexivity.
  - reflexivity.
Qed.

Lemma Transfer_at_in_range (t : Transfer) i :
  0 <= i < Z.of_nat (length t) -> exists b, Transfer_at t i = Some b.
Proof.
  intros Hi. unfold Transfer_at.
  destruct (Z.ltb_spec i 0); [lia|].
  apply lookup_lt_is_Some_2. lia.
Qed.

Lemma encoderBlock_frame (input_ : Transfer) n shift (r r' : Run) :
  encoderBlock input_ n shift r = Some r' ->
  pads_part r'.1 = pads_part r.1 /\
  m_buttonDown r'.1 = m_buttonDown r.1 /\
  m_buttonsActiveLow r'.1 = m_buttonsActiveLow r.1.
Proof.
  unfold encoderBlock.
  destruct (Transfer_at _ _) as [raw|]; cbn [mbind option_bind];
    [|discriminate].
  destruct (negb (m_encoderInitialized r.1));
    [|destruct (negb _)]; intros [= <-]; auto.
Qed.

Lemma buttonEdges_frame newDown shift (r r' : Run) :
  buttonEdges newDown shift r = Some r' -> r'.1 = r.1.
Proof. rewrite buttonEdges_spec. by intros [= <-]. Qed.

(** The button decoder leaves the pad state alone on every input, and the
    polarity too once it is resolved. *)
Lemma processButtonsReport_frame (input_ : Transfer) (r r' : Run) :
  processButtonsReport input_ r = Some r' ->
  pads_part r'.1 = pads_part r.1 /\
  (0 <= m_buttonsActiveLow r.1 ->
   m_buttonsActiveLow r'.1 = m_buttonsActiveLow r.1).
Proof.
  unfold processButtonsReport.
  destruct (_ <? 5); [by intros [= <-]|].
  set (n := size_t (Transfer_size input_ - 1)).
  match goal with
  | |- (?m ≫= _) = _ -> _ => destruct m as [r1|] eqn:E1
  end; cbn [mbind option_bind]; [|discriminate].
  assert (H1 : pads_part r1.1 = pads_part r.1 /\
               (0 <= m_buttonsActiveLow r.1 ->
                m_buttonsActiveLow r1.1 = m_buttonsActiveLow r.1)).
  { destruct (Z.ltb_spec (m_buttonsActiveLow r.1) 0).
    - destruct (detectPolarity input_ n); [|discriminate].
      cbn [mbind option_bind] in E1. injection E1 as <-.
      split; [reflexivity|lia].
    - injection E1 as <-. auto. }
  destruct (buildNewDown _ _) as [newDown|]; cbn [mbind option_bind];
    [|discriminate].
  destruct (bitset_test _ _ _) as [shift|]; cbn [mbind option_bind];
    [|discriminate].
  destruct (encoderBlock input_ n shift r1) as [r2|] eqn:E2;
    cbn [mbind option_bind]; [|discriminate].
  destruct (buttonEdges newDown shift r2) as [r3|] eqn:E3;
    cbn [mbind option_bind]; [|discriminate].
  intros [= <-].
  apply encoderBlock_frame in E2 as (Hp & _ & Ha).
  apply buttonEdges_frame in E3.
  cbn [fst]. destruct H1 as [H1 H1'].
  split.
  - rewrite <- H1, <- Hp, <- E3. reflexivity.
  - intros Hpol. rewrite <- (H1' Hpol), <- Ha, <- E3. reflexivity.
Qed.

(** The button decoder runs to its end on every non-empty report. *)
Lemma processButtonsReport_total (input_ : Transfer) (r : Run) :
  1 <= Z.of_nat (length input_) < 2 ^ 31 ->
  exists r', processButtonsReport input_ r = Some r'.
Proof.
  intros Hlen. unfold processButtonsReport.
  rewrite Transfer_size_small by lia.
  rewrite size_t_small by lia.
  destruct (Z.ltb_spec (Z.of_nat (length input_) - 1) 5) as [|Hge]; [eauto|].
  set (n := Z.of_nat (length input_) - 1).
  match goal with
  | |- exists r', (?m ≫= _) = _ => assert (Hpol : exists r1, m = Some r1)
  end.
  { destruct (_ <? 0); [|eauto].
    unfold detectPolarity, calibrationLoop.
    destruct (for_each_total (calibrationStep input_) (fun _ => True)
                (seqZ 0 (size_t (n - 1)))) with (x := (true, true, 0))
      as (acc & -> & _); [|exact I|].
    - intros i [[allZero allFF] ones] Hi _.
      rewrite size_t_small in Hi by lia. apply elem_of_seqZ in Hi.
      destruct (Transfer_at_in_range input_ (1 + i)) as [b Hb]; [lia|].
      rewrite (calibrationStep_at _ _ b); [eauto|].
      rewrite size_t_small, static_cast_int_small by lia. exact Hb.
    - cbn [mbind option_bind]. destruct acc as [[allZero allFF] ones].
      destruct allFF; [|destruct allZero]; cbn [mbind option_bind]; eauto. }
  destruct Hpol as [r1 ->]. cbn [mbind option_bind].
  destruct (for_each_total (newDownByte input_ (m_buttonsActiveLow r1.1))
              (fun _ => True) (seqZ 0 4)) with (x := 0)
    as (newDown & Hbuild & _); [|exact I|].
  { intros k nd Hk _. apply elem_of_seqZ in Hk.
    destruct (Transfer_at_in_range input_ (1 + k)) as [b Hb]; [lia|].
    rewrite (newDownByte_at _ _ _ b); [eauto|lia|].
    rewrite size_t_small, static_cast_int_small by lia. exact Hb. }
  unfold buildNewDown. rewrite Hbuild. cbn [mbind option_bind].
  change (bitset_test kNumButtonBits newDown 0)
    with (Some (Z.testbit newDown 0)).
  cbn [mbind option_bind].
  destruct (Transfer_at_in_range input_ (1 + (n - 1))) as [enc Henc];
    [lia|].
  rewrite (encoderBlock_at _ _ enc).
  - cbn [mbind option_bind]. rewrite buttonEdges_spec.
    cbn [mbind option_bind]. eauto.
  - rewrite size_t_small, static_cast_int_small by lia. exact Henc.
Qed.

(** C9. The two decoders work on disjoint parts of the device.  On every
    input the button and encoder decoder leaves [m_padValues] and [m_padDown]
    as they were, and the pad decoder leaves [m_buttonDown],
    [m_buttonsActiveLow], [m_encoderInitialized] and [m_encoderValue] as they
    were; and both decoders do run to their end on reports of fewer than
    2^31 bytes (the button decoder on every non-empty one, the pad decoder on
    every one when the pad array has its 16 entries). *)
Theorem decoders_touch_disjoint_state (input_ : Transfer) (r : Run) :
  (forall r', processButtonsReport input_ r = Some r' ->
              m_padValues r'.1 = m_padValues r.1 /\
              m_padDown r'.1 = m_padDown r.1) /\
  (forall r', processPadsLikeMk1Mk2 input_ r = Some r' ->
              m_buttonDown r'.1 = m_buttonDown r.1 /\
              m_buttonsActiveLow r'.1 = m_buttonsActiveLow r.1 /\
              m_encoderInitialized r'.1 = m_encoderInitialized r.1 /\
              m_encoderValue r'.1 = m_encoderValue r.1) /\
  (1 <= Z.of_nat (length input_) < 2 ^ 31 ->
   exists r', processButtonsReport input_ r = Some r') /\
  (Z.of_nat (length input_) < 2 ^ 31 -> wf r.1 ->
   exists r', processPadsLikeMk1Mk2 input_ r = Some r').
Proof.
  split; [|split; [|split]].
  - intros r' H. apply processButtonsReport_frame in H as [H _].
    unfold pads_part in H. by injection H.
  - intros r' H. apply processPadsLikeMk1Mk2_frame in H.
    unfold buttons_part in H. by injection H.
  - apply processButtonsReport_total.
  - intros Hlen Hwf.
    destruct (processPadsLikeMk1Mk2_total input_ r Hlen Hwf) as (r' & H & _).
    eauto.
Qed.

Lemma decoders_touch_disjoint_state_witness :
  (exists r',
      processButtonsReport [x01; xff; xff; xfe; xff; x06] (fresh, [])
      = Some r' /\
      m_padValues r'.1 = m_padValues fresh /\ m_padDown r'.1 = m_padDown fresh)
  /\
  (exists r',
      processPadsLikeMk1Mk2 [x20; xfa; x00] (fresh, []) = Some r' /\
      m_buttonDown r'.1 = m_buttonDown fresh /\
      m_buttonsActiveLow r'.1 = m_buttonsActiveLow fresh /\
      m_encoderInitialized r'.1 = m_encoderInitialized fresh /\
      m_encoderValue r'.1 = m_encoderValue fresh).
Proof.
  split.
  - destruct (decoders_touch_disjoint_state
                [x01; xff; xff; xfe; xff; x06] (fresh, []))
      as (Hframe & _ & Htotal & _).
    destruct Htotal as [r' Hr']; [simpl; lia|].
    exists r'. split; [exact Hr'|]. apply Hframe, Hr'.
  - destruct (decoders_touch_disjoint_state [x20; xfa; x00] (fresh, []))
      as (_ & Hframe & _ & Htotal).
    destruct Htotal as [r' Hr']; [simpl; lia|reflexivity|].
    exists r'. split; [exact Hr'|]. apply Hframe, Hr'.
Defined.

(** ** The report classifier *)

Lemma byte_is_head b0 (rest : Transfer) v :
  byte_is (b0 :: rest) 0 v = Some (u8 b0 =? v).
Proof. reflexivity. Qed.

(** C4. The classifier, on reports whose length fits [size_t].  An empty
    report is left alone and the read reports success; a report of length 6
    whose first byte is 0x01 goes to the button
    and encoder decoder; a report of length at least 2 whose first byte is
    0x20 goes to the pad decoder; a report of odd length at least 33 goes to
    the pad decoder; every other report (such as 99 00 00) is dropped: no
    event, no change of the device, no failure. *)
Theorem report_classification (b0 : byte) (rest : Transfer) (r : Run) :
  let input_ := b0 :: rest in
  let n := Z.of_nat (length input_) in
  n < 2 ^ 64 ->
  (processReport [] r = Some r /\ read (Some []) r = Some (true, r)) /\
  (n = 6 /\ u8 b0 = 0x01 ->
   processReport input_ r = processButtonsReport input_ r) /\
  (2 <= n /\ u8 b0 = 0x20 ->
   processReport input_ r = processPadsLikeMk1Mk2 input_ r) /\
  (33 <= n /\ n mod 2 = 1 ->
   processReport input_ r = processPadsLikeMk1Mk2 input_ r) /\
  (~ (n = 6 /\ u8 b0 = 0x01) -> ~ (2 <= n /\ u8 b0 = 0x20) ->
   ~ (33 <= n /\ n mod 2 = 1) ->
   processReport input_ r = Some r) /\
  processReport [x99; x00; x00] r = Some r.
Proof.
  intros input_ n Hn. subst input_.
  assert (Hsize : Transfer_size (b0 :: rest) = n)
    by (apply Transfer_size_small; exact Hn).
  assert (Hrep : processReport (b0 :: rest) r =
    if (n =? 6) && (u8 b0 =? 0x01)
    then processButtonsReport (b0 :: rest) r
    else if (2 <=? n) && (u8 b0 =? 0x20)
    then processPadsLikeMk1Mk2 (b0 :: rest) r
    else if (33 <=? n) && (n mod 2 =? 1)
    then processPadsLikeMk1Mk2 (b0 :: rest) r
    else Some r).
  { unfold processReport. cbn [Transfer_bool negb].
    rewrite Hsize, !byte_is_head.
    destruct (n =? 6), (2 <=? n), (u8 b0 =? 0x01), (u8 b0 =? 0x20);
      reflexivity. }
  split; [split; reflexivity|].
  split; [|split; [|split; [|split]]].
  - intros [H6 H1]. rewrite Hrep.
    apply Z.eqb_eq in H6, H1. by rewrite H6, H1.
  - intros [H2 H20]. rewrite Hrep.
    destruct (Z.eqb_spec (u8 b0) 0x01) as [E|_]; [lia|].
    rewrite andb_false_r.
    apply Z.leb_le in H2. apply Z.eqb_eq in H20. by rewrite H2, H20.
  - intros [H33 Hodd]. rewrite Hrep.
    destruct (Z.eqb_spec n 6) as [E|_];
      [rewrite E in Hodd; discriminate Hodd|].
    cbn [andb].
    destruct ((2 <=? n) && (u8 b0 =? 0x20)); [reflexivity|].
    apply Z.leb_le in H33. apply Z.eqb_eq in Hodd. by rewrite H33, Hodd.
  - intros N1 N2 N3. rewrite Hrep.
    destruct (Z.eqb_spec n 6), (Z.eqb_spec (u8 b0) 0x01); cbn [andb];
      try (exfalso; apply N1; split; assumption);
      (destruct (Z.leb_spec 2 n), (Z.eqb_spec (u8 b0) 0x20); cbn [andb];
       try (exfalso; apply N2; split; assumption);
       (destruct (Z.leb_spec 33 n), (Z.eqb_spec (n mod 2) 1); cbn [andb];
        try (exfalso; apply N3; split; assumption); reflexivity)).
  - reflexivity.
Qed.

Lemma report_classification_witness :
  processReport [x20; xfa; x00] (fresh, [])
  = processPadsLikeMk1Mk2 [x20; xfa; x00] (fresh, []) /\
  processReport [x01; xff; xff; xff; xff; x05] (fresh, [])
  = processButtonsReport [x01; xff; xff; xff; xff; x05] (fresh, []) /\
  processReport [x07; x00] (fresh, []) = Some (fresh, []).
Proof.
  split; [|split].
  - destruct (report_classification x20 [xfa; x00] (fresh, []))
      as (_ & _ & H & _); [reflexivity|].
    apply H. split; [simpl; lia|reflexivity].
  - destruct (report_classification x01 [xff; xff; xff; xff; x05]
                (fresh, [])) as (_ & H & _); [reflexivity|].
    apply H. split; reflexivity.
  - destruct (report_classification x07 [x00] (fresh, []))
      as (_ & _ & _ & _ & H & _); [reflexivity|].
    apply H; intros [H1 H2]; vm_compute in H1, H2;
      first [discriminate H2 | contradiction H1; reflexivity | discriminate H1].
Defined.

Lemma processReport_cases (input_ : Transfer) (r : Run) :
  processReport input_ r = Some r \/
  (Transfer_size input_ = 6 /\
   processReport input_ r = processButtonsReport input_ r) \/
  processReport input_ r = processPadsLikeMk1Mk2 input_ r.
Proof.
  destruct input_ as [|b0 rest]; [left; reflexivity|].
  unfold processReport. cbn [Transfer_bool negb].
  rewrite !byte_is_head.
  destruct (Z.eqb_spec (Transfer_size (b0 :: rest)) 6) as [E|_].
  - cbn [mbind option_bind].
    destruct (u8 b0 =? 0x01); [right; left; auto|].
    destruct (2 <=? _); cbn [mbind option_bind];
      [destruct (u8 b0 =? 0x20); [right; right; reflexivity|]|];
      (destruct (_ && _); [right; right; reflexivity|left; reflexivity]).
  - cbn [mbind option_bind].
    destruct (2 <=? _); cbn [mbind option_bind];
      [destruct (u8 b0 =? 0x20); [right; right; reflexivity|]|];
      (destruct (_ && _); [right; right; reflexivity|left; reflexivity]).
Qed.

Lemma padsLoop_wf (input_ : Transfer) fuel :
  forall i (r r' : Run),
    wf r.1 -> padsLoop fuel input_ i r = Some r' -> wf r'.1.
Proof.
  induction fuel as [|fuel IH]; intros i r r' Hwf; cbn [padsLoop];
    destruct (_ <? _); try discriminate; try (by intros [= <-]).
  unfold processPair.
  destruct (Transfer_at input_ (static_cast_int i)) as [lo|];
    cbn [mbind option_bind]; [|discriminate].
  destruct (Transfer_at _ _) as [hi|]; cbn [mbind option_bind];
    [|discriminate].
  destruct (padBody_total lo hi r Hwf) as (r1 & -> & Hwf1).
  apply IH, Hwf1.
Qed.

(** Decoding a report keeps the pad array at its 16 entries. *)
Lemma processReport_wf (input_ : Transfer) (r r' : Run) :
  wf r.1 -> processReport input_ r = Some r' -> wf r'.1.
Proof.
  intros Hwf.
  destruct (processReport_cases input_ r) as [-> | [[_ ->] | ->]].
  - by intros [= <-].
  - intros H. apply processButtonsReport_frame in H as [H _].
    unfold pads_part in H. injection H as Hv _. unfold wf. by rewrite Hv.
  - by apply padsLoop_wf.
Qed.

(** Decoding a report never fails on a device whose pad array has its 16
    entries. *)
Lemma processReport_total (input_ : Transfer) (r : Run) :
  Z.of_nat (length input_) < 2 ^ 31 -> wf r.1 ->
  exists r', processReport input_ r = Some r'.
Proof.
  intros Hlen Hwf.
  destruct (processReport_cases input_ r) as [-> | [[Hsize ->] | ->]].
  - eauto.
  - rewrite Transfer_size_small in Hsize by lia.
    apply processButtonsReport_total. lia.
  - destruct (processPadsLikeMk1Mk2_total input_ r Hlen Hwf) as (r' & H & _).
    eauto.
Qed.

(** C8. Once the polarity is resolved, no report of any shape or content
    changes it: whatever report is decoded, [m_buttonsActiveLow] comes out as
    it went in (and a report of fewer than 2^31 bytes is decoded without
    failure when the pad array has its 16 entries); [init] puts the polarity
    back to unknown. *)
Theorem polarity_fixed_once_resolved (input_ : Transfer) (r : Run) :
  0 <= m_buttonsActiveLow r.1 ->
  polarity r.1 <> PolarityUnknown /\
  (forall r', processReport input_ r = Some r' ->
              m_buttonsActiveLow r'.1 = m_buttonsActiveLow r.1 /\
              polarity r'.1 = polarity r.1) /\
  (Z.of_nat (length input_) < 2 ^ 31 -> wf r.1 ->
   exists r', processReport input_ r = Some r') /\
  polarity (init r.1) = PolarityUnknown.
Proof.
  intros Hres.
  assert (Hframe : forall r', processReport input_ r = Some r' ->
                              m_buttonsActiveLow r'.1 = m_buttonsActiveLow r.1).
  { intros r'.
    destruct (processReport_cases input_ r) as [-> | [[_ ->] | ->]].
    - by intros [= <-].
    - intros H. apply processButtonsReport_frame in H as [_ H]. by apply H.
    - intros H. apply processPadsLikeMk1Mk2_frame in H.
      unfold buttons_part in H. by injection H. }
  split; [|split; [|split]].
  - unfold polarity. destruct (Z.ltb_spec (m_buttonsActiveLow r.1) 0); [lia|].
    destruct (0 <? _); discriminate.
  - intros r' H. apply Hframe in H. unfold polarity. by rewrite H.
  - apply processReport_total.
  - reflexivity.
Qed.

Lemma polarity_fixed_once_resolved_witness :
  exists r',
    processReport [x01; x00; x00; x00; x00; x05]
      (set_buttonsActiveLow 1 fresh, []) = Some r' /\
    polarity r'.1 = ActiveLow.
Proof.
  destruct (polarity_fixed_once_resolved [x01; x00; x00; x00; x00; x05]
              (set_buttonsActiveLow 1 fresh, []))
    as (_ & Hframe & Htotal & _); [simpl; lia|].
  destruct Htotal as [r' Hr']; [simpl; lia|reflexivity|].
  exists r'. split; [exact Hr'|].
  destruct (Hframe r' Hr') as [_ ->]. reflexivity.
Defined.

(** ** Events of a buttons report *)

Lemma filter_encoder_encoderEvents ini p c shift :
  List.filter is_encoder_event (encoderEvents ini p c shift)
  = encoderEvents ini p c shift.
Proof. unfold encoderEvents. destruct (_ && _); reflexivity. Qed.

Lemma filter_button_encoderEvents ini p c shift :
  List.filter is_button_event (encoderEvents ini p c shift) = [].
Proof. unfold encoderEvents. destruct (_ && _); reflexivity. Qed.

Lemma filter_buttonEvents new old shift :
  List.filter is_button_event (buttonEvents new old shift)
  = buttonEvents new old shift /\
  List.filter is_encoder_event (buttonEvents new old shift) = [].
Proof.
  unfold buttonEvents. induction (seqZ 0 32) as [|i l [IH1 IH2]];
    [split; reflexivity|].
  cbn [flat_map]. rewrite !List.filter_app, IH1, IH2.
  unfold edgeEvents.
  destruct (Bool.eqb _ _); [split; reflexivity|].
  cbv zeta. destruct (Button.is_unknown _); split; reflexivity.
Qed.

Lemma encoderIncreased_iff p c :
  encoderIncreased p c = true <->
  (p < c \/ (p = 15 /\ c = 0)) /\ ~ (p = 0 /\ c = 15).
Proof.
  unfold encoderIncreased.
  rewrite andb_true_iff, orb_true_iff, negb_true_iff, andb_true_iff,
    andb_false_iff, Z.ltb_lt, !Z.eqb_eq, !Z.eqb_neq.
  change 0x0F with 15. change 0x00 with 0. lia.
Qed.

Lemma flat_map_nil {A B} (f : A -> list B) (l : list A) :
  (forall x, x ∈ l -> f x = []) -> flat_map f l = [].
Proof.
  induction l as [|x l IH]; intros Hf; [reflexivity|].
  cbn [flat_map]. rewrite (Hf x) by left. apply IH.
  intros y Hy. apply Hf. by right.
Qed.

Lemma flat_map_only {A B} (f : A -> list B) (l : list A) (a : A) :
  NoDup l -> a ∈ l ->
  (forall x, x ∈ l -> x <> a -> f x = []) ->
  flat_map f l = f a.
Proof.
  induction l as [|x l IH]; intros Hnd Ha Hf; [by apply elem_of_nil in Ha|].
  apply NoDup_cons in Hnd as [Hx Hnd]. cbn [flat_map].
  apply elem_of_cons in Ha as [->|Ha].
  - rewrite (flat_map_nil f l); [apply app_nil_r|].
    intros y Hy. apply Hf; [by right|]. intros ->. contradiction.
  - rewrite (Hf x); [|by left|by intros ->]. cbn [app].
    apply IH; [assumption|assumption|].
    intros y Hy. apply Hf. by right.
Qed.

(** C3. The encoder.  On a buttons report the current position is the low
    4 bits of the last byte.  While the encoder is not initialised the
    report only stores the position as baseline: no encoder event.  Once it
    is, a report whose position [c] differs from the stored [p] emits exactly
    one encoder event, whose direction is "increased" exactly when
    [(p < c \/ (p = 15 /\ c = 0)) /\ ~ (p = 0 /\ c = 15)], and a report with
    the same position emits none; in every case the stored position becomes
    [c].  So 0xF -> 0x0 is increased, 0x0 -> 0xF is not, 14 -> 15 -> 0 -> 1
    gives three increased events and 1 -> 0 -> 15 -> 14 three that are not. *)
Theorem encoder_tracking (tag b1 b2 b3 b4 enc : byte) (r : Run) :
  let c := u8 enc mod 16 in
  let p := m_encoderValue r.1 in
  let activeLow :=
    if m_buttonsActiveLow r.1 <? 0 then resolvedPolarity [b1; b2; b3; b4]
    else m_buttonsActiveLow r.1 in
  let shift := framePressed activeLow [b1; b2; b3; b4] 0 in
  c = Z.land (u8 enc) 0x0F /\
  (exists r' evs,
      processButtonsReport [tag; b1; b2; b3; b4; enc] r = Some r' /\
      r'.2 = r.2 ++ evs /\
      m_encoderInitialized r'.1 = true /\
      m_encoderValue r'.1 = c /\
      List.filter is_encoder_event evs =
        if m_encoderInitialized r.1 then
          if c =? p then []
          else [encoderChanged 0 (encoderIncreased p c) shift]
        else []) /\
  (forall p c : Z,
      encoderIncreased p c = true <->
      (p < c \/ (p = 15 /\ c = 0)) /\ ~ (p = 0 /\ c = 15)) /\
  encoderIncreased 0xF 0x0 = true /\
  encoderIncreased 0x0 0xF = false /\
  emitted
    [[x01; x00; x00; x00; x00; x0e]; [x01; x00; x00; x00; x00; x0f];
     [x01; x00; x00; x00; x00; x00]; [x01; x00; x00; x00; x00; x01]]
    (fresh, [])
  = Some [encoderChanged 0 true false; encoderChanged 0 true false;
          encoderChanged 0 true false] /\
  emitted
    [[x01; x00; x00; x00; x00; x01]; [x01; x00; x00; x00; x00; x00];
     [x01; x00; x00; x00; x00; x0f]; [x01; x00; x00; x00; x00; x0e]]
    (fresh, [])
  = Some [encoderChanged 0 false false; encoderChanged 0 false false;
          encoderChanged 0 false false].
Proof.
  intros c p activeLow shift.
  split.
  { subst c. change 0x0F with (Z.ones 4). by rewrite Z.land_ones by lia. }
  split.
  { destruct (processButtonsReport_spec tag b1 b2 b3 b4 enc r)
      as (newDown & _ & Hrun).
    eexists _, _. split; [exact Hrun|].
    cbn [fst snd m_encoderInitialized m_encoderValue].
    split; [reflexivity|]. split; [reflexivity|]. split; [reflexivity|].
    rewrite List.filter_app, filter_encoder_encoderEvents.
    rewrite (proj2 (filter_buttonEvents _ _ _)), app_nil_r.
    unfold encoderEvents. fold c p activeLow. fold shift.
    destruct (m_encoderInitialized r.1); [|reflexivity].
    cbn [andb]. destruct (c =? p); reflexivity. }
  split; [apply encoderIncreased_iff|].
  split; [reflexivity|]. split; [reflexivity|].
  split; vm_compute; reflexivity.
Qed.

(** C5. Button edges.  With the polarity already fixed, a buttons report
    emits, in ascending bit position, one button-changed event for every bit
    position whose pressed state differs from the stored one and whose
    bank/bit entry (bank 4 - position / 8, bit position mod 8) is not
    [Unknown], and none for the other positions; the event carries the new
    pressed state and, as shift flag, the new state of bit position 0.
    Afterwards the stored frame is the new frame in full.  In particular a
    report that differs from the stored frame at one position only emits the
    one event of that position (none when its entry is [Unknown]). *)
Theorem button_edge_events (tag b1 b2 b3 b4 enc : byte) (r : Run) :
  0 <= m_buttonsActiveLow r.1 ->
  let new := framePressed (m_buttonsActiveLow r.1) [b1; b2; b3; b4] in
  let old := Z.testbit (m_buttonDown r.1) in
  exists r' evs,
    processButtonsReport [tag; b1; b2; b3; b4; enc] r = Some r' /\
    r'.2 = r.2 ++ evs /\
    List.filter is_button_event evs
    = flat_map
        (fun i =>
           if Bool.eqb (new i) (old i) then []
           else
             let button := buttonAt (4 - i / 8) (i mod 8) in
             if Button.is_unknown button then []
             else [buttonChanged button (new i) (new 0)])
        (seqZ 0 32) /\
    (forall i, Z.testbit (m_buttonDown r'.1) i
               = if (0 <=? i) && (i <? 32) then new i else false) /\
    (forall i,
        0 <= i < 32 ->
        new i <> old i ->
        (forall j, 0 <= j < 32 -> j <> i -> new j = old j) ->
        List.filter is_button_event evs
        = let button := buttonAt (4 - i / 8) (i mod 8) in
          if Button.is_unknown button then []
          else [buttonChanged button (new i) (new 0)]).
Proof.
  intros Hres new old.
  destruct (processButtonsReport_spec tag b1 b2 b3 b4 enc r)
    as (newDown & Hbits & Hrun).
  cbv zeta in Hbits, Hrun.
  destruct (Z.ltb_spec (m_buttonsActiveLow r.1) 0) as [|_]; [lia|].
  fold new in Hbits, Hrun. fold old in Hrun.
  eexists _, _. split; [exact Hrun|].
  cbn [fst snd m_buttonDown].
  split; [reflexivity|].
  assert (Hfilter :
    List.filter is_button_event
      (encoderEvents (m_encoderInitialized r.1) (m_encoderValue r.1)
         (u8 enc mod 16) (new 0) ++ buttonEvents new old (new 0))
    = buttonEvents new old (new 0)).
  { rewrite List.filter_app, filter_button_encoderEvents.
    apply filter_buttonEvents. }
  split; [exact Hfilter|]. split; [exact Hbits|].
  intros i Hi Hchanged Hothers. rewrite Hfilter.
  unfold buttonEvents.
  rewrite (flat_map_only _ _ i).
  - unfold edgeEvents.
    destruct (Bool.eqb (new i) (old i)) eqn:E; [|reflexivity].
    apply eqb_prop in E. contradiction.
  - apply NoDup_seqZ.
  - apply elem_of_seqZ. lia.
  - intros j Hj Hne. apply elem_of_seqZ in Hj. unfold edgeEvents.
    rewrite Hothers by (assumption || lia).
    by rewrite eqb_reflx.
Qed.

Lemma button_edge_events_witness :
  exists r' evs,
    processButtonsReport [x01; xff; xff; xfe; xff; x05]
      (set_buttonsActiveLow 1 fresh, []) = Some r' /\
    r'.2 = [] ++ evs /\
    List.filter is_button_event evs = [buttonChanged Button.Enter true false].
Proof.
  destruct (button_edge_events x01 xff xff xfe xff x05
              (set_buttonsActiveLow 1 fresh, []))
    as (r' & evs & Hrun & Hevs & _ & _ & Hone); [simpl; lia|].
  exists r', evs. split; [exact Hrun|]. split; [exact Hevs|].
  rewrite (Hone 16); [reflexivity|lia|discriminate|].
  clear.
  apply (forall_bit_positions
           (fun j => j <> 16 ->
              framePressed 1 [xff; xff; xfe; xff] j = Z.testbit 0 j)).
  repeat (apply List.Forall_cons;
          [intros Hne; (reflexivity || (exfalso; by apply Hne))|]).
  apply List.Forall_nil.
Defined.

(** C7. Polarity calibration.  On a buttons report that arrives while the
    polarity is unknown, the examined bytes are the payload bytes but the
    last (the four bitfield bytes); the polarity is resolved to active-low
    when they are all 0xFF, else to active-high when they are all 0x00, else
    to active-low exactly when their set bits number more than half of their
    bits, and to active-high otherwise. *)
Theorem polarity_calibration (tag b1 b2 b3 b4 enc : byte) (r : Run) :
  m_buttonsActiveLow r.1 < 0 ->
  let payload := tail [tag; b1; b2; b3; b4; enc] in
  let examined := removelast payload in
  let ones := foldr Z.add 0 (map setBits examined) in
  let totalBits := 8 * Z.of_nat (length examined) in
  examined = [b1; b2; b3; b4] /\
  polarity r.1 = PolarityUnknown /\
  exists r',
    processButtonsReport [tag; b1; b2; b3; b4; enc] r = Some r' /\
    polarity r'.1 =
      if forallb (fun b => u8 b =? 0xFF) examined then ActiveLow
      else if forallb (fun b => u8 b =? 0x00) examined then ActiveHigh
      else if totalBits / 2 <? ones then ActiveLow
      else ActiveHigh.
Proof.
  intros Hunknown payload examined ones totalBits.
  split; [reflexivity|].
  split.
  { unfold polarity. destruct (Z.ltb_spec (m_buttonsActiveLow r.1) 0);
      [reflexivity|lia]. }
  destruct (processButtonsReport_spec tag b1 b2 b3 b4 enc r)
    as (newDown & _ & Hrun).
  cbv zeta in Hrun.
  destruct (Z.ltb_spec (m_buttonsActiveLow r.1) 0) as [_|]; [|lia].
  eexists. split; [exact Hrun|].
  cbn [fst]. unfold polarity. cbn [m_buttonsActiveLow].
  unfold resolvedPolarity.
  change [b1; b2; b3; b4] with examined. fold ones. fold totalBits.
  destruct (forallb (fun b => u8 b =? 0xFF) examined); [reflexivity|].
  destruct (forallb (fun b => u8 b =? 0x00) examined); [reflexivity|].
  destruct (totalBits / 2 <? ones); reflexivity.
Qed.

Lemma polarity_calibration_witness :
  exists r',
    processButtonsReport [x01; xff; xff; xff; xff; x05] (fresh, []) = Some r' /\
    polarity r'.1 = ActiveLow.
Proof.
  destruct (polarity_calibration x01 xff xff xff xff x05 (fresh, []))
    as (_ & _ & r' & Hrun & Hpol); [reflexivity|].
  exists r'. split; [exact Hrun|]. rewrite Hpol. reflexivity.
Defined.

(** ** Which bytes the calibration looks at *)

Lemma setBits_all_ones b :
  (u8 b =? 0xFF) = true -> setBits b = 8 /\ (u8 b =? 0x00) = false.
Proof.
  destruct b; vm_compute; intros H; first [discriminate H | split; reflexivity].
Qed.

Lemma setBits_all_zeros b : (u8 b =? 0x00) = true -> setBits b = 0.
Proof.
  destruct b; vm_compute; intros H; first [discriminate H | reflexivity].
Qed.

(** Looking at the fourth bitfield byte in the two "all identical" checks
    never changes the verdict: when the first three are all 0xFF (all 0x00)
    the majority rule agrees with the shortcut whatever the fourth is. *)
Lemma resolvedPolarity_three_byte_checks b1 b2 b3 b4 :
  resolvedPolarity [b1; b2; b3; b4]
  = if forallb (fun b => u8 b =? 0xFF) [b1; b2; b3] then 1
    else if forallb (fun b => u8 b =? 0x00) [b1; b2; b3] then 0
    else if 16 <? foldr Z.add 0 (map setBits [b1; b2; b3; b4]) then 1
    else 0.
Proof.
  unfold resolvedPolarity. cbn [forallb map foldr length].
  change (8 * Z.of_nat 4 / 2) with 16.
  rewrite !andb_true_r.
  pose proof (setBits_range b4) as H4.
  destruct (u8 b1 =? 0xFF) eqn:F1; cbn [andb].
  - apply setBits_all_ones in F1 as [S1 ->]. cbn [andb].
    destruct (u8 b2 =? 0xFF) eqn:F2; cbn [andb]; [|reflexivity].
    apply setBits_all_ones in F2 as [S2 _].
    destruct (u8 b3 =? 0xFF) eqn:F3; cbn [andb]; [|reflexivity].
    apply setBits_all_ones in F3 as [S3 _].
    destruct (u8 b4 =? 0xFF); [reflexivity|].
    rewrite S1, S2, S3.
    destruct (Z.ltb_spec 16 (8 + (8 + (8 + (setBits b4 + 0))))); [reflexivity|lia].
  - destruct (u8 b1 =? 0x00) eqn:Z1; cbn [andb]; [|reflexivity].
    destruct (u8 b2 =? 0x00) eqn:Z2; cbn [andb]; [|reflexivity].
    destruct (u8 b3 =? 0x00) eqn:Z3; cbn [andb]; [|reflexivity].
    destruct (u8 b4 =? 0x00); [reflexivity|].
    apply setBits_all_zeros in Z1, Z2, Z3. rewrite Z1, Z2, Z3.
    destruct (Z.ltb_spec 16 (0 + (0 + (0 + (setBits b4 + 0))))); [lia|reflexivity].
Qed.

(** C2, as the code has it.  On a six-byte buttons report the calibration
    loop runs over report bytes 1..4: the all-0x00 check, the all-0xFF check
    and the tally of set bits all range over the same four bitfield bytes,
    and none of them looks at the encoder byte.  (The polarity that results
    is nevertheless the one that checks over bytes 1..3 would give.) *)
Theorem calibration_examines_four_bitfields (tag b1 b2 b3 b4 enc : byte) :
  calibrationLoop [tag; b1; b2; b3; b4; enc] 5
  = Some (forallb (fun b => u8 b =? 0x00) [b1; b2; b3; b4],
          forallb (fun b => u8 b =? 0xFF) [b1; b2; b3; b4],
          foldr Z.add 0 (map setBits [b1; b2; b3; b4])) /\
  detectPolarity [tag; b1; b2; b3; b4; enc] 5
  = Some (if forallb (fun b => u8 b =? 0xFF) [b1; b2; b3] then 1
          else if forallb (fun b => u8 b =? 0x00) [b1; b2; b3] then 0
          else if 16 <? foldr Z.add 0 (map setBits [b1; b2; b3; b4]) then 1
          else 0).
Proof.
  split; [apply calibrationLoop_spec|].
  rewrite detectPolarity_spec. f_equal.
  apply resolvedPolarity_three_byte_checks.
Qed.

(** C2, as the specification words it, fails: in the report
    01 FF FF FF 00 05 the bytes 1..3 are all 0xFF, yet the all-0xFF flag of
    the loop comes out false, because byte 4 is examined too. *)
Lemma calibration_three_byte_checks_counterexample :
  ~ (forall tag b1 b2 b3 b4 enc : byte,
        calibrationLoop [tag; b1; b2; b3; b4; enc] 5
        = Some (forallb (fun b => u8 b =? 0x00) [b1; b2; b3],
                forallb (fun b => u8 b =? 0xFF) [b1; b2; b3],
                foldr Z.add 0 (map setBits [b1; b2; b3; b4]))) /\
  forallb (fun b => u8 b =? 0xFF) [xff; xff; xff] = true /\
  calibrationLoop [x01; xff; xff; xff; x00; x05] 5 = Some (false, false, 24).
Proof.
  split; [|split; reflexivity].
  intros H. specialize (H x01 xff xff xff x00 x05).
  vm_compute in H. discriminate H.
Qed.

(** * Further properties of the decoder *)

(** ** Bitsets as bounded integers *)

Lemma bits_range N z :
  0 <= N -> (forall i, N <= i -> Z.testbit z i = false) -> 0 <= z < 2 ^ N.
Proof.
  intros HN Hbits.
  assert (Hmod : z = z mod 2 ^ N).
  { rewrite <- Z.land_ones by lia. apply Z.bits_inj'. intros n Hn.
    rewrite Z.land_spec, Z.testbit_ones_nonneg by lia.
    destruct (Z.ltb_spec n N).
    - by rewrite andb_true_r.
    - rewrite Hbits by lia. reflexivity. }
  rewrite Hmod. apply Z.mod_pos_bound. by apply Z.pow_pos_nonneg.
Qed.

Lemma range_bits N z i :
  0 <= z < 2 ^ N -> N <= i -> Z.testbit z i = false.
Proof.
  intros Hz Hi.
  destruct (Z.eq_dec z 0) as [->|Hnz]; [apply Z.bits_0|].
  destruct (Z.lt_ge_cases N 0) as [Hneg|HN].
  { rewrite Z.pow_neg_r in Hz by assumption. lia. }
  apply Z.bits_above_log2; [lia|].
  assert (Z.log2 z < N) by (apply Z.log2_lt_pow2; lia). lia.
Qed.

Lemma bitset_write_range N z pos v :
  0 <= z < 2 ^ N -> 0 <= pos < N -> 0 <= bitset_write z pos v < 2 ^ N.
Proof.
  intros Hz Hpos. apply bits_range; [lia|]. intros i Hi.
  rewrite testbit_bitset_write_other by lia. by apply (range_bits N).
Qed.

(** ** The range invariant *)

Lemma valid_wf d : valid d -> wf d.
Proof. by intros [H _]. Qed.

Lemma valid_init d : valid (init d).
Proof.
  unfold valid, init.
  cbn [m_padValues m_padDown m_buttonDown m_buttonsActiveLow m_encoderValue].
  split; [reflexivity|]. split; [by apply Forall_replicate|].
  repeat split; (lia || discriminate || reflexivity).
Qed.

Lemma padBody_valid lo hi (r r' : Run) :
  valid r.1 -> padBody lo hi r = Some r' -> valid r'.1.
Proof.
  intros (Hlen & Hvals & Hdown & Hrest) Hbody.
  destruct (padBody_spec lo hi r Hlen) as (pad & _ & Hpad & Hspec).
  cbv zeta in Hspec. rewrite Hspec in Hbody. clear Hspec.
  pose proof (magnitude_range lo hi) as Hm.
  assert (Hvals' : Forall (fun v => 0 <= v <= 4095)
                     (<[Z.to_nat pad := magnitude lo hi]> (m_padValues r.1)))
    by (by apply Forall_insert).
  assert (Hlen' : length (<[Z.to_nat pad := magnitude lo hi]> (m_padValues r.1))
                  = 16%nat) by (by rewrite length_insert).
  destruct (kPadThreshold <? magnitude lo hi);
    [|destruct (Z.testbit (m_padDown r.1) pad)];
    injection Hbody as <-; cbn [fst];
    (split; [exact Hlen'|]); (split; [exact Hvals'|]);
    (split; [|exact Hrest]);
    cbn [m_padDown set_padDown set_padValues]; try exact Hdown.
  - apply (bitset_write_range 16 _ pad true); [exact Hdown|lia].
  - apply (bitset_write_range 16 _ pad false); [exact Hdown|lia].
Qed.

Lemma resolvedPolarity_range examined : 0 <= resolvedPolarity examined <= 1.
Proof.
  unfold resolvedPolarity.
  destruct (forallb _ _); [lia|]. destruct (forallb _ _); [lia|].
  destruct (_ <? _); lia.
Qed.

Lemma processButtonsReport_valid tag b1 b2 b3 b4 enc (r : Run) :
  valid r.1 ->
  exists r',
    processButtonsReport [tag; b1; b2; b3; b4; enc] r = Some r' /\
    valid r'.1.
Proof.
  intros (Hlen & Hvals & Hdown & _ & Hpol & _).
  destruct (processButtonsReport_spec tag b1 b2 b3 b4 enc r)
    as (newDown & Hbits & Hrun).
  cbv zeta in Hbits, Hrun.
  eexists. split; [exact Hrun|]. cbn [fst]. unfold valid.
  cbn [m_padValues m_padDown m_buttonDown m_buttonsActiveLow m_encoderValue].
  split; [exact Hlen|]. split; [exact Hvals|]. split; [exact Hdown|].
  split; [|split].
  - apply bits_range; [lia|]. intros i Hi. rewrite Hbits.
    destruct (Z.ltb_spec i 32); [lia|]. by rewrite andb_false_r.
  - destruct (m_buttonsActiveLow r.1 <? 0) eqn:E.
    + pose proof (resolvedPolarity_range [b1; b2; b3; b4]). lia.
    + apply Z.ltb_ge in E. lia.
  - assert (0 <= u8 enc mod 16 < 16) by (apply Z.mod_pos_bound; lia). lia.
Qed.

Lemma six_bytes (input_ : Transfer) :
  length input_ = 6%nat ->
  exists tag b1 b2 b3 b4 enc, input_ = [tag; b1; b2; b3; b4; enc].
Proof.
  destruct input_ as [|tag [|b1 [|b2 [|b3 [|b4 [|enc [|]]]]]]];
    try discriminate.
  intros _. by eexists _, _, _, _, _, _.
Qed.

(** X1. The ranges of the device fields are an invariant: [init] establishes
    them, and on a device that satisfies them every report of fewer than
    2^31 bytes is decoded without failure and leaves them satisfied; so does
    [read] (hence [tick]), whose result is the outcome of the transport
    read. *)
Theorem device_ranges_invariant (d0 : MaschineMikroMK1) (input_ : Transfer)
    (r : Run) :
  valid (init d0) /\
  (valid r.1 -> Z.of_nat (length input_) < 2 ^ 31 ->
   (exists r', processReport input_ r = Some r' /\ valid r'.1) /\
   (exists r', tick (Some input_) r = Some (true, r') /\ valid r'.1) /\
   tick None r = Some (false, r)).
Proof.
  split; [apply valid_init|]. intros Hvalid Hlen.
  assert (Hreport : exists r', processReport input_ r = Some r' /\ valid r'.1).
  { destruct (processReport_cases input_ r) as [-> | [[Hsize ->] | ->]].
    - eauto.
    - rewrite Transfer_size_small in Hsize by lia.
      destruct (six_bytes input_) as (tag & b1 & b2 & b3 & b4 & enc & ->);
        [lia|].
      by apply processButtonsReport_valid.
    - rewrite processPadsLikeMk1Mk2_pairs by assumption.
      apply (for_each_total padBody' (fun r => valid r.1)); [|assumption].
      intros [lo hi] x _ Hx.
      destruct (padBody_total lo hi x (valid_wf _ Hx)) as (x' & Hx' & _).
      exists x'. split; [exact Hx'|]. eapply padBody_valid; eassumption. }
  split; [exact Hreport|]. split; [|reflexivity].
  destruct Hreport as (r' & Hr' & Hv'). unfold tick, read.
  destruct input_ as [|b0 rest]; cbn [Transfer_bool negb].
  - injection Hr' as <-. eauto.
  - rewrite Hr'. cbn [mbind option_bind]. eauto.
Qed.

Lemma device_ranges_invariant_witness :
  exists r',
    processReport [x20; xff; x3f; x10; x40] (fresh, []) = Some r' /\
    valid r'.1.
Proof.
  destruct (device_ranges_invariant fresh [x20; xff; x3f; x10; x40]
              (fresh, [])) as (Hinit & Hstep).
  destruct Hstep as (Hreport & _); [exact Hinit|simpl; lia|].
  exact Hreport.
Defined.

(** ** What a pad report leaves in the device *)

Lemma logicalPad_range hi : 0 <= logicalPad hi <= 15.
Proof.
  unfold logicalPad.
  destruct (kRawPadToLogical_lookup _ (rawPadIndex_range hi))
    as (pad & -> & H). exact H.
Qed.

(** One round of the pad loop, seen from every pad: the addressed pad gets
    the magnitude and is marked by the threshold test, the others keep what
    they had. *)
Lemma padBody_effect lo hi (r : Run) :
  wf r.1 ->
  exists r1,
    padBody lo hi r = Some r1 /\
    wf r1.1 /\
    forall pad,
      0 <= pad < 16 ->
      m_padValues r1.1 !! Z.to_nat pad
      = (if logicalPad hi =? pad then Some (magnitude lo hi)
         else m_padValues r.1 !! Z.to_nat pad) /\
      Z.testbit (m_padDown r1.1) pad
      = (if logicalPad hi =? pad then kPadThreshold <? magnitude lo hi
         else Z.testbit (m_padDown r.1) pad).
Proof.
  intros Hwf.
  destruct (padBody_spec lo hi r Hwf) as (pad0 & Hpad0 & Hrange & Hspec).
  cbv zeta in Hspec.
  assert (Hlog : logicalPad hi = pad0) by (unfold logicalPad; by rewrite Hpad0).
  eexists. split; [exact Hspec|]. split.
  { unfold wf.
    destruct (kPadThreshold <? _); [|destruct (Z.testbit _ _)]; cbn [fst];
      cbn [m_padValues set_padDown set_padValues]; by rewrite length_insert. }
  intros pad Hpad. rewrite Hlog.
  assert (Hvals :
    <[Z.to_nat pad0 := magnitude lo hi]> (m_padValues r.1) !! Z.to_nat pad
    = if pad0 =? pad then Some (magnitude lo hi)
      else m_padValues r.1 !! Z.to_nat pad).
  { destruct (Z.eqb_spec pad0 pad) as [->|Hne].
    - apply list_lookup_insert_eq. red in Hwf. rewrite Hwf. lia.
    - apply list_lookup_insert_ne. lia. }
  destruct (kPadThreshold <? magnitude lo hi) eqn:Hthr;
    [|destruct (Z.testbit (m_padDown r.1) pad0) eqn:Hdown]; cbn [fst];
    cbn [m_padValues m_padDown set_padDown set_padValues];
    (split; [exact Hvals|]).
  - change (Z.setbit (m_padDown r.1) pad0)
      with (bitset_write (m_padDown r.1) pad0 true).
    apply testbit_bitset_write. lia.
  - change (Z.clearbit (m_padDown r.1) pad0)
      with (bitset_write (m_padDown r.1) pad0 false).
    apply testbit_bitset_write. lia.
  - destruct (Z.eqb_spec pad0 pad) as [<-|_]; [exact Hdown|reflexivity].
Qed.

(** An invariant of the body of the pad loop is an invariant of the loop. *)
Lemma padsLoop_invariant (I : MaschineMikroMK1 -> Prop) (input_ : Transfer) :
  (forall lo hi (r r' : Run),
      I r.1 -> padBody lo hi r = Some r' -> I r'.1) ->
  forall fuel i (r r' : Run),
    I r.1 -> padsLoop fuel input_ i r = Some r' -> I r'.1.
Proof.
  intros Hbody. induction fuel as [|fuel IH]; intros i r r' Hr;
    cbn [padsLoop]; destruct (_ <? _); try discriminate;
    try (by intros [= <-]).
  unfold processPair.
  destruct (Transfer_at input_ (static_cast_int i)) as [lo|];
    cbn [mbind option_bind]; [|discriminate].
  destruct (Transfer_at _ _) as [hi|]; cbn [mbind option_bind];
    [|discriminate].
  destruct (padBody lo hi r) as [r1|] eqn:E; [|discriminate].
  apply IH. eapply Hbody; eassumption.
Qed.

Lemma padBody_consistent lo hi (r r' : Run) :
  wf r.1 /\ padsConsistent r.1 ->
  padBody lo hi r = Some r' ->
  wf r'.1 /\ padsConsistent r'.1.
Proof.
  intros [Hwf Hcons] Hbody.
  destruct (padBody_effect lo hi r Hwf) as (r1 & Hr1 & Hwf1 & Heff).
  rewrite Hr1 in Hbody. injection Hbody as <-.
  split; [exact Hwf1|]. intros pad v Hpad Hv.
  destruct (Heff pad Hpad) as [Hvals Hbit]. rewrite Hbit.
  rewrite Hvals in Hv.
  destruct (logicalPad hi =? pad).
  - by injection Hv as <-.
  - by apply Hcons.
Qed.

(** X2. A pad is marked down exactly when the magnitude stored for it is
    above the threshold 200: this holds after [init] and, on a device with
    its 16 pad entries, every report that is decoded keeps it (reports for
    the buttons included, since they leave the pads alone). *)
Theorem pad_marks_follow_magnitudes (d0 : MaschineMikroMK1)
    (input_ : Transfer) (r r' : Run) :
  padsConsistent (init d0) /\
  (wf r.1 -> padsConsistent r.1 ->
   processReport input_ r = Some r' ->
   wf r'.1 /\ padsConsistent r'.1).
Proof.
  split.
  - intros pad v Hpad Hv. cbn [init m_padValues m_padDown] in *.
    apply lookup_replicate in Hv as [-> _]. by rewrite Z.bits_0.
  - intros Hwf Hcons.
    destruct (processReport_cases input_ r) as [-> | [[_ ->] | ->]].
    + by intros [= <-].
    + intros H. apply processButtonsReport_frame in H as [H _].
      unfold pads_part in H. injection H as Hv Hd.
      split; [unfold wf; by rewrite Hv|].
      intros pad v. rewrite Hv, Hd. apply Hcons.
    + apply (padsLoop_invariant (fun d => wf d /\ padsConsistent d));
        [|by split].
      intros lo hi x x'. apply padBody_consistent.
Qed.

Lemma pad_marks_follow_magnitudes_witness :
  exists r',
    processReport [x20; xfa; x00; x10; x10] (fresh, []) = Some r' /\
    padsConsistent r'.1.
Proof.
  destruct (processReport_total [x20; xfa; x00; x10; x10] (fresh, []))
    as [r' Hr']; [simpl; lia|reflexivity|].
  exists r'. split; [exact Hr'|].
  destruct (pad_marks_follow_magnitudes fresh [x20; xfa; x00; x10; x10]
              (fresh, []) r') as [Hinit Hstep].
  apply Hstep; [reflexivity|exact Hinit|exact Hr'].
Defined.

Lemma for_each_padBody_last (ps : list (byte * byte)) :
  forall r : Run,
    wf r.1 ->
    exists r',
      for_each padBody' ps r = Some r' /\
      wf r'.1 /\
      forall pad,
        0 <= pad < 16 ->
        m_padValues r'.1 !! Z.to_nat pad
        = match lastMagnitude pad ps with
          | Some m => Some m
          | None => m_padValues r.1 !! Z.to_nat pad
          end /\
        Z.testbit (m_padDown r'.1) pad
        = match lastMagnitude pad ps with
          | Some m => kPadThreshold <? m
          | None => Z.testbit (m_padDown r.1) pad
          end.
Proof.
  induction ps as [|[lo hi] ps IH]; intros r Hwf.
  - exists r. cbn [for_each lastMagnitude]. auto.
  - destruct (padBody_effect lo hi r Hwf) as (r1 & Hr1 & Hwf1 & Heff).
    destruct (IH r1 Hwf1) as (r' & Hr' & Hwf' & Hlast).
    exists r'. cbn [for_each]. unfold padBody' at 1. cbn [fst snd].
    rewrite Hr1. split; [exact Hr'|]. split; [exact Hwf'|].
    intros pad Hpad. cbn [lastMagnitude].
    destruct (Hlast pad Hpad) as [Hv Hb]. destruct (Heff pad Hpad) as [Hv1 Hb1].
    rewrite Hv, Hb.
    destruct (lastMagnitude pad ps); [auto|].
    rewrite Hv1, Hb1. destruct (logicalPad hi =? pad); auto.
Qed.

(** X3. What a pad report leaves behind depends, pad by pad, on the last
    pair that addresses the pad: its magnitude is what [m_padValues] holds
    and the threshold test on it is what [m_padDown] holds; a pad that no
    pair addresses keeps its magnitude and its mark. *)
Theorem pad_report_last_pair_wins (input_ : Transfer) (r : Run) :
  wf r.1 ->
  Z.of_nat (length input_) < 2 ^ 31 ->
  exists r',
    processPadsLikeMk1Mk2 input_ r = Some r' /\
    forall pad,
      0 <= pad < 16 ->
      m_padValues r'.1 !! Z.to_nat pad
      = match lastMagnitude pad (pairs (drop 1 input_)) with
        | Some m => Some m
        | None => m_padValues r.1 !! Z.to_nat pad
        end /\
      Z.testbit (m_padDown r'.1) pad
      = match lastMagnitude pad (pairs (drop 1 input_)) with
        | Some m => kPadThreshold <? m
        | None => Z.testbit (m_padDown r.1) pad
        end.
Proof.
  intros Hwf Hlen. rewrite processPadsLikeMk1Mk2_pairs by assumption.
  destruct (for_each_padBody_last (pairs (drop 1 input_)) r Hwf)
    as (r' & Hr' & _ & Hlast).
  eauto.
Qed.

Lemma pad_report_last_pair_wins_witness :
  exists r',
    processPadsLikeMk1Mk2 [x20; xfa; x00; x10; x00] (fresh, []) = Some r' /\
    m_padValues r'.1 !! 12%nat = Some 16 /\
    Z.testbit (m_padDown r'.1) 12 = false.
Proof.
  destruct (pad_report_last_pair_wins [x20; xfa; x00; x10; x00] (fresh, []))
    as (r' & Hr' & Hlast); [reflexivity|simpl; lia|].
  exists r'. split; [exact Hr'|]. apply (Hlast 12). lia.
Defined.

(** ** The events of one report *)

Lemma pairs_length (n : nat) :
  forall l : list byte, (length l <= n)%nat ->
                        (2 * length (pairs l) <= length l)%nat.
Proof.
  induction n as [|n IH]; intros [|lo [|hi l]] Hl; cbn [pairs length] in *;
    try lia.
  specialize (IH l). lia.
Qed.

Lemma padBody_events lo hi (r r' : Run) :
  wf r.1 -> padBody lo hi r = Some r' ->
  exists evs, r'.2 = r.2 ++ evs /\ (length evs <= 1)%nat /\
              forallb is_key_event evs = true.
Proof.
  intros Hwf Hbody.
  destruct (padBody_spec lo hi r Hwf) as (pad & _ & Hpad & Hspec).
  cbv zeta in Hspec. rewrite Hspec in Hbody. clear Hspec.
  assert (Hkey : (0 <=? pad) && (pad <=? 15) = true).
  { apply andb_true_iff. split; apply Z.leb_le; lia. }
  destruct (kPadThreshold <? _); [|destruct (Z.testbit _ _)];
    injection Hbody as <-; cbn [snd].
  - eexists. split; [reflexivity|]. split; [simpl; lia|].
    cbn [forallb is_key_event]. by rewrite Hkey.
  - eexists. split; [reflexivity|]. split; [simpl; lia|].
    cbn [forallb is_key_event]. by rewrite Hkey.
  - exists []. split; [by rewrite app_nil_r|]. split; [simpl; lia|reflexivity].
Qed.

Lemma for_each_padBody_events (ps : list (byte * byte)) :
  forall r : Run,
    wf r.1 ->
    exists r' evs,
      for_each padBody' ps r = Some r' /\ r'.2 = r.2 ++ evs /\
      (length evs <= length ps)%nat /\ forallb is_key_event evs = true.
Proof.
  induction ps as [|[lo hi] ps IH]; intros r Hwf.
  - exists r, []. cbn [for_each]. split; [reflexivity|].
    split; [by rewrite app_nil_r|]. split; [simpl; lia|reflexivity].
  - destruct (padBody_total lo hi r Hwf) as (r1 & Hr1 & Hwf1).
    destruct (padBody_events lo hi r r1 Hwf Hr1) as (e1 & He1 & Hn1 & Hk1).
    destruct (IH r1 Hwf1) as (r' & e2 & Hr' & He2 & Hn2 & Hk2).
    exists r', (e1 ++ e2). cbn [for_each]. unfold padBody' at 1.
    cbn [fst snd]. rewrite Hr1. split; [exact Hr'|].
    split; [by rewrite He2, He1, app_assoc|].
    split; [rewrite length_app; simpl; lia|].
    rewrite forallb_app. by rewrite Hk1, Hk2.
Qed.

Lemma processPadsLikeMk1Mk2_key_events (input_ : Transfer) (r : Run) :
  wf r.1 ->
  Z.of_nat (length input_) < 2 ^ 31 ->
  exists r' evs,
    processPadsLikeMk1Mk2 input_ r = Some r' /\
    r'.2 = r.2 ++ evs /\
    (length evs <= length (pairs (drop 1 input_)))%nat /\
    forallb is_key_event evs = true.
Proof.
  intros Hwf Hlen. rewrite processPadsLikeMk1Mk2_pairs by assumption.
  apply for_each_padBody_events, Hwf.
Qed.

(** X4. A pad report emits pad events only: at most one per pair (so at most
    (length - 1) / 2 of them), each for a key among 0..15 and with the shift
    flag off; the events emitted earlier stay in front of them. *)
Theorem pad_report_events (input_ : Transfer) (r : Run) :
  wf r.1 ->
  Z.of_nat (length input_) < 2 ^ 31 ->
  exists r' evs,
    processPadsLikeMk1Mk2 input_ r = Some r' /\
    r'.2 = r.2 ++ evs /\
    (length evs <= length (pairs (drop 1 input_)))%nat /\
    (2 * length evs <= length input_ - 1)%nat /\
    forallb is_key_event evs = true.
Proof.
  intros Hwf Hlen.
  destruct (processPadsLikeMk1Mk2_key_events input_ r Hwf Hlen)
    as (r' & evs & Hr' & Hevs & Hn & Hk).
  exists r', evs. repeat split; try assumption.
  pose proof (pairs_length (length (drop 1 input_)) (drop 1 input_)
                (Nat.le_refl _)) as Hp.
  rewrite length_drop in Hp. lia.
Qed.

Lemma pad_report_events_witness :
  exists r' evs,
    processPadsLikeMk1Mk2 [x20; xfa; x00; x10; x40; x33] (fresh, [])
    = Some r' /\
    r'.2 = [] ++ evs /\ (2 * length evs <= 5)%nat.
Proof.
  destruct (pad_report_events [x20; xfa; x00; x10; x40; x33] (fresh, []))
    as (r' & evs & Hr' & Hevs & _ & Hn & _); [reflexivity|simpl; lia|].
  exists r', evs. split; [exact Hr'|]. split; [exact Hevs|exact Hn].
Defined.

Lemma flat_map_length_bound {A B} (f : A -> list B) (g : A -> nat) l :
  (forall a, (length (f a) <= g a)%nat) ->
  (length (flat_map f l) <= sum_list_with g l)%nat.
Proof.
  intros Hf. induction l as [|a l IH]; cbn [flat_map sum_list_with];
    [reflexivity|].
  rewrite length_app. specialize (Hf a). lia.
Qed.

Lemma edgeEvents_bound new old shift i :
  (length (edgeEvents new old shift i) <= edgeBound i)%nat /\
  forallb (is_known_button_event shift) (edgeEvents new old shift i) = true.
Proof.
  unfold edgeEvents, edgeBound. destruct (Bool.eqb _ _).
  - split; [simpl; lia|reflexivity].
  - cbv zeta. destruct (Button.is_unknown _) eqn:E.
    + split; [simpl; lia|reflexivity].
    + split; [simpl; lia|].
      cbn [forallb is_known_button_event]. rewrite E, eqb_reflx. reflexivity.
Qed.

Lemma buttonEvents_bound new old shift :
  (length (buttonEvents new old shift) <= 29)%nat /\
  forallb (is_known_button_event shift) (buttonEvents new old shift) = true.
Proof.
  unfold buttonEvents. split.
  - change 29%nat with (sum_list_with edgeBound (seqZ 0 32)).
    apply flat_map_length_bound. intros i. apply edgeEvents_bound.
  - induction (seqZ 0 32) as [|i l IH]; [reflexivity|].
    cbn [flat_map]. rewrite forallb_app, IH.
    by rewrite (proj2 (edgeEvents_bound new old shift i)).
Qed.

(** X5. A buttons report emits at most one encoder event, for encoder 0,
    and after it at most 29 button events, none of them for the [Unknown]
    identity; all of them carry one and the same shift flag, the pressed
    state of bit position 0 in the report.  No pad event is emitted. *)
Theorem buttons_report_events (tag b1 b2 b3 b4 enc : byte) (r : Run) :
  let activeLow :=
    if m_buttonsActiveLow r.1 <? 0 then resolvedPolarity [b1; b2; b3; b4]
    else m_buttonsActiveLow r.1 in
  let shift := framePressed activeLow [b1; b2; b3; b4] 0 in
  exists r' encoderEvs buttonEvs,
    processButtonsReport [tag; b1; b2; b3; b4; enc] r = Some r' /\
    r'.2 = r.2 ++ encoderEvs ++ buttonEvs /\
    (length encoderEvs <= 1)%nat /\
    forallb (is_encoder0_event shift) encoderEvs = true /\
    (length buttonEvs <= 29)%nat /\
    forallb (is_known_button_event shift) buttonEvs = true.
Proof.
  intros activeLow shift.
  destruct (processButtonsReport_spec tag b1 b2 b3 b4 enc r)
    as (newDown & _ & Hrun).
  cbv zeta in Hrun. fold activeLow in Hrun. fold shift in Hrun.
  eexists _, _, _. split; [exact Hrun|]. cbn [snd].
  split; [reflexivity|].
  split; [|split].
  - unfold encoderEvents. destruct (_ && _); simpl; lia.
  - unfold encoderEvents. destruct (_ && _); [|reflexivity].
    cbn [forallb is_encoder0_event]. rewrite eqb_reflx. reflexivity.
  - apply buttonEvents_bound.
Qed.

(** The bound 29 is reached: with an active-high polarity and an empty
    stored frame, the report 01 FF FF FF FF 00 presses every named button. *)
Lemma buttons_report_events_tight :
  match processButtonsReport [x01; xff; xff; xff; xff; x00]
          (set_buttonsActiveLow 0 fresh, []) with
  | Some r' => length r'.2
  | None => 0%nat
  end = 29%nat.
Proof. vm_compute. reflexivity. Qed.

Lemma testbit_ext a b :
  (forall i, Z.testbit a i = Z.testbit b i) -> a = b.
Proof. intros H. apply Z.bits_inj'. intros n _. apply H. Qed.

Lemma buttonEvents_same new old shift :
  (forall i, 0 <= i < 32 -> new i = old i) -> buttonEvents new old shift = [].
Proof.
  intros H. unfold buttonEvents. apply flat_map_nil. intros i Hi.
  apply elem_of_seqZ in Hi. unfold edgeEvents.
  rewrite H by lia. by rewrite eqb_reflx.
Qed.

(** X6. Edge detection against the stored frame: a buttons report that is
    decoded a second time right after itself emits nothing and changes
    nothing, whatever the device was before the first time. *)
Theorem repeated_buttons_report_is_silent (tag b1 b2 b3 b4 enc : byte)
    (r : Run) :
  exists r',
    processButtonsReport [tag; b1; b2; b3; b4; enc] r = Some r' /\
    processButtonsReport [tag; b1; b2; b3; b4; enc] r' = Some r'.
Proof.
  destruct (processButtonsReport_spec tag b1 b2 b3 b4 enc r)
    as (newDown & Hbits & Hrun).
  cbv zeta in Hbits, Hrun.
  set (activeLow := if m_buttonsActiveLow r.1 <? 0
                    then resolvedPolarity [b1; b2; b3; b4]
                    else m_buttonsActiveLow r.1) in *.
  assert (Hpol : (activeLow <? 0) = false).
  { apply Z.ltb_ge. subst activeLow.
    destruct (Z.ltb_spec (m_buttonsActiveLow r.1) 0); [|lia].
    apply resolvedPolarity_range. }
  eexists. split; [exact Hrun|].
  match goal with |- processButtonsReport _ ?x = _ => set (r1 := x) end.
  destruct (processButtonsReport_spec tag b1 b2 b3 b4 enc r1)
    as (newDown' & Hbits' & Hrun').
  cbv zeta in Hbits', Hrun'. subst r1.
  cbn [fst snd m_padValues m_padDown m_buttonDown m_buttonsActiveLow
       m_encoderInitialized m_encoderValue] in Hbits', Hrun'.
  rewrite Hpol in Hbits', Hrun'.
  assert (Hnd : newDown' = newDown).
  { apply testbit_ext. intros i. by rewrite Hbits, Hbits'. }
  subst newDown'. rewrite Hrun'. f_equal. f_equal.
  unfold encoderEvents. rewrite Z.eqb_refl. cbn [negb andb app].
  rewrite (buttonEvents_same _ (Z.testbit newDown));
    [by rewrite !app_nil_r|].
  intros i Hi. rewrite Hbits.
  destruct (Z.leb_spec 0 i); [|lia]. destruct (Z.ltb_spec i 32); [|lia].
  reflexivity.
Qed.

(** X7. The button decoder looks neither at the tag byte nor at the high
    nibble of the last byte: two six-byte reports with the same four bitfield
    bytes and the same low nibble in the last byte are decoded alike. *)
Theorem buttons_report_ignores_tag_and_high_nibble
    (tag tag' b1 b2 b3 b4 enc enc' : byte) (r : Run) :
  u8 enc mod 16 = u8 enc' mod 16 ->
  processButtonsReport [tag; b1; b2; b3; b4; enc] r
  = processButtonsReport [tag'; b1; b2; b3; b4; enc'] r.
Proof.
  intros Henc.
  destruct (processButtonsReport_spec tag b1 b2 b3 b4 enc r)
    as (newDown & Hbits & ->).
  destruct (processButtonsReport_spec tag' b1 b2 b3 b4 enc' r)
    as (newDown' & Hbits' & ->).
  cbv zeta in Hbits, Hbits'.
  assert (Hnd : newDown' = newDown).
  { apply testbit_ext. intros i. by rewrite Hbits, Hbits'. }
  subst newDown'. by rewrite Henc.
Qed.

Lemma buttons_report_ignores_tag_and_high_nibble_witness :
  processButtonsReport [x01; x00; x10; x00; x00; x05] (fresh, [])
  = processButtonsReport [x77; x00; x10; x00; x00; xf5] (fresh, []).
Proof.
  apply buttons_report_ignores_tag_and_high_nibble. reflexivity.
Defined.

(** ** What the calibration achieves *)

Lemma pressedInByte_setBits activeLow b :
  pressedInByte activeLow b
  = if 0 <? activeLow then 8 - setBits b else setBits b.
Proof.
  unfold pressedInByte, pressedBit.
  destruct (0 <? activeLow); destruct b; reflexivity.
Qed.

Lemma pressedCount_frame activeLow b1 b2 b3 b4 :
  pressedCount (framePressed activeLow [b1; b2; b3; b4])
  = pressedInByte activeLow b1 + pressedInByte activeLow b2
    + pressedInByte activeLow b3 + pressedInByte activeLow b4.
Proof.
  unfold pressedCount, pressedInByte.
  change (seqZ 0 32) with
    [0; 1; 2; 3; 4; 5; 6; 7; 8; 9; 10; 11; 12; 13; 14; 15; 16; 17; 18; 19;
     20; 21; 22; 23; 24; 25; 26; 27; 28; 29; 30; 31].
  change (seqZ 0 8) with [0; 1; 2; 3; 4; 5; 6; 7].
  cbn [foldr].
  change (framePressed activeLow [b1; b2; b3; b4] 0) with (pressedBit activeLow b1 0).
  change (framePressed activeLow [b1; b2; b3; b4] 1) with (pressedBit activeLow b1 1).
  change (framePressed activeLow [b1; b2; b3; b4] 2) with (pressedBit activeLow b1 2).
  change (framePressed activeLow [b1; b2; b3; b4] 3) with (pressedBit activeLow b1 3).
  change (framePressed activeLow [b1; b2; b3; b4] 4) with (pressedBit activeLow b1 4).
  change (framePressed activeLow [b1; b2; b3; b4] 5) with (pressedBit activeLow b1 5).
  change (framePressed activeLow [b1; b2; b3; b4] 6) with (pressedBit activeLow b1 6).
  change (framePressed activeLow [b1; b2; b3; b4] 7) with (pressedBit activeLow b1 7).
  change (framePressed activeLow [b1; b2; b3; b4] 8) with (pressedBit activeLow b2 0).
  change (framePressed activeLow [b1; b2; b3; b4] 9) with (pressedBit activeLow b2 1).
  change (framePressed activeLow [b1; b2; b3; b4] 10) with (pressedBit activeLow b2 2).
  change (framePressed activeLow [b1; b2; b3; b4] 11) with (pressedBit activeLow b2 3).
  change (framePressed activeLow [b1; b2; b3; b4] 12) with (pressedBit activeLow b2 4).
  change (framePressed activeLow [b1; b2; b3; b4] 13) with (pressedBit activeLow b2 5).
  change (framePressed activeLow [b1; b2; b3; b4] 14) with (pressedBit activeLow b2 6).
  change (framePressed activeLow [b1; b2; b3; b4] 15) with (pressedBit activeLow b2 7).
  change (framePressed activeLow [b1; b2; b3; b4] 16) with (pressedBit activeLow b3 0).
  change (framePressed activeLow [b1; b2; b3; b4] 17) with (pressedBit activeLow b3 1).
  change (framePressed activeLow [b1; b2; b3; b4] 18) with (pressedBit activeLow b3 2).
  change (framePressed activeLow [b1; b2; b3; b4] 19) with (pressedBit activeLow b3 3).
  change (framePressed activeLow [b1; b2; b3; b4] 20) with (pressedBit activeLow b3 4).
  change (framePressed activeLow [b1; b2; b3; b4] 21) with (pressedBit activeLow b3 5).
  change (framePressed activeLow [b1; b2; b3; b4] 22) with (pressedBit activeLow b3 6).
  change (framePressed activeLow [b1; b2; b3; b4] 23) with (pressedBit activeLow b3 7).
  change (framePressed activeLow [b1; b2; b3; b4] 24) with (pressedBit activeLow b4 0).
  change (framePressed activeLow [b1; b2; b3; b4] 25) with (pressedBit activeLow b4 1).
  change (framePressed activeLow [b1; b2; b3; b4] 26) with (pressedBit activeLow b4 2).
  change (framePressed activeLow [b1; b2; b3; b4] 27) with (pressedBit activeLow b4 3).
  change (framePressed activeLow [b1; b2; b3; b4] 28) with (pressedBit activeLow b4 4).
  change (framePressed activeLow [b1; b2; b3; b4] 29) with (pressedBit activeLow b4 5).
  change (framePressed activeLow [b1; b2; b3; b4] 30) with (pressedBit activeLow b4 6).
  change (framePressed activeLow [b1; b2; b3; b4] 31) with (pressedBit activeLow b4 7).
  lia.
Qed.

Lemma pressedCount_ext f g :
  (forall i, 0 <= i < 32 -> f i = g i) -> pressedCount f = pressedCount g.
Proof.
  intros H. unfold pressedCount.
  assert (Hall : forall i, i ∈ seqZ 0 32 -> f i = g i)
    by (intros i Hi; apply elem_of_seqZ in Hi; apply H; lia).
  induction (seqZ 0 32) as [|i l IH]; [reflexivity|].
  cbn [foldr]. rewrite (Hall i) by left. rewrite IH; [reflexivity|].
  intros j Hj. apply Hall. by right.
Qed.

(** X8. The calibration always settles on the polarity under which at most
    half of the 32 button bits of the calibrating report read as pressed:
    after a buttons report received with the polarity unknown, the stored
    frame holds at most 16 pressed positions, and none at all when the four
    bitfield bytes are all 0xFF or all 0x00. *)
Theorem calibration_presses_at_most_half (tag b1 b2 b3 b4 enc : byte)
    (r : Run) :
  m_buttonsActiveLow r.1 < 0 ->
  exists r',
    processButtonsReport [tag; b1; b2; b3; b4; enc] r = Some r' /\
    0 <= pressedCount (Z.testbit (m_buttonDown r'.1)) <= 16 /\
    (forallb (fun b => u8 b =? 0xFF) [b1; b2; b3; b4]
     || forallb (fun b => u8 b =? 0x00) [b1; b2; b3; b4] = true ->
     m_buttonDown r'.1 = 0).
Proof.
  intros Hunknown.
  destruct (processButtonsReport_spec tag b1 b2 b3 b4 enc r)
    as (newDown & Hbits & Hrun).
  cbv zeta in Hbits, Hrun.
  destruct (Z.ltb_spec (m_buttonsActiveLow r.1) 0) as [_|]; [|lia].
  eexists. split; [exact Hrun|]. cbn [fst m_buttonDown].
  assert (Hcount :
    pressedCount (Z.testbit newDown)
    = pressedCount (framePressed (resolvedPolarity [b1; b2; b3; b4])
                      [b1; b2; b3; b4])).
  { apply pressedCount_ext. intros i Hi. rewrite Hbits.
    destruct (Z.leb_spec 0 i); [|lia]. destruct (Z.ltb_spec i 32); [|lia].
    reflexivity. }
  rewrite Hcount, pressedCount_frame, !pressedInByte_setBits.
  pose proof (setBits_range b1). pose proof (setBits_range b2).
  pose proof (setBits_range b3). pose proof (setBits_range b4).
  assert (Hzero :
    forallb (fun b => u8 b =? 0xFF) [b1; b2; b3; b4]
    || forallb (fun b => u8 b =? 0x00) [b1; b2; b3; b4] = true ->
    (if 0 <? resolvedPolarity [b1; b2; b3; b4] then 8 - setBits b1
     else setBits b1)
    + (if 0 <? resolvedPolarity [b1; b2; b3; b4] then 8 - setBits b2
       else setBits b2)
    + (if 0 <? resolvedPolarity [b1; b2; b3; b4] then 8 - setBits b3
       else setBits b3)
    + (if 0 <? resolvedPolarity [b1; b2; b3; b4] then 8 - setBits b4
       else setBits b4) = 0).
  { unfold resolvedPolarity. cbn [forallb]. rewrite !andb_true_r.
    destruct (u8 b1 =? 0xFF) eqn:F1, (u8 b2 =? 0xFF) eqn:F2,
      (u8 b3 =? 0xFF) eqn:F3, (u8 b4 =? 0xFF) eqn:F4; cbn [andb orb];
      try (apply setBits_all_ones in F1 as [S1 _];
           apply setBits_all_ones in F2 as [S2 _];
           apply setBits_all_ones in F3 as [S3 _];
           apply setBits_all_ones in F4 as [S4 _];
           intros _; change (0 <? 1) with true; cbv iota; lia);
      destruct (u8 b1 =? 0x00) eqn:Z1, (u8 b2 =? 0x00) eqn:Z2,
        (u8 b3 =? 0x00) eqn:Z3, (u8 b4 =? 0x00) eqn:Z4; cbn [andb];
      try discriminate;
      apply setBits_all_zeros in Z1, Z2, Z3, Z4;
      intros _; change (0 <? 0) with false; cbv iota; lia. }
  split.
  - unfold resolvedPolarity in *. cbn [length map foldr] in *.
    change (8 * Z.of_nat 4 / 2) with 16.
    destruct (forallb (fun b => u8 b =? 0xFF) [b1; b2; b3; b4]);
      [cbn [orb] in Hzero; rewrite Hzero by reflexivity; lia|].
    destruct (forallb (fun b => u8 b =? 0x00) [b1; b2; b3; b4]);
      [cbn [orb] in Hzero; rewrite Hzero by reflexivity; lia|].
    destruct (Z.ltb_spec 16
                (setBits b1 + (setBits b2 + (setBits b3 + (setBits b4 + 0)))));
      [change (0 <? 1) with true|change (0 <? 0) with false]; cbv iota; lia.
  - intros Hall. specialize (Hzero Hall).
    rewrite <- !pressedInByte_setBits, <- pressedCount_frame in Hzero.
    apply testbit_ext. intros i. rewrite Z.bits_0, Hbits.
    destruct ((0 <=? i) && (i <? 32)) eqn:Hi; [|reflexivity].
    apply andb_true_iff in Hi as [Hlo Hhi].
    apply Z.leb_le in Hlo. apply Z.ltb_lt in Hhi.
    revert Hzero. unfold pressedCount.
    assert (Hin : i ∈ seqZ 0 32) by (apply elem_of_seqZ; lia).
    revert Hin. generalize (framePressed (resolvedPolarity [b1; b2; b3; b4])
                              [b1; b2; b3; b4]).
    intros f. induction (seqZ 0 32) as [|j l IH]; [by intros ?%elem_of_nil|].
    cbn [foldr]. intros Hin Hsum.
    assert (Hnn : 0 <= foldr (fun i acc => Z.b2z (f i) + acc) 0 l).
    { clear. induction l as [|k l IH]; cbn [foldr]; [lia|].
      destruct (f k); simpl Z.b2z; lia. }
    apply elem_of_cons in Hin as [->|Hin].
    + destruct (f j); [simpl Z.b2z in Hsum; lia|reflexivity].
    + apply IH; [assumption|]. destruct (f j); simpl Z.b2z in Hsum; lia.
Qed.

Lemma calibration_presses_at_most_half_witness :
  exists r',
    processButtonsReport [x01; xff; xff; xff; xff; x03] (fresh, []) = Some r' /\
    m_buttonDown r'.1 = 0.
Proof.
  destruct (calibration_presses_at_most_half x01 xff xff xff xff x03
              (fresh, [])) as (r' & Hr' & _ & Hzero); [reflexivity|].
  exists r'. split; [exact Hr'|]. apply Hzero. reflexivity.
Defined.

(** ** The tables *)

Lemma unknown_positions i :
  0 <= i < 32 ->
  Button.is_unknown (buttonAt (4 - i / 8) (i mod 8)) = (8 <=? i) && (i <=? 10).
Proof. revert i. each_bit_position; reflexivity. Qed.

Lemma buttonAt_injective i j :
  0 <= i < 32 -> 0 <= j < 32 ->
  Button.is_unknown (buttonAt (4 - i / 8) (i mod 8)) = false ->
  buttonAt (4 - i / 8) (i mod 8) = buttonAt (4 - j / 8) (j mod 8) ->
  i = j.
Proof.
  intros Hi. revert j. revert i Hi.
  apply (forall_bit_positions
           (fun i => forall j, 0 <= j < 32 ->
              Button.is_unknown (buttonAt (4 - i / 8) (i mod 8)) = false ->
              buttonAt (4 - i / 8) (i mod 8) = buttonAt (4 - j / 8) (j mod 8) ->
              i = j)).
  repeat (apply List.Forall_cons;
    [match goal with
     | |- forall j, 0 <= j < 32 -> @?P j =>
         apply (forall_bit_positions P);
         repeat (apply List.Forall_cons;
                 [intros Hk Heq; vm_compute in Hk, Heq;
                  first [reflexivity | discriminate Hk | discriminate Heq]|]);
         apply List.Forall_nil
     end|]).
  apply List.Forall_nil.
Qed.

(** X9. The bank/bit table as the decoder uses it: the 32 bit positions
    address banks 1 to 4 only (the row of bank 0 is never read); exactly the
    positions 8, 9 and 10 have the [Unknown] identity; and the other 29
    positions name 29 different buttons, so a button event identifies its
    bit position. *)
Theorem button_table_facts (i j : Z) :
  0 <= i < 32 -> 0 <= j < 32 ->
  1 <= 4 - i / 8 <= 4 /\
  0 <= i mod 8 <= 7 /\
  (Button.is_unknown (buttonAt (4 - i / 8) (i mod 8)) = true <-> 8 <= i <= 10)
  /\
  (Button.is_unknown (buttonAt (4 - i / 8) (i mod 8)) = false ->
   buttonAt (4 - i / 8) (i mod 8) = buttonAt (4 - j / 8) (j mod 8) ->
   i = j).
Proof.
  intros Hi Hj.
  assert (0 <= i / 8 < 4).
  { split; [apply Z.div_pos; lia|apply Z.div_lt_upper_bound; lia]. }
  assert (0 <= i mod 8 < 8) by (apply Z.mod_pos_bound; lia).
  split; [lia|]. split; [lia|]. split.
  - rewrite unknown_positions by assumption.
    rewrite andb_true_iff, !Z.leb_le. reflexivity.
  - by apply buttonAt_injective.
Qed.

Lemma button_table_facts_witness :
  1 <= 4 - 16 / 8 <= 4 /\
  0 <= 16 mod 8 <= 7 /\
  (Button.is_unknown (buttonAt (4 - 16 / 8) (16 mod 8)) = true <-> 8 <= 16 <= 10)
  /\
  (Button.is_unknown (buttonAt (4 - 16 / 8) (16 mod 8)) = false ->
   buttonAt (4 - 16 / 8) (16 mod 8) = buttonAt (4 - 17 / 8) (17 mod 8) ->
   16 = 17).
Proof. apply (button_table_facts 16 17); lia. Defined.

(** X10. The raw-to-logical pad table flips the four rows of the 4 x 4 pad
    grid and keeps the column: the logical pad is the raw index with its two
    row bits inverted.  The table is its own inverse, so it is a permutation
    of 0..15: different raw pads never share a logical pad and every logical
    pad can be addressed. *)
Theorem pad_table_is_row_flip (raw : Z) :
  0 <= raw <= 15 ->
  exists pad,
    array_get kRawPadToLogical raw = Some pad /\
    0 <= pad <= 15 /\
    pad = Z.lxor raw 12 /\
    pad / 4 = 3 - raw / 4 /\
    pad mod 4 = raw mod 4 /\
    array_get kRawPadToLogical pad = Some raw.
Proof.
  intros H.
  assert (Hc : raw = 0 \/ raw = 1 \/ raw = 2 \/ raw = 3 \/ raw = 4 \/ raw = 5
               \/ raw = 6 \/ raw = 7 \/ raw = 8 \/ raw = 9 \/ raw = 10
               \/ raw = 11 \/ raw = 12 \/ raw = 13 \/ raw = 14 \/ raw = 15)
    by lia.
  repeat destruct Hc as [->|Hc]; try subst raw;
    (eexists; split; [reflexivity|]; repeat split; (lia || reflexivity)).
Qed.

Lemma pad_table_is_row_flip_witness :
  exists pad,
    array_get kRawPadToLogical 5 = Some pad /\ pad = 9 /\
    array_get kRawPadToLogical pad = Some 5.
Proof.
  destruct (pad_table_is_row_flip 5) as (pad & H1 & _ & H2 & _ & _ & H3);
    [lia|].
  exists pad. split; [exact H1|]. split; [exact H2|exact H3].
Defined.

(** ** The wire format of a pad pair *)





(** ** The encoder direction *)

Lemma encoderIncreased_false_iff p c :
  encoderIncreased p c = false <->
  ~ ((p < c \/ (p = 15 /\ c = 0)) /\ ~ (p = 0 /\ c = 15)).
Proof.
  rewrite <- encoderIncreased_iff. symmetry. apply not_true_iff_false.
Qed.

(** X12. On the 16 encoder positions a step of one position up (modulo 16)
    is always reported as increased and a step of one position down never;
    the direction of a move is the opposite of the direction of the move
    back. *)
Theorem encoder_steps (p c : Z) :
  0 <= p <= 15 -> 0 <= c <= 15 ->
  encoderIncreased p ((p + 1) mod 16) = true /\
  encoderIncreased p ((p - 1) mod 16) = false /\
  (p <> c -> encoderIncreased c p = negb (encoderIncreased p c)).
Proof.
  intros Hp Hc. split; [|split].
  - apply encoderIncreased_iff.
    destruct (Z.eq_dec p 15) as [->|]; [change ((15 + 1) mod 16) with 0; lia|].
    rewrite Z.mod_small by lia. lia.
  - apply encoderIncreased_false_iff.
    destruct (Z.eq_dec p 0) as [->|]; [change ((0 - 1) mod 16) with 15; lia|].
    rewrite Z.mod_small by lia. lia.
  - intros Hne.
    destruct (encoderIncreased p c) eqn:E1, (encoderIncreased c p) eqn:E2;
      try reflexivity; exfalso;
      repeat match goal with
        | H : encoderIncreased _ _ = true |- _ =>
            apply encoderIncreased_iff in H
        | H : encoderIncreased _ _ = false |- _ =>
            apply encoderIncreased_false_iff in H
        end; lia.
Qed.

Lemma encoder_steps_witness :
  encoderIncreased 15 ((15 + 1) mod 16) = true /\
  encoderIncreased 15 ((15 - 1) mod 16) = false /\
  (15 <> 3 -> encoderIncreased 3 15 = negb (encoderIncreased 15 3)).
Proof. apply (encoder_steps 15 3); lia. Defined.

(** ** Reports that are too short for the button decoder *)

Lemma for_each_cons_None {A X} (body : A -> X -> option X) a l x :
  body a x = None -> for_each body (a :: l) x = None.
Proof. intros H. cbn [for_each]. by rewrite H. Qed.

Lemma processButtonsReport_empty (r : Run) : processButtonsReport [] r = None.
Proof.
  unfold processButtonsReport.
  change (size_t (Transfer_size [] - 1)) with 18446744073709551615.
  change (18446744073709551615 <? 5) with false. cbv iota.
  destruct (m_buttonsActiveLow r.1 <? 0).
  - unfold detectPolarity, calibrationLoop.
    change (size_t (18446744073709551615 - 1)) with 18446744073709551614.
    rewrite seqZ_cons by lia.
    rewrite for_each_cons_None; reflexivity.
  - cbn [mbind option_bind]. unfold buildNewDown.
    rewrite seqZ_cons by lia.
    rewrite for_each_cons_None; reflexivity.
Qed.

(** X13. The length guard of the button decoder: a report of 1 to 5 bytes is
    dropped without any effect.  The guard does not cover the empty
    transfer, for which [size() - 1] wraps around: there the decoder reads
    outside the transfer.  The classifier never lets that happen, since it
    hands the button decoder reports of 6 bytes only. *)
Theorem buttons_decoder_short_reports (input_ : Transfer) (r : Run) :
  (1 <= Z.of_nat (length input_) <= 5 ->
   processButtonsReport input_ r = Some r) /\
  processButtonsReport [] r = None /\
  (Z.of_nat (length input_) < 2 ^ 64 -> length input_ <> 6%nat ->
   processReport input_ r = Some r \/
   processReport input_ r = processPadsLikeMk1Mk2 input_ r).
Proof.
  split; [|split].
  - intros Hlen. unfold processButtonsReport.
    rewrite Transfer_size_small, size_t_small by lia.
    destruct (Z.ltb_spec (Z.of_nat (length input_) - 1) 5); [reflexivity|lia].
  - apply processButtonsReport_empty.
  - intros Hlen Hne.
    destruct (processReport_cases input_ r) as [H | [[Hsize _] | H]]; auto.
    rewrite Transfer_size_small in Hsize by assumption. lia.
Qed.

Lemma buttons_decoder_short_reports_witness :
  processButtonsReport [x01; xff; xff] (fresh, []) = Some (fresh, []) /\
  (processReport [x01; xff; xff] (fresh, []) = Some (fresh, []) \/
   processReport [x01; xff; xff] (fresh, [])
   = processPadsLikeMk1Mk2 [x01; xff; xff] (fresh, [])).
Proof.
  destruct (buttons_decoder_short_reports [x01; xff; xff] (fresh, []))
    as (Hshort & _ & Hroute).
  split; [apply Hshort; simpl; lia|apply Hroute; [simpl; lia|discriminate]].
Defined.

(** ** Streams of events over any number of reports *)

Lemma follows_app ok state f1 f2 :
  follows ok state (f1 ++ f2)
  = follows ok state f1 && follows ok (lastFlag state f1) f2.
Proof.
  revert state. induction f1 as [|f f1 IH]; intros state; [reflexivity|].
  cbn [app follows]. rewrite IH. unfold lastFlag. cbn [foldl].
  by rewrite andb_assoc.
Qed.

Lemma lastFlag_app state f1 f2 :
  lastFlag state (f1 ++ f2) = lastFlag (lastFlag state f1) f2.
Proof. unfold lastFlag. apply foldl_app. Qed.

Section Tracking.
Variable bit : MaschineMikroMK1 -> bool.
Variable flags : list Event -> list bool.
Variable ok : bool -> bool -> bool.
Hypothesis flags_app : forall e1 e2, flags (e1 ++ e2) = flags e1 ++ flags e2.
Hypothesis flags_nil : flags [] = [].

Lemma tracks_refl r : tracks bit flags ok r r.
Proof.
  exists []. rewrite app_nil_r, flags_nil. repeat split.
Qed.

Lemma tracks_trans r1 r2 r3 :
  tracks bit flags ok r1 r2 -> tracks bit flags ok r2 r3 ->
  tracks bit flags ok r1 r3.
Proof.
  intros (e1 & He1 & Hf1 & Hl1) (e2 & He2 & Hf2 & Hl2).
  exists (e1 ++ e2). split; [by rewrite He2, He1, app_assoc|].
  rewrite flags_app, follows_app, lastFlag_app, Hl1, Hf1, Hf2, Hl2.
  split; reflexivity.
Qed.

(** Silent steps that leave the bit alone. *)
Lemma tracks_silent (r r' : Run) evs :
  r'.2 = r.2 ++ evs -> flags evs = [] -> bit r'.1 = bit r.1 ->
  tracks bit flags ok r r'.
Proof.
  intros Hevs Hflags Hbit. exists evs. rewrite Hflags.
  split; [exact Hevs|]. split; [reflexivity|]. by rewrite Hbit.
Qed.

(** A loop whose rounds track, on a device that keeps its 16 pad entries,
    tracks. *)
Lemma for_each_tracks {A} (body : A -> Run -> option Run) (P : A -> Prop) l :
  (forall a r, P a -> wf r.1 ->
     exists r', body a r = Some r' /\ wf r'.1 /\ tracks bit flags ok r r') ->
  Forall P l ->
  forall r, wf r.1 ->
    exists r', for_each body l r = Some r' /\ wf r'.1 /\
               tracks bit flags ok r r'.
Proof.
  intros Hstep. induction 1 as [|a l Ha Hl IH]; intros r Hwf.
  - exists r. split; [reflexivity|]. split; [assumption|apply tracks_refl].
  - destruct (Hstep a r Ha Hwf) as (r1 & Hr1 & Hwf1 & Ht1).
    destruct (IH r1 Hwf1) as (r' & Hr' & Hwf' & Ht').
    exists r'. cbn [for_each]. rewrite Hr1.
    split; [exact Hr'|]. split; [exact Hwf'|].
    eapply tracks_trans; eassumption.
Qed.
End Tracking.

(** *** Pads *)

Lemma padFlags_app pad e1 e2 :
  padFlags pad (e1 ++ e2) = padFlags pad e1 ++ padFlags pad e2.
Proof.
  induction e1 as [|[b p s|e i s|key v s] e1 IH]; cbn [app padFlags];
    try assumption; [reflexivity|].
  destruct (key =? pad); [by rewrite IH|assumption].
Qed.

Lemma padFlags_buttons pad ini p c new old shift :
  padFlags pad (encoderEvents ini p c shift ++ buttonEvents new old shift) = [].
Proof.
  rewrite padFlags_app.
  assert (H1 : padFlags pad (encoderEvents ini p c shift) = [])
    by (unfold encoderEvents; destruct (_ && _); reflexivity).
  rewrite H1. cbn [app]. unfold buttonEvents.
  induction (seqZ 0 32) as [|i l IH]; [reflexivity|].
  cbn [flat_map]. rewrite padFlags_app, IH, app_nil_r.
  unfold edgeEvents. destruct (Bool.eqb _ _); [reflexivity|].
  cbv zeta. destruct (Button.is_unknown _); reflexivity.
Qed.

(** A magnitude above 0 never gives the value 0.0. *)
Lemma pad_ratio_nonzero m :
  1 <= m <= 4095 -> PrimFloat.eqb (pad_ratio m) 0%float = false.
Proof.
  intros Hm.
  assert (Hall : forallb pad_ratio_nonzero_check (seqZ 1 4095) = true)
    by (vm_compute; reflexivity).
  rewrite forallb_forall in Hall. specialize (Hall m).
  unfold pad_ratio_nonzero_check in Hall.
  apply negb_true_iff, Hall, list_elem_of_In, elem_of_seqZ. lia.
Qed.

Lemma padBody_tracks pad lo hi (r : Run) :
  wf r.1 ->
  exists r',
    padBody lo hi r = Some r' /\ wf r'.1 /\
    tracks (fun d => Z.testbit (m_padDown d) pad) (padFlags pad)
      releaseAfterPress r r'.
Proof.
  intros Hwf.
  destruct (padBody_total lo hi r Hwf) as (r' & Hr' & Hwf').
  exists r'. split; [exact Hr'|]. split; [exact Hwf'|].
  destruct (padBody_spec lo hi r Hwf) as (pad0 & _ & Hrange & Hspec).
  cbv zeta in Hspec. rewrite Hspec in Hr'. clear Hspec.
  pose proof (magnitude_range lo hi) as Hm.
  unfold tracks.
  destruct (Z.ltb_spec kPadThreshold (magnitude lo hi)) as [Hgt|Hle];
    [|destruct (Z.testbit (m_padDown r.1) pad0) eqn:Hdown];
    injection Hr' as <-; cbn [fst snd m_padDown set_padDown set_padValues].
  - eexists. split; [reflexivity|]. cbn [padFlags].
    change (Z.setbit (m_padDown r.1) pad0)
      with (bitset_write (m_padDown r.1) pad0 true).
    rewrite testbit_bitset_write by lia.
    rewrite pad_ratio_nonzero by (unfold kPadThreshold in Hgt; lia).
    destruct (pad0 =? pad); split; reflexivity.
  - eexists. split; [reflexivity|]. cbn [padFlags].
    change (Z.clearbit (m_padDown r.1) pad0)
      with (bitset_write (m_padDown r.1) pad0 false).
    rewrite testbit_bitset_write by lia.
    destruct (Z.eqb_spec pad0 pad) as [<-|_].
    + rewrite Hdown. split; reflexivity.
    + split; reflexivity.
  - exists []. split; [by rewrite app_nil_r|]. split; reflexivity.
Qed.

Lemma processReport_tracks_pad pad (input_ : Transfer) (r : Run) :
  Z.of_nat (length input_) < 2 ^ 31 -> wf r.1 ->
  exists r',
    processReport input_ r = Some r' /\ wf r'.1 /\
    tracks (fun d => Z.testbit (m_padDown d) pad) (padFlags pad)
      releaseAfterPress r r'.
Proof.
  intros Hlen Hwf.
  destruct (processReport_cases input_ r) as [-> | [[Hsize ->] | ->]].
  - exists r. split; [reflexivity|]. split; [assumption|].
    apply tracks_refl. reflexivity.
  - rewrite Transfer_size_small in Hsize by lia.
    destruct (six_bytes input_) as (tag & b1 & b2 & b3 & b4 & enc & ->);
      [lia|].
    destruct (processButtonsReport_spec tag b1 b2 b3 b4 enc r)
      as (newDown & _ & Hrun).
    cbv zeta in Hrun. eexists. split; [exact Hrun|].
    split; [exact Hwf|].
    eapply tracks_silent; [reflexivity|apply padFlags_buttons|reflexivity].
  - rewrite processPadsLikeMk1Mk2_pairs by assumption.
    apply (for_each_tracks _ _ _ (padFlags_app pad) eq_refl padBody'
             (fun _ => True)); [| |assumption].
    + intros [lo hi] x _ Hx. by apply padBody_tracks.
    + apply Forall_forall. auto.
Qed.

(** X14. Over any sequence of reports, the events of a pad never contain a
    release (value 0.0) but right after a press of that pad, or first of all
    when the pad was marked down at the start; and the mark of the pad in the
    device is always the kind of its last event. *)
Theorem pad_release_only_after_press (reports : list Transfer)
    (d : MaschineMikroMK1) (pad : Z) :
  wf d ->
  Forall (fun t : Transfer => Z.of_nat (length t) < 2 ^ 31) reports ->
  exists r',
    processReports reports (d, []) = Some r' /\
    follows releaseAfterPress (Z.testbit (m_padDown d) pad)
      (padFlags pad r'.2) = true /\
    lastFlag (Z.testbit (m_padDown d) pad) (padFlags pad r'.2)
    = Z.testbit (m_padDown r'.1) pad.
Proof.
  intros Hwf Hlen.
  destruct (for_each_tracks _ _ releaseAfterPress (padFlags_app pad) eq_refl
              processReport _ reports
              (fun t r => processReport_tracks_pad pad t r) Hlen (d, []) Hwf)
    as (r' & Hr' & _ & evs & Hevs & Hfollows & Hlast).
  exists r'. split; [exact Hr'|].
  cbn [fst snd app] in Hevs, Hfollows, Hlast. rewrite Hevs. auto.
Qed.

Lemma pad_release_only_after_press_witness :
  exists r',
    processReports [[x20; xfa; x00; x10; x00]; [x20; x05; x00]] (fresh, [])
    = Some r' /\
    follows releaseAfterPress false (padFlags 12 r'.2) = true.
Proof.
  destruct (pad_release_only_after_press
              [[x20; xfa; x00; x10; x00]; [x20; x05; x00]] fresh 12)
    as (r' & Hr' & Hfollows & _).
  - reflexivity.
  - repeat (apply List.Forall_cons; [simpl; lia|]). apply List.Forall_nil.
  - exists r'. split; [exact Hr'|exact Hfollows].
Defined.

(** *** Buttons *)

Lemma buttonFlags_app button e1 e2 :
  buttonFlags button (e1 ++ e2)
  = buttonFlags button e1 ++ buttonFlags button e2.
Proof.
  induction e1 as [|[b p s|e i s|key v s] e1 IH]; cbn [app buttonFlags];
    try assumption; [reflexivity|].
  destruct (decide (b = button)); [by rewrite IH|assumption].
Qed.

Lemma buttonFlags_keys button evs :
  forallb is_key_event evs = true -> buttonFlags button evs = [].
Proof.
  induction evs as [|[b p s|e i s|key v s] evs IH]; cbn [forallb is_key_event];
    try discriminate; [reflexivity|].
  intros H. apply andb_true_iff in H as [_ H]. by apply IH.
Qed.

Lemma buttonFlags_flat_map {A} button (f : A -> list Event) l :
  buttonFlags button (flat_map f l)
  = flat_map (fun a => buttonFlags button (f a)) l.
Proof.
  induction l as [|a l IH]; [reflexivity|].
  cbn [flat_map]. by rewrite buttonFlags_app, IH.
Qed.

(** The flags that a frame adds to the stream of the button at position
    [i]: the new state when it differs from the old one. *)
Lemma buttonFlags_buttonEvents i new old shift :
  0 <= i < 32 ->
  Button.is_unknown (buttonAt (4 - i / 8) (i mod 8)) = false ->
  buttonFlags (buttonAt (4 - i / 8) (i mod 8)) (buttonEvents new old shift)
  = if Bool.eqb (new i) (old i) then [] else [new i].
Proof.
  intros Hi Hknown. unfold buttonEvents.
  rewrite buttonFlags_flat_map.
  rewrite (flat_map_only _ _ i).
  - unfold edgeEvents. destruct (Bool.eqb _ _); [reflexivity|].
    cbv zeta. rewrite Hknown. cbn [buttonFlags].
    destruct (decide _); [reflexivity|contradiction].
  - apply NoDup_seqZ.
  - apply elem_of_seqZ. lia.
  - intros j Hj Hne. apply elem_of_seqZ in Hj. unfold edgeEvents.
    destruct (Bool.eqb _ _); [reflexivity|].
    cbv zeta.
    destruct (Button.is_unknown (buttonAt (4 - j / 8) (j mod 8)));
      [reflexivity|].
    cbn [buttonFlags].
    destruct (decide _) as [Heq|]; [|reflexivity].
    exfalso. apply Hne. symmetry.
    apply buttonAt_injective; [lia|lia|assumption|by symmetry].
Qed.

Lemma processReport_tracks_button i (input_ : Transfer) (r : Run) :
  0 <= i < 32 ->
  Button.is_unknown (buttonAt (4 - i / 8) (i mod 8)) = false ->
  Z.of_nat (length input_) < 2 ^ 31 -> wf r.1 ->
  exists r',
    processReport input_ r = Some r' /\ wf r'.1 /\
    tracks (fun d => Z.testbit (m_buttonDown d) i)
      (buttonFlags (buttonAt (4 - i / 8) (i mod 8))) alternating r r'.
Proof.
  intros Hi Hknown Hlen Hwf.
  destruct (processReport_cases input_ r) as [-> | [[Hsize ->] | ->]].
  - exists r. split; [reflexivity|]. split; [assumption|].
    apply tracks_refl. reflexivity.
  - rewrite Transfer_size_small in Hsize by lia.
    destruct (six_bytes input_) as (tag & b1 & b2 & b3 & b4 & enc & ->);
      [lia|].
    destruct (processButtonsReport_spec tag b1 b2 b3 b4 enc r)
      as (newDown & Hbits & Hrun).
    cbv zeta in Hbits, Hrun. eexists. split; [exact Hrun|].
    split; [exact Hwf|].
    eexists. cbn [fst snd m_buttonDown]. split; [reflexivity|].
    rewrite buttonFlags_app.
    assert (Henc : forall ini p c s,
      buttonFlags (buttonAt (4 - i / 8) (i mod 8)) (encoderEvents ini p c s)
      = []) by (intros; unfold encoderEvents; destruct (_ && _); reflexivity).
    rewrite Henc. cbn [app].
    rewrite buttonFlags_buttonEvents by assumption.
    rewrite Hbits.
    destruct (Z.leb_spec 0 i); [|lia]. destruct (Z.ltb_spec i 32); [|lia].
    cbn [andb]. unfold alternating, lastFlag.
    destruct (Bool.eqb _ _) eqn:E; cbn [follows foldl].
    + apply eqb_prop in E. by rewrite E.
    + rewrite E. split; reflexivity.
  - destruct (processPadsLikeMk1Mk2_key_events input_ r Hwf Hlen)
      as (r' & evs & Hr' & Hevs & _ & Hkeys).
    exists r'. split; [exact Hr'|].
    split; [eapply padsLoop_wf; [exact Hwf|exact Hr']|].
    eapply tracks_silent; [exact Hevs|by apply buttonFlags_keys|].
    apply processPadsLikeMk1Mk2_frame in Hr'. unfold buttons_part in Hr'.
    injection Hr' as -> _ _ _. reflexivity.
Qed.

(** X15. Over any sequence of reports, the events of a named button
    alternate: each carries the pressed state opposite to the one before it
    (the first, opposite to the state stored at the start), so a press is
    never reported twice without a release in between; and the state stored
    in the device is always the one last reported. *)
Theorem button_events_alternate (reports : list Transfer)
    (d : MaschineMikroMK1) (i : Z) :
  wf d ->
  Forall (fun t : Transfer => Z.of_nat (length t) < 2 ^ 31) reports ->
  0 <= i < 32 ->
  Button.is_unknown (buttonAt (4 - i / 8) (i mod 8)) = false ->
  exists r',
    processReports reports (d, []) = Some r' /\
    follows alternating (Z.testbit (m_buttonDown d) i)
      (buttonFlags (buttonAt (4 - i / 8) (i mod 8)) r'.2) = true /\
    lastFlag (Z.testbit (m_buttonDown d) i)
      (buttonFlags (buttonAt (4 - i / 8) (i mod 8)) r'.2)
    = Z.testbit (m_buttonDown r'.1) i.
Proof.
  intros Hwf Hlen Hi Hknown.
  destruct (for_each_tracks _ _ alternating
              (buttonFlags_app (buttonAt (4 - i / 8) (i mod 8))) eq_refl
              processReport _ reports
              (fun t r => processReport_tracks_button i t r Hi Hknown)
              Hlen (d, []) Hwf)
    as (r' & Hr' & _ & evs & Hevs & Hfollows & Hlast).
  exists r'. split; [exact Hr'|].
  cbn [fst snd app] in Hevs, Hfollows, Hlast. rewrite Hevs. auto.
Qed.

Lemma button_events_alternate_witness :
  exists r',
    processReports
      [[x01; x00; x00; x00; x00; x00]; [x01; x08; x00; x00; x00; x00];
       [x20; xfa; x00]; [x01; x00; x00; x00; x00; x00]] (fresh, [])
    = Some r' /\
    follows alternating false (buttonFlags Button.Play r'.2) = true.
Proof.
  destruct (button_events_alternate
              [[x01; x00; x00; x00; x00; x00]; [x01; x08; x00; x00; x00; x00];
               [x20; xfa; x00]; [x01; x00; x00; x00; x00; x00]] fresh 3)
    as (r' & Hr' & Hfollows & _).
  - reflexivity.
  - repeat (apply List.Forall_cons; [simpl; lia|]). apply List.Forall_nil.
  - lia.
  - reflexivity.
  - exists r'. split; [exact Hr'|exact Hfollows].
Defined.

(** ** The two decoders side by side *)

Lemma device_eq_parts d d' :
  pads_part d = pads_part d' -> buttons_part d = buttons_part d' -> d = d'.
Proof.
  destruct d, d'. unfold pads_part, buttons_part.
  cbn [m_padValues m_padDown m_buttonDown m_buttonsActiveLow
       m_encoderInitialized m_encoderValue].
  intros [= -> ->] [= -> -> -> ->]. reflexivity.
Qed.

(** One round of the pad loop reads and writes the pad part of the device
    only: on two devices with the same pad part it emits the same events and
    leaves the same pad part. *)
Lemma padBody_local lo hi (r1 r2 r1' : Run) :
  wf r1.1 -> pads_part r1.1 = pads_part r2.1 ->
  padBody lo hi r1 = Some r1' ->
  exists ev r2',
    r1'.2 = r1.2 ++ ev /\
    padBody lo hi r2 = Some r2' /\
    r2'.2 = r2.2 ++ ev /\
    pads_part r2'.1 = pads_part r1'.1 /\
    buttons_part r2'.1 = buttons_part r2.1.
Proof.
  intros Hwf1 Hparts Hbody.
  assert (Hwf2 : wf r2.1).
  { unfold wf. unfold pads_part in Hparts. injection Hparts as <- _.
    exact Hwf1. }
  destruct (padBody_spec lo hi r1 Hwf1) as (pad & Hpad & _ & Hspec1).
  destruct (padBody_spec lo hi r2 Hwf2) as (pad' & Hpad' & _ & Hspec2).
  rewrite Hpad in Hpad'. injection Hpad' as <-.
  cbv zeta in Hspec1, Hspec2. rewrite Hspec1 in Hbody. rewrite Hspec2.
  unfold pads_part in Hparts. injection Hparts as Hv Hd.
  rewrite <- Hv, <- Hd.
  destruct (kPadThreshold <? _); [|destruct (Z.testbit _ _)];
    injection Hbody as <-; cbn [fst snd].
  - eexists _, _. repeat split; reflexivity.
  - eexists _, _. repeat split; reflexivity.
  - exists []. eexists. rewrite !app_nil_r. repeat split; try reflexivity.
    unfold pads_part. cbn [m_padValues m_padDown set_padValues].
    by rewrite Hd.
Qed.

Lemma for_each_padBody_local (ps : list (byte * byte)) :
  forall r1 r2 r1' : Run,
    wf r1.1 -> pads_part r1.1 = pads_part r2.1 ->
    for_each padBody' ps r1 = Some r1' ->
    exists ev r2',
      r1'.2 = r1.2 ++ ev /\
      for_each padBody' ps r2 = Some r2' /\
      r2'.2 = r2.2 ++ ev /\
      pads_part r2'.1 = pads_part r1'.1 /\
      buttons_part r2'.1 = buttons_part r2.1.
Proof.
  induction ps as [|[lo hi] ps IH]; intros r1 r2 r1' Hwf Hparts.
  - intros [= <-]. exists [], r2. rewrite !app_nil_r. cbn [for_each]. auto.
  - cbn [for_each]. unfold padBody' at 1 3. cbn [fst snd].
    destruct (padBody lo hi r1) as [x1|] eqn:E1; [|discriminate].
    intros Hrest.
    destruct (padBody_local lo hi r1 r2 x1 Hwf Hparts E1)
      as (ev1 & x2 & He1 & E2 & He2 & Hp2 & Hb2).
    rewrite E2.
    destruct (padBody_total lo hi r1 Hwf) as (y & Hy & Hwfx).
    rewrite E1 in Hy. injection Hy as <-.
    destruct (IH x1 x2 r1' Hwfx (eq_sym Hp2) Hrest)
      as (ev2 & r2' & He1' & Hrun2 & He2' & Hp2' & Hb2').
    exists (ev1 ++ ev2), r2'.
    split; [by rewrite He1', He1, app_assoc|].
    split; [exact Hrun2|].
    split; [by rewrite He2', He2, app_assoc|].
    split; [exact Hp2'|]. by rewrite Hb2'.
Qed.

(** X16. The decoders commute.  A buttons report and a pad report decoded
    one after the other leave the same device whichever comes first, and
    each emits the events it would emit alone; only the order of the two
    groups of events in the stream differs. *)
Theorem decoders_commute (tag b1 b2 b3 b4 enc : byte) (pads : Transfer)
    (r : Run) :
  wf r.1 ->
  Z.of_nat (length pads) < 2 ^ 31 ->
  exists rB rP d eB eP,
    processButtonsReport [tag; b1; b2; b3; b4; enc] r = Some rB /\
    rB.2 = r.2 ++ eB /\
    processPadsLikeMk1Mk2 pads r = Some rP /\
    rP.2 = r.2 ++ eP /\
    processPadsLikeMk1Mk2 pads rB = Some (d, r.2 ++ eB ++ eP) /\
    processButtonsReport [tag; b1; b2; b3; b4; enc] rP
    = Some (d, r.2 ++ eP ++ eB).
Proof.
  intros Hwf Hlen.
  destruct (processButtonsReport_spec tag b1 b2 b3 b4 enc r)
    as (newDown & Hbits & HrunB).
  cbv zeta in Hbits, HrunB.
  destruct (processPadsLikeMk1Mk2_total pads r Hlen Hwf) as (rP & HrunP & _).
  pose proof (processPadsLikeMk1Mk2_frame pads r rP HrunP) as HframeP.
  match type of HrunB with _ = Some ?x => set (rB := x) in * end.
  assert (HpartsB : pads_part r.1 = pads_part rB.1) by reflexivity.
  pose proof HrunP as HrunP'.
  rewrite processPadsLikeMk1Mk2_pairs in HrunP' by assumption.
  destruct (for_each_padBody_local _ r rB rP Hwf HpartsB HrunP')
    as (eP & rBP & HeP & HrunBP & HeBP & HpBP & HbBP).
  rewrite <- processPadsLikeMk1Mk2_pairs in HrunBP by assumption.
  destruct (processButtonsReport_spec tag b1 b2 b3 b4 enc rP)
    as (newDown' & Hbits' & HrunPB).
  cbv zeta in Hbits', HrunPB.
  unfold buttons_part in HframeP. injection HframeP as Hbd Hal Hini Hval.
  rewrite Hbd, Hal, Hini, Hval in HrunPB. rewrite Hal in Hbits'.
  assert (Hnd : newDown' = newDown).
  { apply testbit_ext. intros i. by rewrite Hbits, Hbits'. }
  subst newDown'.
  eexists rB, rP, rBP.1, _, eP.
  split; [exact HrunB|]. split; [reflexivity|]. split; [exact HrunP|].
  split; [exact HeP|]. split.
  - rewrite HrunBP. f_equal. destruct rBP as [dBP eBP].
    cbn [fst snd] in *. rewrite HeBP. subst rB. cbn [snd].
    by rewrite <- app_assoc.
  - rewrite HrunPB. f_equal. f_equal.
    + symmetry. apply device_eq_parts.
      * rewrite HpBP. reflexivity.
      * rewrite HbBP. reflexivity.
    + by rewrite HeP, <- app_assoc.
Qed.

Lemma decoders_commute_witness :
  exists rB rP d eB eP,
    processButtonsReport [x01; x08; x00; x00; x00; x02] (fresh, []) = Some rB /\
    rB.2 = [] ++ eB /\
    processPadsLikeMk1Mk2 [x20; xfa; x00] (fresh, []) = Some rP /\
    rP.2 = [] ++ eP /\
    processPadsLikeMk1Mk2 [x20; xfa; x00] rB = Some (d, [] ++ eB ++ eP) /\
    processButtonsReport [x01; x08; x00; x00; x00; x02] rP
    = Some (d, [] ++ eP ++ eB).
Proof.
  apply (decoders_commute x01 x08 x00 x00 x00 x02 [x20; xfa; x00] (fresh, []));
    [reflexivity|simpl; lia].
Defined.

(** ** The hexadecimal dump *)

Lemma string_append_assoc (a b c : string) :
  ((a ++ b) ++ c = a ++ b ++ c)%string.
Proof. induction a as [|x a IH]; [reflexivity|]. cbn. by rewrite IH. Qed.

Lemma string_append_nil_r (a : string) : (a ++ "" = a)%string.
Proof. induction a as [|x a IH]; [reflexivity|]. cbn. by rewrite IH. Qed.

Lemma toHexBytes_from (input : Transfer) :
  Z.of_nat (length input) < 2 ^ 31 ->
  forall (l : list byte) (k : nat) (b : byte) (os : string),
    drop k input = b :: l ->
    for_each (toHexBytes_step input)
      (seqZ (Z.of_nat k) (Z.of_nat (length (b :: l)))) os
    = Some (os ++ (if (Z.of_nat k =? 0)%Z then "" else " ")
               ++ String.concat " " (map (fun x => formatHex (u8 x)) (b :: l)))
      %string.
Proof.
  intros Hlen. induction l as [|b' l IH]; intros k b os Hdrop.
  - assert (Hk : input !! k = Some b).
    { rewrite <- (Nat.add_0_r k), <- lookup_drop, Hdrop. reflexivity. }
    assert (Hlt : (k < length input)%nat) by (eapply lookup_lt_Some, Hk).
    rewrite seqZ_cons by (cbn [length]; lia).
    cbn [for_each]. unfold toHexBytes_step at 1.
    rewrite static_cast_int_small, Transfer_at_nat, Hk by lia.
    cbn [mbind option_bind].
    replace (Z.pred (Z.of_nat (length [b]))) with 0 by (cbn [length]; lia).
    reflexivity.
  - assert (Hk : input !! k = Some b).
    { rewrite <- (Nat.add_0_r k), <- lookup_drop, Hdrop. reflexivity. }
    assert (Hlt : (k < length input)%nat) by (eapply lookup_lt_Some, Hk).
    assert (Hdrop' : drop (S k) input = b' :: l).
    { rewrite (drop_S _ _ _ Hk) in Hdrop. by injection Hdrop. }
    rewrite seqZ_cons by (cbn [length]; lia).
    cbn [for_each]. unfold toHexBytes_step at 1.
    rewrite static_cast_int_small, Transfer_at_nat, Hk by lia.
    cbn [mbind option_bind].
    replace (Z.succ (Z.of_nat k)) with (Z.of_nat (S k)) by lia.
    replace (Z.pred (Z.of_nat (length (b :: b' :: l))))
      with (Z.of_nat (length (b' :: l))) by (cbn [length]; lia).
    rewrite (IH (S k) b' _ Hdrop').
    destruct (Z.eqb_spec (Z.of_nat (S k)) 0); [lia|].
    cbn [map String.concat]. f_equal.
    by rewrite !string_append_assoc.
Qed.

Lemma toHexBytes_concat (input : Transfer) :
  Z.of_nat (length input) < 2 ^ 31 ->
  toHexBytes input
  = Some (String.concat " " (map (fun b => formatHex (u8 b)) input)).
Proof.
  intros Hlen. unfold toHexBytes. rewrite Transfer_size_small by lia.
  destruct input as [|b l]; [reflexivity|].
  apply (toHexBytes_from (b :: l) Hlen l 0%nat b ""%string). reflexivity.
Qed.

Lemma readHexBytes_token b rest out :
  readHexBytes (formatHex (u8 b) ++ rest) None out
  = readHexBytes rest (Some (u8 b)) out.
Proof. destruct b; reflexivity. Qed.

Lemma pushByte_u8 b out : pushByte (u8 b) out = Some (b :: out).
Proof.
  unfold pushByte, u8. by rewrite N2Z.id, Byte.of_to_N.
Qed.

Lemma readHexBytes_concat (l : list byte) :
  forall b out,
    readHexBytes (String.concat " " (map (fun x => formatHex (u8 x)) (b :: l)))
      None out
    = Some (rev out ++ b :: l).
Proof.
  induction l as [|b' l IH]; intros b out.
  - cbn [map String.concat].
    rewrite <- (string_append_nil_r (formatHex (u8 b))).
    rewrite readHexBytes_token. cbn [readHexBytes].
    rewrite pushByte_u8. cbn [rev]. reflexivity.
  - change (String.concat " " (map (fun x => formatHex (u8 x)) (b :: b' :: l)))
      with (formatHex (u8 b)
            ++ String " "
                 (String.concat " " (map (fun x => formatHex (u8 x)) (b' :: l))))
           %string.
    rewrite readHexBytes_token. cbn [readHexBytes].
    change (Ascii.eqb " " " ") with true. cbv iota.
    rewrite pushByte_u8, IH. cbn [rev]. by rewrite <- app_assoc.
Qed.

Lemma formatHex_u8_length b :
  (1 <= String.length (formatHex (u8 b)) <= 2)%nat.
Proof. destruct b; vm_compute; lia. Qed.

(** X17. The dump of a transfer for the log: the bytes in order, each as a
    lowercase hexadecimal number of one or two digits without leading zero,
    with single spaces between them and none at either end (the empty string
    for the empty transfer).  The dump loses nothing: reading the numbers
    back gives the transfer. *)
Theorem toHexBytes_round_trip (input : Transfer) :
  Z.of_nat (length input) < 2 ^ 31 ->
  exists s,
    toHexBytes input = Some s /\
    s = String.concat " " (map (fun b => formatHex (u8 b)) input) /\
    Forall (fun b => (1 <= String.length (formatHex (u8 b)) <= 2)%nat) input /\
    readHexBytes s None [] = Some input.
Proof.
  intros Hlen. eexists. split; [by apply toHexBytes_concat|].
  split; [reflexivity|]. split.
  - apply Forall_forall. intros b _. apply formatHex_u8_length.
  - destruct input as [|b l]; [reflexivity|]. apply readHexBytes_concat.
Qed.

Lemma toHexBytes_round_trip_witness :
  toHexBytes [x01; xff; x0a; x00] = Some "1 ff a 0"%string /\
  readHexBytes "1 ff a 0" None [] = Some [x01; xff; x0a; x00].
Proof.
  destruct (toHexBytes_round_trip [x01; xff; x0a; x00])
    as (s & Hs & Hconcat & _ & Hread); [simpl; lia|].
  rewrite Hconcat in Hs, Hread. split; [exact Hs|exact Hread].
Defined.

(** ** The stored frame as a machine word *)

Lemma testbit_block w k j a :
  0 <= k -> 0 <= j < 8 ->
  (w / 2 ^ (8 * k)) mod 2 ^ 8 = a ->
  Z.testbit w (8 * k + j) = Z.testbit a j.
Proof.
  intros Hk Hj <-.
  rewrite Z.mod_pow2_bits_low by lia.
  rewrite Z.div_pow2_bits by lia.
  f_equal. lia.
Qed.

Lemma frameWord_range b1 b2 b3 b4 : 0 <= frameWord b1 b2 b3 b4 < 2 ^ 32.
Proof.
  unfold frameWord.
  pose proof (u8_range b1). pose proof (u8_range b2).
  pose proof (u8_range b3). pose proof (u8_range b4).
  change (2 ^ 8) with 256. change (2 ^ 16) with 65536.
  change (2 ^ 24) with 16777216. change (2 ^ 32) with 4294967296. lia.
Qed.

Lemma testbit_frameWord b1 b2 b3 b4 i :
  0 <= i < 32 ->
  Z.testbit (frameWord b1 b2 b3 b4) i = framePressed 0 [b1; b2; b3; b4] i.
Proof.
  intros Hi.
  pose proof (u8_range b1). pose proof (u8_range b2).
  pose proof (u8_range b3). pose proof (u8_range b4).
  assert (Hk : 0 <= i / 8 < 4).
  { split; [apply Z.div_pos; lia|apply Z.div_lt_upper_bound; lia]. }
  assert (Hj : 0 <= i mod 8 < 8) by (apply Z.mod_pos_bound; lia).
  replace (Z.testbit (frameWord b1 b2 b3 b4) i)
    with (Z.testbit (frameWord b1 b2 b3 b4) (8 * (i / 8) + i mod 8))
    by (f_equal; symmetry; apply Z.div_mod; lia).
  unfold framePressed, pressedBit. change (0 <? 0) with false. cbv iota.
  assert (Hc : i / 8 = 0 \/ i / 8 = 1 \/ i / 8 = 2 \/ i / 8 = 3) by lia.
  destruct Hc as [E | [E | [E | E]]]; rewrite E;
    match goal with
    | |- context [[b1; b2; b3; b4] !! Z.to_nat ?k] =>
        let v := eval cbv in ([b1; b2; b3; b4] !! Z.to_nat k) in
        change ([b1; b2; b3; b4] !! Z.to_nat k) with v
    end;
    (apply testbit_block; [lia|lia|]);
    unfold frameWord;
    change (2 ^ 8) with 256; change (2 ^ 16) with 65536;
    change (2 ^ 24) with 16777216;
    [change (2 ^ (8 * 0)) with 1 | change (2 ^ (8 * 1)) with 256
    |change (2 ^ (8 * 2)) with 65536 | change (2 ^ (8 * 3)) with 16777216];
    Z.to_euclidean_division_equations; lia.
Qed.

Lemma testbit_complement32 w i :
  0 <= w < 2 ^ 32 -> 0 <= i < 32 ->
  Z.testbit (2 ^ 32 - 1 - w) i = negb (Z.testbit w i).
Proof.
  intros Hw Hi.
  replace (2 ^ 32 - 1 - w) with (Z.lnot w mod 2 ^ 32).
  - rewrite Z.mod_pow2_bits_low by lia. apply Z.lnot_spec. lia.
  - symmetry. apply (Z.mod_unique _ _ (-1)); [left; lia|].
    unfold Z.lnot. lia.
Qed.

Lemma framePressed_polarity activeLow b1 b2 b3 b4 i :
  0 <= i < 32 ->
  framePressed activeLow [b1; b2; b3; b4] i
  = if 0 <? activeLow then negb (framePressed 0 [b1; b2; b3; b4] i)
    else framePressed 0 [b1; b2; b3; b4] i.
Proof.
  intros Hi. unfold framePressed.
  assert (Hk : 0 <= i / 8 < 4).
  { split; [apply Z.div_pos; lia|apply Z.div_lt_upper_bound; lia]. }
  destruct ([b1; b2; b3; b4] !! Z.to_nat (i / 8)) as [b|] eqn:E.
  - unfold pressedBit. change (0 <? 0) with false.
    destruct (0 <? activeLow); reflexivity.
  - apply lookup_ge_None in E. cbn [length] in E. lia.
Qed.

(** The button decoder on a six-byte report, with the new frame written as
    a machine word. *)
Lemma processButtonsReport_word tag b1 b2 b3 b4 enc (r : Run) :
  let activeLow :=
    if m_buttonsActiveLow r.1 <? 0 then resolvedPolarity [b1; b2; b3; b4]
    else m_buttonsActiveLow r.1 in
  exists evs,
    processButtonsReport [tag; b1; b2; b3; b4; enc] r
    = Some (mkDevice (m_padValues r.1) (m_padDown r.1)
              (if 0 <? activeLow then 2 ^ 32 - 1 - frameWord b1 b2 b3 b4
               else frameWord b1 b2 b3 b4)
              activeLow true (u8 enc mod 16),
            r.2 ++ evs).
Proof.
  intros activeLow.
  destruct (processButtonsReport_spec tag b1 b2 b3 b4 enc r)
    as (newDown & Hbits & Hrun).
  cbv zeta in Hbits, Hrun. fold activeLow in Hbits, Hrun.
  eexists. rewrite Hrun. f_equal. f_equal. f_equal.
  pose proof (frameWord_range b1 b2 b3 b4) as Hw.
  assert (Hrange :
    0 <= (if 0 <? activeLow then 2 ^ 32 - 1 - frameWord b1 b2 b3 b4
          else frameWord b1 b2 b3 b4) < 2 ^ 32)
    by (destruct (0 <? activeLow); lia).
  apply testbit_ext. intros i. rewrite Hbits.
  destruct (Z.leb_spec 0 i) as [Hlo|Hlo];
    [destruct (Z.ltb_spec i 32) as [Hhi|Hhi]|]; cbn [andb].
  - rewrite framePressed_polarity by lia.
    destruct (0 <? activeLow).
    + rewrite testbit_complement32 by lia.
      by rewrite testbit_frameWord by lia.
    + by rewrite testbit_frameWord by lia.
  - symmetry. by apply (range_bits 32).
  - symmetry. apply Z.testbit_neg_r. lia.
Qed.

(** X18. The frame that a buttons report leaves in [m_buttonDown] is the
    32-bit little-endian word of its four bitfield bytes when the polarity is
    active-high, and the complement of that word when it is active-low. *)
Theorem stored_frame_is_report_word (tag b1 b2 b3 b4 enc : byte) (r : Run) :
  let activeLow :=
    if m_buttonsActiveLow r.1 <? 0 then resolvedPolarity [b1; b2; b3; b4]
    else m_buttonsActiveLow r.1 in
  exists r',
    processButtonsReport [tag; b1; b2; b3; b4; enc] r = Some r' /\
    m_buttonsActiveLow r'.1 = activeLow /\
    m_buttonDown r'.1
    = if 0 <? activeLow then 2 ^ 32 - 1 - frameWord b1 b2 b3 b4
      else frameWord b1 b2 b3 b4.
Proof.
  intros activeLow.
  destruct (processButtonsReport_word tag b1 b2 b3 b4 enc r) as (evs & Hrun).
  cbv zeta in Hrun. fold activeLow in Hrun.
  eexists. split; [exact Hrun|]. split; reflexivity.
Qed.

(** ** The pad decoder and the first byte *)

Lemma processReport_long_odd b0 (rest : Transfer) (r : Run) :
  33 <= Z.of_nat (length (b0 :: rest)) < 2 ^ 64 ->
  Z.of_nat (length (b0 :: rest)) mod 2 = 1 ->
  processReport (b0 :: rest) r = processPadsLikeMk1Mk2 (b0 :: rest) r.
Proof.
  intros Hlen Hodd. unfold processReport. cbn [Transfer_bool negb].
  rewrite Transfer_size_small, !byte_is_head by lia.
  destruct (Z.eqb_spec (Z.of_nat (length (b0 :: rest))) 6) as [E|_]; [lia|].
  cbn [mbind option_bind].
  destruct (Z.leb_spec 2 (Z.of_nat (length (b0 :: rest)))); [|lia].
  cbn [mbind option_bind].
  destruct (u8 b0 =? 0x20); [reflexivity|].
  destruct (Z.leb_spec 33 (Z.of_nat (length (b0 :: rest)))); [|lia].
  rewrite Hodd. reflexivity.
Qed.

(** X19. The pad decoder starts at offset 1 and never looks at byte 0: two
    transfers that differ in the first byte only are decoded alike, and a
    transfer of at most 2 bytes, holding no complete pair, has no effect.
    So the fallback of the classifier for odd lengths from 33 on takes the
    first byte for a tag whatever its value. *)
Theorem pad_decoder_skips_first_byte (b0 b0' : byte) (rest : Transfer)
    (r : Run) :
  Z.of_nat (length (b0 :: rest)) < 2 ^ 31 ->
  processPadsLikeMk1Mk2 (b0 :: rest) r = processPadsLikeMk1Mk2 (b0' :: rest) r
  /\
  ((length (b0 :: rest) <= 2)%nat ->
   processPadsLikeMk1Mk2 (b0 :: rest) r = Some r) /\
  (33 <= Z.of_nat (length (b0 :: rest)) ->
   Z.of_nat (length (b0 :: rest)) mod 2 = 1 ->
   processReport (b0 :: rest) r = processReport (b0' :: rest) r).
Proof.
  intros Hlen.
  assert (Hsame : processPadsLikeMk1Mk2 (b0 :: rest) r
                  = processPadsLikeMk1Mk2 (b0' :: rest) r).
  { rewrite !processPadsLikeMk1Mk2_pairs by (cbn [length] in *; lia).
    reflexivity. }
  split; [exact Hsame|]. split.
  - intros Hshort. rewrite processPadsLikeMk1Mk2_pairs by assumption.
    cbn [drop]. destruct rest as [|b1 [|b2 rest]]; cbn [length] in Hshort;
      [reflexivity|reflexivity|lia].
  - intros H33 Hodd.
    rewrite !processReport_long_odd by (cbn [length] in *; lia).
    exact Hsame.
Qed.

Lemma pad_decoder_skips_first_byte_witness :
  processPadsLikeMk1Mk2 [x20; xfa; x00] (fresh, [])
  = processPadsLikeMk1Mk2 [x00; xfa; x00] (fresh, []) /\
  processPadsLikeMk1Mk2 [x20; xfa] (fresh, []) = Some (fresh, []).
Proof.
  split.
  - destruct (pad_decoder_skips_first_byte x20 x00 [xfa; x00] (fresh, []))
      as (Hsame & _); [simpl; lia|exact Hsame].
  - destruct (pad_decoder_skips_first_byte x20 x00 [xfa] (fresh, []))
      as (_ & Hshort & _); [simpl; lia|].
    apply Hshort. simpl. lia.
Defined.

(** ** The button state after any number of reports *)

Lemma processReport_dispatch b0 (rest : Transfer) (r : Run) :
  Z.of_nat (length (b0 :: rest)) < 2 ^ 64 ->
  processReport (b0 :: rest) r =
  if (Z.of_nat (length (b0 :: rest)) =? 6) && (u8 b0 =? 0x01)
  then processButtonsReport (b0 :: rest) r
  else if (2 <=? Z.of_nat (length (b0 :: rest))) && (u8 b0 =? 0x20)
  then processPadsLikeMk1Mk2 (b0 :: rest) r
  else if (33 <=? Z.of_nat (length (b0 :: rest)))
          && (Z.of_nat (length (b0 :: rest)) mod 2 =? 1)
  then processPadsLikeMk1Mk2 (b0 :: rest) r
  else Some r.
Proof.
  intros Hlen. unfold processReport. cbn [Transfer_bool negb].
  rewrite Transfer_size_small, !byte_is_head by assumption.
  destruct (_ =? 6), (2 <=? _), (u8 b0 =? 0x01), (u8 b0 =? 0x20);
    reflexivity.
Qed.

Lemma processReport_buttons (t : Transfer) b1 b2 b3 b4 enc (r : Run) :
  buttonsFields t = Some (b1, b2, b3, b4, enc) ->
  exists tag,
    t = [tag; b1; b2; b3; b4; enc] /\
    processReport t r = processButtonsReport t r.
Proof.
  unfold buttonsFields.
  destruct t as [|b0 [|c1 [|c2 [|c3 [|c4 [|e [|]]]]]]]; try discriminate.
  destruct (u8 b0 =? 0x01) eqn:E; [|discriminate].
  intros [= <- <- <- <- <-]. exists b0. split; [reflexivity|].
  rewrite processReport_dispatch by (cbn [length]; lia).
  cbn [length]. change (Z.of_nat 6 =? 6) with true. by rewrite E.
Qed.

Lemma processReport_not_buttons (t : Transfer) (r : Run) :
  buttonsFields t = None ->
  Z.of_nat (length t) < 2 ^ 31 -> wf r.1 ->
  exists r',
    processReport t r = Some r' /\ wf r'.1 /\
    buttons_part r'.1 = buttons_part r.1.
Proof.
  intros Hnone Hlen Hwf.
  destruct t as [|b0 rest]; [exists r; auto|].
  rewrite processReport_dispatch by lia.
  assert (Hb : (Z.of_nat (length (b0 :: rest)) =? 6) && (u8 b0 =? 0x01)
               = false).
  { destruct (Z.eqb_spec (Z.of_nat (length (b0 :: rest))) 6) as [E|];
      [|reflexivity].
    destruct (six_bytes (b0 :: rest)) as (tag & b1 & b2 & b3 & b4 & enc & Ht);
      [lia|].
    injection Ht as -> ->. unfold buttonsFields in Hnone.
    destruct (u8 tag =? 0x01); [discriminate|reflexivity]. }
  rewrite Hb.
  assert (Hpads : exists r',
    processPadsLikeMk1Mk2 (b0 :: rest) r = Some r' /\ wf r'.1 /\
    buttons_part r'.1 = buttons_part r.1).
  { destruct (processPadsLikeMk1Mk2_total (b0 :: rest) r Hlen Hwf)
      as (r' & Hr' & Hwf').
    exists r'. split; [exact Hr'|]. split; [exact Hwf'|].
    by apply processPadsLikeMk1Mk2_frame in Hr'. }
  clear Hb.
  destruct ((2 <=? _) && _); [exact Hpads|].
  destruct ((33 <=? _) && _); [exact Hpads|]. exists r. auto.
Qed.

Lemma for_each_snoc {A X} (body : A -> X -> option X) l a x :
  for_each body (l ++ [a]) x =
  match for_each body l x with
  | Some x' => body a x'
  | None => None
  end.
Proof.
  revert x. induction l as [|b l IH]; intros x; cbn [app for_each].
  - destruct (body a x); reflexivity.
  - destruct (body b x); [apply IH|reflexivity].
Qed.

(** The button part of the device after a sequence of reports, told from
    the buttons reports in the sequence. *)
Lemma button_state_after (reports : list Transfer) (d : MaschineMikroMK1) :
  wf d ->
  m_buttonsActiveLow d < 0 ->
  Forall (fun t : Transfer => Z.of_nat (length t) < 2 ^ 31) reports ->
  exists r',
    processReports reports (d, []) = Some r' /\
    wf r'.1 /\
    match head (omap buttonsFields reports),
          last (omap buttonsFields reports) with
    | Some (f1, f2, f3, f4, _), Some (l1, l2, l3, l4, enc) =>
        let activeLow := resolvedPolarity [f1; f2; f3; f4] in
        m_buttonsActiveLow r'.1 = activeLow /\
        m_buttonDown r'.1
        = (if 0 <? activeLow then 2 ^ 32 - 1 - frameWord l1 l2 l3 l4
           else frameWord l1 l2 l3 l4) /\
        m_encoderInitialized r'.1 = true /\
        m_encoderValue r'.1 = u8 enc mod 16
    | _, _ => buttons_part r'.1 = buttons_part d
    end.
Proof.
  intros Hwf Hunknown.
  induction reports as [|t reports IH] using rev_ind; intros Hlen.
  - exists (d, []). repeat split; assumption.
  - apply Forall_app in Hlen as [Hlen Ht].
    apply Forall_cons in Ht as [Ht _].
    destruct (IH Hlen) as (r1 & Hr1 & Hwf1 & Hstate). clear IH.
    unfold processReports in *. rewrite for_each_snoc, Hr1.
    rewrite omap_app. cbn [omap list_omap].
    destruct (buttonsFields t) as [[[[[t1 t2] t3] t4] enc]|] eqn:Hfields.
    + destruct (processReport_buttons t t1 t2 t3 t4 enc r1 Hfields)
        as (tag & -> & ->).
      destruct (processButtonsReport_word tag t1 t2 t3 t4 enc r1)
        as (evs & Hrun).
      cbv zeta in Hrun. eexists. split; [exact Hrun|].
      split; [exact Hwf1|].
      rewrite last_snoc.
      cbn [fst m_buttonsActiveLow m_buttonDown m_encoderInitialized
           m_encoderValue].
      destruct (omap buttonsFields reports) as [|x xs] eqn:Hxs.
      * cbn [app head]. cbn [head last] in Hstate.
        unfold buttons_part in Hstate. injection Hstate as _ Hpol _ _.
        rewrite Hpol.
        destruct (Z.ltb_spec (m_buttonsActiveLow d) 0); [|lia].
        auto.
      * cbn [app head]. cbn [head] in Hstate.
        destruct (last (x :: xs)) as [[[[[l1 l2] l3] l4] le]|] eqn:Hlast;
          [|apply last_None in Hlast; discriminate].
        destruct x as [[[[f1 f2] f3] f4] fe].
        destruct Hstate as (Hpol & _).
        pose proof (resolvedPolarity_range [f1; f2; f3; f4]) as Hres.
        rewrite Hpol.
        destruct (Z.ltb_spec (resolvedPolarity [f1; f2; f3; f4]) 0); [lia|].
        auto.
    + rewrite app_nil_r.
      destruct (processReport_not_buttons t r1 Hfields Ht Hwf1)
        as (r' & Hr' & Hwf' & Hframe).
      exists r'. split; [exact Hr'|]. split; [exact Hwf'|].
      unfold buttons_part in Hframe. injection Hframe as Hbd Hal Hini Hval.
      destruct (head (omap buttonsFields reports))
        as [[[[[f1 f2] f3] f4] fe]|];
        [destruct (last (omap buttonsFields reports))
           as [[[[[l1 l2] l3] l4] le]|]|];
        unfold buttons_part in *; rewrite ?Hbd, ?Hal, ?Hini, ?Hval;
        exact Hstate.
Qed.

(** X20. What the device knows of the buttons after any sequence of reports,
    starting with the polarity unknown, depends on the buttons reports of the
    sequence alone (six bytes, first byte 0x01): the polarity is the one that
    the first of them calibrates, the stored frame is the word of the last of
    them under that polarity, and the encoder position is the low nibble of
    the last byte of the last of them.  Without any buttons report the button
    part of the device is as it was. *)
Theorem button_state_from_first_and_last_report (reports : list Transfer)
    (d : MaschineMikroMK1) :
  wf d ->
  m_buttonsActiveLow d < 0 ->
  Forall (fun t : Transfer => Z.of_nat (length t) < 2 ^ 31) reports ->
  exists r',
    processReports reports (d, []) = Some r' /\
    match head (omap buttonsFields reports),
          last (omap buttonsFields reports) with
    | Some (f1, f2, f3, f4, _), Some (l1, l2, l3, l4, enc) =>
        let activeLow := resolvedPolarity [f1; f2; f3; f4] in
        m_buttonsActiveLow r'.1 = activeLow /\
        m_buttonDown r'.1
        = (if 0 <? activeLow then 2 ^ 32 - 1 - frameWord l1 l2 l3 l4
           else frameWord l1 l2 l3 l4) /\
        m_encoderInitialized r'.1 = true /\
        m_encoderValue r'.1 = u8 enc mod 16
    | _, _ => buttons_part r'.1 = buttons_part d
    end.
Proof.
  intros Hwf Hunknown Hlen.
  destruct (button_state_after reports d Hwf Hunknown Hlen)
    as (r' & Hr' & _ & Hstate).
  exists r'. split; [exact Hr'|exact Hstate].
Qed.

Lemma button_state_from_first_and_last_report_witness :
  exists r',
    processReports
      [[x20; xfa; x00]; [x01; xff; xff; xff; xff; x03]; [x99];
       [x01; xff; xfe; xff; xff; x07]] (fresh, []) = Some r' /\
    m_buttonsActiveLow r'.1 = 1 /\
    m_buttonDown r'.1 = 256 /\
    m_encoderInitialized r'.1 = true /\
    m_encoderValue r'.1 = 7.
Proof.
  destruct (button_state_from_first_and_last_report
              [[x20; xfa; x00]; [x01; xff; xff; xff; xff; x03]; [x99];
               [x01; xff; xfe; xff; xff; x07]] fresh)
    as (r' & Hr' & Hstate).
  - reflexivity.
  - reflexivity.
  - repeat (apply List.Forall_cons; [simpl; lia|]). apply List.Forall_nil.
  - exists r'. split; [exact Hr'|exact Hstate].
Defined.

(** ** The pad state after any number of reports *)

Lemma lastMagnitude_app pad ps1 ps2 :
  lastMagnitude pad (ps1 ++ ps2)
  = match lastMagnitude pad ps2 with
    | Some m => Some m
    | None => lastMagnitude pad ps1
    end.
Proof.
  induction ps1 as [|[lo hi] ps1 IH]; cbn [app lastMagnitude].
  - destruct (lastMagnitude pad ps2); reflexivity.
  - rewrite IH. destruct (lastMagnitude pad ps2); reflexivity.
Qed.

(** What one report does to the pads, whichever way it is classified. *)
Lemma processReport_pads_effect (t : Transfer) (r : Run) :
  Z.of_nat (length t) < 2 ^ 31 -> wf r.1 ->
  exists r',
    processReport t r = Some r' /\ wf r'.1 /\
    forall pad,
      0 <= pad < 16 ->
      m_padValues r'.1 !! Z.to_nat pad
      = match lastMagnitude pad (padPairsOf t) with
        | Some m => Some m
        | None => m_padValues r.1 !! Z.to_nat pad
        end /\
      Z.testbit (m_padDown r'.1) pad
      = match lastMagnitude pad (padPairsOf t) with
        | Some m => kPadThreshold <? m
        | None => Z.testbit (m_padDown r.1) pad
        end.
Proof.
  intros Hlen Hwf.
  destruct t as [|b0 rest]; [exists r; cbn; auto|].
  rewrite processReport_dispatch by lia. unfold padPairsOf. cbv zeta.
  destruct ((Z.of_nat (length (b0 :: rest)) =? 6) && (u8 b0 =? 0x01)) eqn:Hb.
  - apply andb_true_iff in Hb as [H6 _]. apply Z.eqb_eq in H6.
    destruct (six_bytes (b0 :: rest)) as (tag & b1 & b2 & b3 & b4 & enc & Ht);
      [lia|].
    rewrite Ht.
    destruct (processButtonsReport_spec tag b1 b2 b3 b4 enc r)
      as (newDown & _ & Hrun).
    cbv zeta in Hrun. eexists. split; [exact Hrun|].
    split; [exact Hwf|]. cbn [lastMagnitude fst m_padValues m_padDown]. auto.
  - assert (Hpads : exists r',
      processPadsLikeMk1Mk2 (b0 :: rest) r = Some r' /\ wf r'.1 /\
      forall pad,
        0 <= pad < 16 ->
        m_padValues r'.1 !! Z.to_nat pad
        = match lastMagnitude pad (pairs rest) with
          | Some m => Some m
          | None => m_padValues r.1 !! Z.to_nat pad
          end /\
        Z.testbit (m_padDown r'.1) pad
        = match lastMagnitude pad (pairs rest) with
          | Some m => kPadThreshold <? m
          | None => Z.testbit (m_padDown r.1) pad
          end).
    { rewrite processPadsLikeMk1Mk2_pairs by assumption.
      apply for_each_padBody_last, Hwf. }
    destruct ((2 <=? _) && (u8 b0 =? 0x20)); cbn [orb]; [exact Hpads|].
    destruct ((33 <=? _) && _); [exact Hpads|].
    exists r. cbn [lastMagnitude]. auto.
Qed.

Lemma pad_state_after (reports : list Transfer) :
  Forall (fun t : Transfer => Z.of_nat (length t) < 2 ^ 31) reports ->
  forall r : Run,
    wf r.1 ->
    exists r',
      processReports reports r = Some r' /\ wf r'.1 /\
      forall pad,
        0 <= pad < 16 ->
        m_padValues r'.1 !! Z.to_nat pad
        = match lastMagnitude pad (flat_map padPairsOf reports) with
          | Some m => Some m
          | None => m_padValues r.1 !! Z.to_nat pad
          end /\
        Z.testbit (m_padDown r'.1) pad
        = match lastMagnitude pad (flat_map padPairsOf reports) with
          | Some m => kPadThreshold <? m
          | None => Z.testbit (m_padDown r.1) pad
          end.
Proof.
  induction 1 as [|t reports Ht Hrest IH]; intros r Hwf.
  - exists r. cbn. auto.
  - destruct (processReport_pads_effect t r Ht Hwf) as (r1 & Hr1 & Hwf1 & H1).
    destruct (IH r1 Hwf1) as (r' & Hr' & Hwf' & H').
    exists r'. unfold processReports in *. cbn [for_each]. rewrite Hr1.
    split; [exact Hr'|]. split; [exact Hwf'|].
    intros pad Hpad. cbn [flat_map]. rewrite lastMagnitude_app.
    destruct (H' pad Hpad) as [Hv Hb]. destruct (H1 pad Hpad) as [Hv1 Hb1].
    rewrite Hv, Hb.
    destruct (lastMagnitude pad (flat_map padPairsOf reports)); [auto|].
    rewrite Hv1, Hb1. auto.
Qed.

(** X21. What the device knows of a pad after any sequence of reports
    depends on the last pair addressed to that pad in the reports that the
    classifier hands to the pad decoder, and on nothing else: its magnitude is
    the one stored and the threshold test on it is the mark; a pad that no
    such pair addresses is as it was.  Buttons reports and dropped reports in
    between make no difference. *)
Theorem pad_state_from_last_pair (reports : list Transfer)
    (d : MaschineMikroMK1) (pad : Z) :
  wf d ->
  Forall (fun t : Transfer => Z.of_nat (length t) < 2 ^ 31) reports ->
  0 <= pad < 16 ->
  exists r',
    processReports reports (d, []) = Some r' /\
    m_padValues r'.1 !! Z.to_nat pad
    = match lastMagnitude pad (flat_map padPairsOf reports) with
      | Some m => Some m
      | None => m_padValues d !! Z.to_nat pad
      end /\
    Z.testbit (m_padDown r'.1) pad
    = match lastMagnitude pad (flat_map padPairsOf reports) with
      | Some m => kPadThreshold <? m
      | None => Z.testbit (m_padDown d) pad
      end.
Proof.
  intros Hwf Hlen Hpad.
  destruct (pad_state_after reports Hlen (d, []) Hwf) as (r' & Hr' & _ & H).
  exists r'. split; [exact Hr'|]. exact (H pad Hpad).
Qed.

Lemma pad_state_from_last_pair_witness :
  exists r',
    processReports
      [[x20; xfa; x00]; [x01; xff; xff; xff; xff; x03]; [x20; x10; x00]]
      (fresh, []) = Some r' /\
    m_padValues r'.1 !! 12%nat = Some 16 /\
    Z.testbit (m_padDown r'.1) 12 = false.
Proof.
  apply (pad_state_from_last_pair
           [[x20; xfa; x00]; [x01; xff; xff; xff; xff; x03]; [x20; x10; x00]]
           fresh 12).
  - reflexivity.
  - repeat (apply List.Forall_cons; [simpl; lia|]). apply List.Forall_nil.
  - lia.
Defined.
